(** * ResticBackupManager: the process runner and the restore orchestration

    A shallow embedding of [internal/restic/runner.go], of the record types of
    package [restic] and of the backend entry points of [app.go], followed by
    the properties the specification states about them.  The second part of
    the definitions embeds the rest of the backend ([internal/config/config.go],
    [NewRunner], the remaining methods of [app.go]) and the tree of the
    selective-restore page; the second part of the theorems states what
    that code and the code of the first part guarantee besides.

    Conventions.
    - A Go [string] is a sequence of bytes: [String.string].  [len] is
      [String.length], the number of bytes.
    - A Go [error] is an [option]: [None] is [nil].
    - Library functions whose behaviour depends on Unicode tables, on the
      operating system or on the JSON decoder are members of the class
      [GoLib]; the operating system itself (file system, subprocesses, the
      random source of package uuid) is the class [Host] over an abstract
      state.  The theorems hold for every instance; [Sim] at the end of the
      definitions is an executable instance used to run the code on concrete
      inputs.
    - The second part adds the classes [Codec] (encoding/json at the
      configuration and at the list of snapshots) and [Platform] (the files
      of the configuration, the path of the executable, the search path),
      with the executable instance [Desk]. *)

From Stdlib Require Import String Ascii List ZArith Bool Arith Lia.
Import ListNotations.
Set Warnings "-register-all".
Local Open Scope string_scope.
Local Open Scope list_scope.

(* ================================================================== *)
(** * Package strings (byte-level functions) *)
(* ================================================================== *)

Module strings.

(** [strings.HasPrefix(s, prefix)]. *)
Definition HasPrefix (s pre : string) : bool := String.prefix pre s.

(** [strings.Contains(s, substr)]: [substr] occurs at some offset of [s]. *)
Fixpoint Contains (s substr : string) : bool :=
  match s with
  | EmptyString => String.prefix substr EmptyString
  | String _ t => String.prefix substr s || Contains t substr
  end.

(** [strings.TrimPrefix(s, prefix)]. *)
Definition TrimPrefix (s pre : string) : string :=
  if HasPrefix s pre
  then String.substring (String.length pre) (String.length s - String.length pre) s
  else s.

(** [strings.ReplaceAll(s, old, new)] for a one-byte [old], the only form the
    program uses. *)
Fixpoint ReplaceAll (s : string) (old : ascii) (new : string) : string :=
  match s with
  | EmptyString => EmptyString
  | String c t =>
      if Ascii.eqb c old then (new ++ ReplaceAll t old new)%string
      else String c (ReplaceAll t old new)
  end.

(** [strings.SplitN(s, sep, 2)] for a one-byte [sep]: [s] cut at the first
    [sep], or [s] alone when there is none. *)
Fixpoint SplitN2 (s : string) (sep : ascii) : list string :=
  match s with
  | EmptyString => [EmptyString]
  | String c t =>
      if Ascii.eqb c sep then [EmptyString; t]
      else match SplitN2 t sep with
           | h :: r => String c h :: r
           | [] => [String c EmptyString]
           end
  end.

End strings.

(** [s[:n]] on a string that has at least [n] bytes. *)
Definition slice_to (n : nat) (s : string) : string := String.substring 0 n s.

(** The byte 0x22, which a string literal of this file cannot hold. *)
Definition dquote : string := String (ascii_of_nat 34) EmptyString.

(* ================================================================== *)
(** * Package restic: the record types (types.go) *)
(* ================================================================== *)

(** A [float64] field is carried as the JSON number literal it was decoded
    from; the program forwards these values and never computes with them. *)
Definition float64 := string.
(** [uint64] and [int] fields: integers, kept in range by the decoder. *)
Definition uint64 := Z.
Definition int := Z.

Module BackupProgress.
Record t := mk {
  MessageType : string;
  SecondsElapsed : float64;
  SecondsRemaining : float64;
  PercentDone : float64;
  TotalFiles : uint64;
  FilesDone : uint64;
  TotalBytes : uint64;
  BytesDone : uint64;
  ErrorCount : int;
  CurrentFiles : list string;
  FilesNew : uint64;
  FilesChanged : uint64;
  FilesUnmodified : uint64;
  DirsNew : uint64;
  DirsChanged : uint64;
  DirsUnmodified : uint64;
  DataBlobs : int;
  TreeBlobs : int;
  DataAdded : uint64;
  TotalFilesProc : uint64;
  TotalBytesProc : uint64;
  TotalDuration : float64;
  SnapshotID : string
}.
End BackupProgress.

Module RestoreProgress.
Record t := mk {
  MessageType : string;
  SecondsElapsed : float64;
  SecondsRemaining : float64;
  PercentDone : float64;
  TotalFiles : uint64;
  FilesRestored : uint64;
  FilesSkipped : uint64;
  TotalBytes : uint64;
  BytesRestored : uint64;
  BytesSkipped : uint64
}.
End RestoreProgress.

Module BackupJob.
Record t := mk {
  RepoID : string;
  SourcePaths : list string;
  Excludes : list string;
  Tags : list string
}.
End BackupJob.

Module FileNode.
Record t := mk {
  StructType : string;
  Name : string;
  Type_ : string;
  Path : string;
  Size : uint64;
  MTime : string
}.
End FileNode.

(* ================================================================== *)
(** * Library functions the model takes as given *)
(* ================================================================== *)

(** [strings.ToLower], [strings.ToUpper] and [strings.TrimSpace] follow the
    Unicode tables; [filepath.Join] and [filepath.Dir] follow the host's path
    syntax; [json.Valid] and [json.Unmarshal] are the decoder of
    encoding/json at the three record types the program decodes into.
    The [_valid] members are the decoder's contract that text which is not
    valid JSON is refused before anything is stored. *)
Class GoLib := {
  ToLower : string -> string;
  ToUpper : string -> string;
  TrimSpace : string -> string;
  Join : string -> string -> string;
  Dir : string -> string;
  Valid : string -> bool;
  UnmarshalBackupProgress : string -> option BackupProgress.t;
  UnmarshalRestoreProgress : string -> option RestoreProgress.t;
  UnmarshalFileNode : string -> option FileNode.t;
  ToLower_empty : ToLower EmptyString = EmptyString;
  UnmarshalBackupProgress_valid :
    forall line p, UnmarshalBackupProgress line = Some p -> Valid line = true;
  UnmarshalRestoreProgress_valid :
    forall line p, UnmarshalRestoreProgress line = Some p -> Valid line = true;
  UnmarshalFileNode_valid :
    forall line p, UnmarshalFileNode line = Some p -> Valid line = true
}.

(* ================================================================== *)
(** * Errors, subprocesses and the host *)
(* ================================================================== *)

(** A Go [error] value.  The first two constructors are the two errors
    [RunWithProgress] builds itself; they are kept apart by the branch that
    builds them, and [Error] is the message [err.Error()] returns. *)
Inductive error :=
| ErrCancelled
| ErrCommandFailed (msg : string)
| ErrMessage (msg : string)
| ErrHost (msg : string) (notExist : bool).

Definition Error (e : error) : string :=
  match e with
  | ErrCancelled => "cancelled"
  | ErrCommandFailed msg => msg
  | ErrMessage msg => msg
  | ErrHost msg _ => msg
  end.

(** [os.IsNotExist(err)]. *)
Definition IsNotExist (e : error) : bool :=
  match e with
  | ErrHost _ b => b
  | _ => false
  end.

(** [exec.Cmd]: [Args] holds the command name followed by the arguments, as
    [exec.Command] builds it. *)
Record Cmd := {
  Path : string;
  Args : list string;
  Env : list string;
  HideWindow : bool
}.

(** How a subprocess run by [CombinedOutput] ended. *)
Inductive ProcExit :=
| Exited (code : Z)
| NotRun (e : error).

(** [err != nil] for the error [CombinedOutput] and [Wait] return. *)
Definition exit_failed (x : ProcExit) : bool :=
  match x with
  | Exited code => negb (code =? 0)%Z
  | NotRun _ => true
  end.

(** What the host reports for one streamed run that comes back from
    [cmd.Wait]: a failure to set the run up, or
    - the lines the two scanners deliver before they stop (a scanner gives up
      at the end of its stream and at a line over 64 KiB);
    - [cancels], the number of [Cancel] calls that reach the subprocess
      before it ended: the command is made with [exec.CommandContext], so
      at the first of them the kill is delivered and [Wait] then returns an
      error whatever the exit status is (the error of the context when the
      status is zero);
    - [late], the number of [Cancel] calls that come too late for that (the
      kill finds the subprocess ended, or [Wait] is over) and before line
      120 reads the context;
    - the exit status [Wait] observes.
    A run whose [Wait] does not come back (the subprocess blocked on a pipe
    nobody reads any more) is no outcome of the host: statements about a
    streamed run are statements about the runs that come back. *)
Inductive StreamRun :=
| StdoutPipeFailed (e : error)
| StderrPipeFailed (e : error)
| StartFailed (e : error)
| Ran (stdout stderr : list string) (cancels late : nat) (code : Z).

Record FileInfo := { IsDir : bool; Mode : Z }.

(** The operating system, over an abstract state [W]. *)
Class Host (W : Type) := {
  Environ : W -> list string;
  CombinedOutput : Cmd -> W -> string * ProcExit * W;
  Stream : Cmd -> W -> StreamRun * W;
  NewUUID : W -> string * W;
  MkdirAll : string -> Z -> W -> option error * W;
  ReadDir : string -> W -> list string * option error * W;
  Rename : string -> string -> W -> option error * W;
  RemoveAll : string -> W -> option error * W;
  Stat : string -> W -> (FileInfo + error) * W;
  Open : string -> W -> option error * W;
  Create : string -> W -> option error * W;
  Copy : string -> string -> W -> option error * W;
  Close : string -> W -> W
}.

(** One externally visible step of the program. *)
Inductive Call :=
| CStart (cmd : Cmd)
| CNewUUID
| CMkdirAll (path : string) (perm : Z)
| CReadDir (path : string)
| CRename (oldpath newpath : string)
| CRemoveAll (path : string)
| CStat (path : string)
| COpen (path : string)
| CCreate (path : string)
| CCopy (dst src : string)
| CClose (path : string).

Inductive Payload :=
| PNil
| PString (s : string)
| PBackup (p : BackupProgress.t)
| PRestore (p : RestoreProgress.t).

Inductive Action :=
| Sys (c : Call)
| EventsEmit (eventName : string) (data : Payload).

(** ** The monad of the embedding

    A computation reads and updates the host state and appends to the trace
    of its visible steps; [None] is a computation that does not return
    within the recursion bound of [copyPath]. *)
Definition M (W A : Type) : Type := W -> option (A * W * list Action).

Definition ret {W A} (a : A) : M W A := fun w => Some (a, w, []).

Definition bind {W A B} (m : M W A) (k : A -> M W B) : M W B :=
  fun w =>
    match m w with
    | None => None
    | Some (a, w1, t1) =>
        match k a w1 with
        | None => None
        | Some (b, w2, t2) => Some (b, w2, t1 ++ t2)
        end
    end.

Declare Scope go_scope.
Delimit Scope go_scope with go.
Notation "x <- m ;; k" := (bind m (fun x => k))
  (at level 100, m at next level, right associativity) : go_scope.
Notation "m ;;; k" := (bind m (fun _ => k))
  (at level 100, right associativity) : go_scope.

(** [defer cleanup] around [body]. *)
Definition defer {W A B} (cleanup : M W B) (body : M W A) : M W A :=
  (x <- body ;; cleanup ;;; ret x)%go.

(** [for _, x := range xs { body(x) }]. *)
Fixpoint forEach {W A} (body : A -> M W unit) (xs : list A) : M W unit :=
  match xs with
  | [] => ret tt
  | x :: rest => (body x ;;; forEach body rest)%go
  end.

Section HostCalls.
Context {W : Type} `{Host W}.

Definition emit (name : string) (data : Payload) : M W unit :=
  fun w => Some (tt, w, [EventsEmit name data]).

Definition environ : M W (list string) :=
  fun w => Some (Environ w, w, []).

Definition combinedOutput (cmd : Cmd) : M W (string * ProcExit) :=
  fun w => let '(out, x, w') := CombinedOutput cmd w in
           Some ((out, x), w', [Sys (CStart cmd)]).

Definition started (r : StreamRun) : bool :=
  match r with
  | StdoutPipeFailed _ | StderrPipeFailed _ => false
  | StartFailed _ | Ran _ _ _ _ _ => true
  end.

(** The pipes are set up and [cmd.Start] is called; the step is visible only
    when [Start] is reached. *)
Definition stream (cmd : Cmd) : M W StreamRun :=
  fun w => let '(r, w') := Stream cmd w in
           Some (r, w', if started r then [Sys (CStart cmd)] else []).

Definition newUUID : M W string :=
  fun w => let '(u, w') := NewUUID w in Some (u, w', [Sys CNewUUID]).

Definition mkdirAll (path : string) (perm : Z) : M W (option error) :=
  fun w => let '(e, w') := MkdirAll path perm w in
           Some (e, w', [Sys (CMkdirAll path perm)]).

Definition readDir (path : string) : M W (list string * option error) :=
  fun w => let '(names, e, w') := ReadDir path w in
           Some ((names, e), w', [Sys (CReadDir path)]).

Definition rename (oldpath newpath : string) : M W (option error) :=
  fun w => let '(e, w') := Rename oldpath newpath w in
           Some (e, w', [Sys (CRename oldpath newpath)]).

Definition removeAll (path : string) : M W (option error) :=
  fun w => let '(e, w') := RemoveAll path w in
           Some (e, w', [Sys (CRemoveAll path)]).

Definition stat (path : string) : M W (FileInfo + error) :=
  fun w => let '(r, w') := Stat path w in Some (r, w', [Sys (CStat path)]).

Definition open (path : string) : M W (option error) :=
  fun w => let '(e, w') := Open path w in Some (e, w', [Sys (COpen path)]).

Definition create (path : string) : M W (option error) :=
  fun w => let '(e, w') := Create path w in Some (e, w', [Sys (CCreate path)]).

Definition copy (dst src : string) : M W (option error) :=
  fun w => let '(e, w') := Copy dst src w in Some (e, w', [Sys (CCopy dst src)]).

Definition close (path : string) : M W unit :=
  fun w => Some (tt, Close path w, [Sys (CClose path)]).

End HostCalls.

(* ================================================================== *)
(** * Package restic: runner.go *)
(* ================================================================== *)

Module restic.
Section Runner.
Context `{GoLib} {W : Type} `{Host W}.

(** The part of [Runner] that stays fixed. *)
Record Runner := { resticPath : string }.

(** The part of [Runner] the mutex guards, with the context it refers to:
    [cancelFunc] is whether a cancel function is registered, [ctxDone]
    whether the context of the run in flight has been cancelled
    ([ctx.Err() != nil]). *)
Record Handle := { cancelFunc : bool; ctxDone : bool }.

Definition idle : Handle := {| cancelFunc := false; ctxDone := false |}.

(** Lines 75-78: a fresh context is made and its cancel function stored. *)
Definition register (h : Handle) : Handle :=
  {| cancelFunc := true; ctxDone := false |}.

(** [Cancel]: the registered cancel function is called, if there is one. *)
Definition Cancel (h : Handle) : Handle :=
  if cancelFunc h then {| cancelFunc := true; ctxDone := true |} else h.

(** The deferred function of lines 80-84. *)
Definition clear (h : Handle) : Handle :=
  {| cancelFunc := false; ctxDone := ctxDone h |}.

Definition msg_wrong_password : string := "Wrong password for this repository.".
Definition msg_not_initialized : string :=
  "Repository not initialized. Go to Repositories → Edit → click "
  ++ dquote ++ "Initialize repository" ++ dquote ++ " first.".
Definition msg_network : string := "Network error. Is the server reachable?".
Definition msg_access : string := "Access denied. Please check permissions.".
Definition msg_exists : string := "Repository already exists.".
Definition msg_locked : string :=
  "Repository is locked. Please wait or unlock it manually.".
Definition msg_unknown : string := "Unknown error".

(** [friendlyError] translates technical restic errors into user-friendly
    messages. *)
Definition friendlyError (raw : string) : string :=
  let lower := ToLower raw in
  if strings.Contains lower "wrong password" then msg_wrong_password
  else if strings.Contains lower "no such file"
          || strings.Contains lower "repository does not exist"
  then msg_not_initialized
  else if strings.Contains lower "connection refused"
          || strings.Contains lower "network"
          || strings.Contains lower "dial"
  then msg_network
  else if strings.Contains lower "permission denied" then msg_access
  else if strings.Contains lower "already initialized" then msg_exists
  else if strings.Contains lower "is already locked" then msg_locked
  else if String.eqb raw EmptyString then msg_unknown
  else raw.

(** The translation of section 4.2.1 of the specification as a table, in the
    order the specification lists it: the substrings of a row and the
    message shown for them.  It is compared with [friendlyError] below. *)
Definition translations : list (list string * string) :=
  [ (["wrong password"], msg_wrong_password);
    (["no such file"; "repository does not exist"], msg_not_initialized);
    (["connection refused"; "network"; "dial"], msg_network);
    (["permission denied"], msg_access);
    (["already initialized"], msg_exists);
    (["is already locked"], msg_locked) ].

(** A row applies to [raw] when the lower-cased text contains one of its
    substrings. *)
Definition applies (raw : string) (row : list string * string) : bool :=
  existsb (strings.Contains (ToLower raw)) (fst row).

(** The first row that applies decides; text no row applies to passes
    through, and empty text becomes the generic message. *)
Definition translate (raw : string) : string :=
  match find (applies raw) translations with
  | Some row => snd row
  | None => if String.eqb raw EmptyString then msg_unknown else raw
  end.

(** [exec.Command(r.resticPath, args...)] with its window hidden and [env]
    as its environment. *)
Definition Command (r : Runner) (args env : list string) : Cmd :=
  {| Path := resticPath r; Args := resticPath r :: args; Env := env;
     HideWindow := true |}.

(** [append(os.Environ(), "RESTIC_REPOSITORY="+repoURI,
    "RESTIC_PASSWORD="+password)]. *)
Definition repoEnv (env : list string) (repoURI password : string) : list string :=
  env ++ [ ("RESTIC_REPOSITORY=" ++ repoURI)%string;
           ("RESTIC_PASSWORD=" ++ password)%string ].

(** [Run] executes a restic command and returns the combined output. *)
Definition Run (r : Runner) (repoURI password : string) (args : list string)
  : M W (string * option error) :=
  (env <- environ ;;
   let cmd := Command r args
                (if String.eqb repoURI EmptyString then env
                 else repoEnv env repoURI password) in
   res <- combinedOutput cmd ;;
   let '(out, x) := res in
   if exit_failed x
   then ret (EmptyString, Some (ErrCommandFailed (friendlyError (TrimSpace out))))
   else ret (out, None))%go.

(** The text the stderr goroutine accumulates: every line followed by a
    newline. *)
Definition stderrBuf (lines : list string) : string :=
  String.concat EmptyString
    (map (fun l => (l ++ String (ascii_of_nat 10) EmptyString)%string) lines).

(** Line 119, [err != nil] for the error of [cmd.Wait] on a command made
    with [exec.CommandContext]: the exit status is not zero, or the context
    was cancelled while the subprocess was alive ([atWait] is the handle at
    that moment) and [Wait] returns the error of the context. *)
Definition waitFailed (atWait : Handle) (code : Z) : bool :=
  exit_failed (Exited code) || ctxDone atWait.

(** Lines 119-125: the error [RunWithProgress] returns once the output is
    drained, from the error of [cmd.Wait] and the state of the context when
    line 120 reads it ([atCheck]). *)
Definition waitResult (atWait atCheck : Handle) (code : Z)
    (stderr : list string) : option error :=
  if waitFailed atWait code then
    if ctxDone atCheck then Some ErrCancelled
    else Some (ErrCommandFailed (friendlyError (TrimSpace (stderrBuf stderr))))
  else None.

(** [RunWithProgress] executes a restic command and calls [onLine] for each
    stdout line. *)
Definition RunWithProgress (r : Runner) (repoURI password : string)
    (args : list string) (onLine : string -> M W unit) : M W (option error) :=
  (let h := register idle in
   env <- environ ;;
   let cmd := Command r args (repoEnv env repoURI password) in
   run <- stream cmd ;;
   match run with
   | StdoutPipeFailed e => ret (Some e)
   | StderrPipeFailed e => ret (Some e)
   | StartFailed e => ret (Some e)
   | Ran stdout stderr cancels late code =>
       forEach onLine stdout ;;;
       let atWait := Nat.iter cancels Cancel h in
       let atCheck := Nat.iter late Cancel atWait in
       ret (waitResult atWait atCheck code stderr)
   end)%go.

End Runner.
End restic.

(* ================================================================== *)
(** * Package config: the repository directory (config.go) *)
(* ================================================================== *)

Module config.

Record Repository := {
  ID : string;
  Name : string;
  URI : string;
  Password : string;
  SourceFolders : list string;
  Excludes : list string
}.

Record AppConfig := {
  Repositories : list Repository;
  LastUsedRepo : string
}.

Record ConfigManager := { path : string; Config : AppConfig }.

(** [GetRepository]: the first repository with the given ID, [None] for the
    pair of the zero value and [false]. *)
Definition GetRepository (cm : ConfigManager) (id : string) : option Repository :=
  find (fun r => String.eqb (ID r) id) (Repositories (Config cm)).

End config.

(* ================================================================== *)
(** * Package main: app.go *)
(* ================================================================== *)

Section App.
Context `{GoLib} {W : Type} `{Host W}.

Record App := {
  config_ : config.ConfigManager;
  runner : option restic.Runner
}.

(** What an exported method hands back: the error it returns and, when it
    reaches its [go] statement, the body of the goroutine it starts. *)
Definition Started : Type := (option error * option (M W unit))%type.

(** [for _, x := range xs { if err := body(x); err != nil { return err } }
    return nil]. *)
Fixpoint forErr {A} (body : A -> M W (option error)) (xs : list A)
  : M W (option error) :=
  match xs with
  | [] => ret None
  | x :: rest =>
      (e <- body x ;;
       match e with
       | Some err => ret (Some err)
       | None => forErr body rest
       end)%go
  end.

(** [for _, x := range xs { args = append(args, flag, x) }]. *)
Definition appendFlag (flag : string) (args xs : list string) : list string :=
  fold_left (fun acc x => acc ++ [flag; x]) xs args.

(** The [onLine] callbacks of [StartBackup] and of the restore methods. *)
Definition backupLine (line : string) : M W unit :=
  match UnmarshalBackupProgress line with
  | Some progress => emit "backup:progress" (PBackup progress)
  | None => ret tt
  end.

Definition restoreLine (line : string) : M W unit :=
  match UnmarshalRestoreProgress line with
  | Some progress => emit "restore:progress" (PRestore progress)
  | None => ret tt
  end.

Definition StartBackup (a : App) (job : BackupJob.t) : Started :=
  match runner a with
  | None => (Some (ErrMessage "restic not found"), None)
  | Some r =>
    match config.GetRepository (config_ a) (BackupJob.RepoID job) with
    | None => (Some (ErrMessage "repository not found"), None)
    | Some repo =>
      let args := ["backup"; "--json"] in
      let args := appendFlag "--exclude" args (BackupJob.Excludes job) in
      let args := appendFlag "--tag" args (BackupJob.Tags job) in
      let args := args ++ BackupJob.SourcePaths job in
      (None, Some
        (err <- restic.RunWithProgress r (config.URI repo) (config.Password repo)
                  args backupLine ;;
         match err with
         | Some e => emit "backup:error" (PString (Error e))
         | None => emit "backup:complete" PNil
         end)%go)
    end
  end.

Definition StartRestore (a : App) (repoID snapshotID targetPath : string)
  : Started :=
  match runner a with
  | None => (Some (ErrMessage "restic not found"), None)
  | Some r =>
    match config.GetRepository (config_ a) repoID with
    | None => (Some (ErrMessage "repository not found"), None)
    | Some repo =>
      let args := ["restore"; snapshotID; "--target"; targetPath; "--json"] in
      (None, Some
        (err <- restic.RunWithProgress r (config.URI repo) (config.Password repo)
                  args restoreLine ;;
         match err with
         | Some e => emit "restore:error" (PString (Error e))
         | None => emit "restore:complete" PNil
         end)%go)
    end
  end.

(** [splitLines]: [cur] is [s[start:i]], [lines] the lines appended so far. *)
Fixpoint splitLines_loop (rest cur : string) (lines : list string) : list string :=
  match rest with
  | EmptyString =>
      if String.eqb cur EmptyString then lines else lines ++ [cur]
  | String c t =>
      if Ascii.eqb c (ascii_of_nat 10)
      then splitLines_loop t EmptyString (lines ++ [cur])
      else splitLines_loop t (cur ++ String c EmptyString)%string lines
  end.

Definition splitLines (s : string) : list string :=
  splitLines_loop s EmptyString [].

(** The loop body of [ListSnapshotContents]. *)
Definition collectNode (nodes : list FileNode.t) (line : string) : list FileNode.t :=
  if String.eqb line EmptyString then nodes
  else match UnmarshalFileNode line with
       | None => nodes
       | Some node =>
           if String.eqb (FileNode.StructType node) "node"
           then nodes ++ [node]
           else nodes
       end.

(** [ListSnapshotContents] lists all files in a snapshot via restic ls --json. *)
Definition ListSnapshotContents (a : App) (repoID snapshotID : string)
  : M W (list FileNode.t * option error) :=
  match runner a with
  | None => ret ([], Some (ErrMessage "restic not found"))
  | Some r =>
    match config.GetRepository (config_ a) repoID with
    | None => ret ([], Some (ErrMessage "repository not found"))
    | Some repo =>
      let args := ["ls"; "--json"; snapshotID] in
      (res <- restic.Run r (config.URI repo) (config.Password repo) args ;;
       let '(out, err) := res in
       match err with
       | Some e => ret ([], Some e)
       | None => ret (fold_left collectNode (splitLines out) [], None)
       end)%go
    end
  end.

(** [extractDriveLetter] reads the drive letter off a restic path. *)
Definition extractDriveLetter (path : string) : string :=
  let norm := strings.ReplaceAll path "\"%char "/" in
  let norm := strings.TrimPrefix norm "/" in
  let parts := strings.SplitN2 norm "/"%char in
  if Nat.eqb (String.length (hd EmptyString parts)) 1
  then ToUpper (hd EmptyString parts)
  else EmptyString.

(** [copyPath] copies a file or a directory recursively.  [fuel] bounds the
    depth of the recursion. *)
Fixpoint copyPath (fuel : nat) (src dst : string) : M W (option error) :=
  match fuel with
  | O => fun _ => None
  | S fuel' =>
    (st <- stat src ;;
     match st with
     | inr err => ret (Some err)
     | inl info =>
       if IsDir info then
         e <- mkdirAll dst (Mode info) ;;
         match e with
         | Some err => ret (Some err)
         | None =>
             r <- readDir src ;;
             forErr (fun name => copyPath fuel' (Join src name) (Join dst name))
                    (fst r)
         end
       else
         e <- open src ;;
         match e with
         | Some err => ret (Some err)
         | None =>
             defer (close src)
               (e2 <- create dst ;;
                match e2 with
                | Some err => ret (Some err)
                | None => defer (close dst) (copy dst src)
                end)
         end
     end)%go
  end.

(** The loop body of [moveContents]. *)
Definition moveEntry (fuel : nat) (src dst name : string) : M W (option error) :=
  (let srcPath := Join src name in
   let dstPath := Join dst name in
   e <- mkdirAll (Dir dstPath) 493 ;;
   match e with
   | Some err => ret (Some err)
   | None =>
       e2 <- rename srcPath dstPath ;;
       match e2 with
       | Some _ =>
           ce <- copyPath fuel srcPath dstPath ;;
           match ce with
           | Some copyErr => ret (Some copyErr)
           | None => removeAll srcPath ;;; ret None
           end
       | None => ret None
       end
   end)%go.

(** [moveContents] moves all entries of [src] directly into [dst]. *)
Definition moveContents (fuel : nat) (src dst : string) : M W (option error) :=
  (r <- readDir src ;;
   let '(entries, err) := r in
   match err with
   | Some e => if IsNotExist e then ret None else ret (Some e)
   | None => forErr (moveEntry fuel src dst) entries
   end)%go.

(** The goroutine of [RestoreSelected] for [toOriginal = true]. *)
Definition restoreToOriginal (fuel : nat) (r : restic.Runner)
    (repo : config.Repository) (snapshotID : string)
    (first : string) (includePaths : list string) : M W unit :=
  (let driveLetter := extractDriveLetter first in
   if String.eqb driveLetter EmptyString
   then emit "restore:error" (PString "Could not determine drive letter from path")
   else
     u <- newUUID ;;
     let tempDir := (driveLetter ++ ":\restic-gui-temp-" ++ slice_to 8 u)%string in
     e <- mkdirAll tempDir 493 ;;
     match e with
     | Some err =>
         emit "restore:error"
              (PString ("Failed to create temp directory: " ++ Error err))
     | None =>
         defer (removeAll tempDir)
           (let args := ["restore"; snapshotID; "--target"; tempDir; "--json"] in
            let args := appendFlag "--include" args includePaths in
            err <- restic.RunWithProgress r (config.URI repo) (config.Password repo)
                     args restoreLine ;;
            match err with
            | Some e => emit "restore:error" (PString (Error e))
            | None =>
                let srcBase := Join tempDir driveLetter in
                let dstBase := (driveLetter ++ ":\")%string in
                me <- moveContents fuel srcBase dstBase ;;
                match me with
                | Some e =>
                    emit "restore:error" (PString ("Move failed: " ++ Error e))
                | None => emit "restore:complete" PNil
                end
            end)
     end)%go.

(** The goroutine of [RestoreSelected] for [toOriginal = false]. *)
Definition restoreToTarget (r : restic.Runner) (repo : config.Repository)
    (snapshotID : string) (includePaths : list string) (targetPath : string)
  : M W unit :=
  (let args := ["restore"; snapshotID; "--target"; targetPath; "--json"] in
   let args := appendFlag "--include" args includePaths in
   err <- restic.RunWithProgress r (config.URI repo) (config.Password repo)
            args restoreLine ;;
   match err with
   | Some e => emit "restore:error" (PString (Error e))
   | None => emit "restore:complete" PNil
   end)%go.

(** [RestoreSelected] restores selected paths from a snapshot. *)
Definition RestoreSelected (fuel : nat) (a : App) (repoID snapshotID : string)
    (includePaths : list string) (targetPath : string) (toOriginal : bool)
  : Started :=
  match runner a with
  | None => (Some (ErrMessage "restic not found"), None)
  | Some r =>
    match config.GetRepository (config_ a) repoID with
    | None => (Some (ErrMessage "repository not found"), None)
    | Some repo =>
      match includePaths with
      | [] => (Some (ErrMessage "no paths selected"), None)
      | first :: _ =>
        if toOriginal
        then (None, Some (restoreToOriginal fuel r repo snapshotID first includePaths))
        else (None, Some (restoreToTarget r repo snapshotID includePaths targetPath))
      end
    end
  end.

End App.

(* ================================================================== *)
(** * Vocabulary of the properties *)
(* ================================================================== *)

Section Vocabulary.
Context `{GoLib} {W : Type} `{Host W}.

(** The commands a trace launches. *)
Definition launches (t : list Action) : list Cmd :=
  flat_map (fun a => match a with Sys (CStart c) => [c] | _ => [] end) t.

(** What one line of a restore contributes to the events: its record when
    it decodes, nothing otherwise. *)
Definition restoreRecord (line : string) : list Action :=
  match UnmarshalRestoreProgress line with
  | Some p => [EventsEmit "restore:progress" (PRestore p)]
  | None => []
  end.

Definition backupRecord (line : string) : list Action :=
  match UnmarshalBackupProgress line with
  | Some p => [EventsEmit "backup:progress" (PBackup p)]
  | None => []
  end.

(** What one line of the listing contributes to the returned entries. *)
Definition nodeOf (line : string) : list FileNode.t :=
  if String.eqb line EmptyString then []
  else match UnmarshalFileNode line with
       | Some node =>
           if String.eqb (FileNode.StructType node) "node" then [node] else []
       | None => []
       end.

Definition newline : ascii := ascii_of_nat 10.

Fixpoint no_newline (s : string) : bool :=
  match s with
  | EmptyString => true
  | String c t => negb (Ascii.eqb c newline) && no_newline t
  end.

(** The leading segment of a restic path: separators normalised, the
    leading slash trimmed, the text up to the next slash. *)
Definition leadingSegment (path : string) : string :=
  hd EmptyString
     (strings.SplitN2
        (strings.TrimPrefix (strings.ReplaceAll path "\"%char "/") "/")
        "/"%char).

(** The entries [names] of [src] are all moved into [dst], from host state
    [w] to [w'] with visible steps [t]: for each entry in turn the parent of
    the destination is made, then the entry is renamed; when the rename
    fails the entry is copied and its source removed. *)
Inductive Moved (fuel : nat) (src dst : string)
  : list string -> W -> W -> list Action -> Prop :=
| Moved_nil (w : W) : Moved fuel src dst [] w w []
| Moved_rename (name : string) (rest : list string) (w w1 w2 w3 : W)
    (t : list Action) :
    MkdirAll (Dir (Join dst name)) 493 w = (None, w1) ->
    Rename (Join src name) (Join dst name) w1 = (None, w2) ->
    Moved fuel src dst rest w2 w3 t ->
    Moved fuel src dst (name :: rest) w w3
      (Sys (CMkdirAll (Dir (Join dst name)) 493)
       :: Sys (CRename (Join src name) (Join dst name)) :: t)
| Moved_copy (name : string) (rest : list string) (w w1 w2 w3 w4 w5 : W)
    (e : error) (e' : option error) (tc t : list Action) :
    MkdirAll (Dir (Join dst name)) 493 w = (None, w1) ->
    Rename (Join src name) (Join dst name) w1 = (Some e, w2) ->
    copyPath fuel (Join src name) (Join dst name) w2 = Some (None, w3, tc) ->
    RemoveAll (Join src name) w3 = (e', w4) ->
    Moved fuel src dst rest w4 w5 t ->
    Moved fuel src dst (name :: rest) w w5
      (Sys (CMkdirAll (Dir (Join dst name)) 493)
       :: Sys (CRename (Join src name) (Join dst name))
       :: tc ++ Sys (CRemoveAll (Join src name)) :: t).

(** Steps on the file system: every call but a launch, and no event. *)
Definition file_step (a : Action) : bool :=
  match a with
  | Sys (CStart _) => false
  | Sys _ => true
  | EventsEmit _ _ => false
  end.

Definition file_steps (t : list Action) : bool := forallb file_step t.

(** The staging directory of a restore to the original location. *)
Definition stagingDir (V u : string) : string :=
  (V ++ ":\restic-gui-temp-" ++ slice_to 8 u)%string.

(** The arguments of a selective restore. *)
Definition restoreArgs (snapshotID target : string) (paths : list string)
  : list string :=
  ["restore"; snapshotID; "--target"; target; "--json"]
    ++ flat_map (fun p => ["--include"; p]) paths.

(** The terminal event of the move phase. *)
Definition moveVerdict (res : option error) : Action :=
  match res with
  | None => EventsEmit "restore:complete" PNil
  | Some e => EventsEmit "restore:error" (PString ("Move failed: " ++ Error e))
  end.

(** The move phase went through: the source directory was missing and
    nothing was moved, or it was read and all its entries were moved. *)
Definition MovePhase (fuel : nat) (src dst : string) (w w' : W)
    (t : list Action) : Prop :=
  (exists names e,
     ReadDir src w = (names, Some e, w') /\ IsNotExist e = true
     /\ t = [Sys (CReadDir src)])
  \/ (exists names w1 t',
        ReadDir src w = (names, None, w1) /\ t = Sys (CReadDir src) :: t'
        /\ Moved fuel src dst names w1 w' t').

End Vocabulary.

(* ================================================================== *)
(** * The selective-restore page (frontend/src/pages/SelectiveRestore.tsx) *)
(* ================================================================== *)

Module SelectiveRestore.

Inductive RestoreMode := original | custom.

(** The React state [startRestore] reads; [checked] is the set of checked
    paths in insertion order, as [Array.from] lists it. *)
Record State := {
  selectedRepo : string;
  selectedSnap : string;
  checked : list string;
  targetPath : string;
  restoreMode : RestoreMode
}.

(** What the handler does: a warning toast and nothing else, or the call of
    the backend method with its five arguments. *)
Inductive Effect :=
| Toast (title : string)
| CallRestoreSelected (repoID snapshotID : string) (includePaths : list string)
                      (targetPath : string) (toOriginal : bool).

Definition is_custom (m : RestoreMode) : bool :=
  match m with custom => true | original => false end.

Definition is_original (m : RestoreMode) : bool :=
  match m with original => true | custom => false end.

(** [startRestore]. *)
Definition startRestore (s : State) : Effect :=
  if Nat.eqb (List.length (checked s)) 0 then Toast "No entries selected"
  else if is_custom (restoreMode s) && String.eqb (targetPath s) EmptyString
  then Toast "Please select a target folder"
  else CallRestoreSelected (selectedRepo s) (selectedSnap s) (checked s)
                           (targetPath s) (is_original (restoreMode s)).

End SelectiveRestore.

(* ================================================================== *)
(** * An executable decoder: encoding/json on byte strings *)
(* ================================================================== *)

Module json.

Inductive Value :=
| Null
| Bool (b : bool)
| Number (literal : string)
| Str (s : string)
| Array (elems : list Value)
| Object (members : list (string * Value)).

Definition byte (c : ascii) : N := N_of_ascii c.

Definition is_space (c : ascii) : bool :=
  let n := byte c in ((n =? 32) || (n =? 9) || (n =? 10) || (n =? 13))%N.

Definition is_digit (c : ascii) : bool :=
  let n := byte c in ((48 <=? n) && (n <=? 57))%N.

Definition hex_val (c : ascii) : option N :=
  let n := byte c in
  if ((48 <=? n) && (n <=? 57))%N then Some (n - 48)%N
  else if ((97 <=? n) && (n <=? 102))%N then Some (n - 87)%N
  else if ((65 <=? n) && (n <=? 70))%N then Some (n - 55)%N
  else None.

Fixpoint skip_ws (s : string) : string :=
  match s with
  | String c t => if is_space c then skip_ws t else s
  | EmptyString => s
  end.

(** The longest prefix of digits, and what follows it. *)
Fixpoint digits (s : string) : string * string :=
  match s with
  | String c t =>
      if is_digit c then let '(d, r) := digits t in (String c d, r)
      else (EmptyString, s)
  | EmptyString => (EmptyString, s)
  end.

(** A number literal: an optional minus sign, then 0 or a digit string that
    does not start with 0, then an optional fraction (a dot and digits) and
    an optional exponent (e or E, an optional sign, digits). *)
Definition number (s : string) : option (string * string) :=
  let '(sign, s1) :=
    match s with
    | String "-" t => ("-", t)
    | _ => (EmptyString, s)
    end in
  let int_part :=
    match s1 with
    | String "0" t => Some ("0", t)
    | _ => match digits s1 with
           | (EmptyString, _) => None
           | (d, r) => Some (d, r)
           end
    end in
  match int_part with
  | None => None
  | Some (ip, s2) =>
    let frac :=
      match s2 with
      | String "." t =>
          match digits t with
          | (EmptyString, _) => None
          | (d, r) => Some (String "." d, r)
          end
      | _ => Some (EmptyString, s2)
      end in
    match frac with
    | None => None
    | Some (fp, s3) =>
      let expo :=
        match s3 with
        | String e t =>
            if (Ascii.eqb e "e" || Ascii.eqb e "E")%bool then
              let '(sg, t1) :=
                match t with
                | String "+" t' => ("+", t')
                | String "-" t' => ("-", t')
                | _ => (EmptyString, t)
                end in
              match digits t1 with
              | (EmptyString, _) => None
              | (d, r) => Some ((String e sg ++ d)%string, r)
              end
            else Some (EmptyString, s3)
        | EmptyString => Some (EmptyString, s3)
        end in
      match expo with
      | None => None
      | Some (ep, s4) => Some ((sign ++ ip ++ fp ++ ep)%string, s4)
      end
    end
  end.

(** UTF-8 encoding of a code point ([utf8.AppendRune]); surrogates and
    values above U+10FFFF become U+FFFD. *)
Definition chr (n : N) : ascii := ascii_of_N n.

Definition replacement : string :=
  String (chr 239) (String (chr 191) (String (chr 189) EmptyString)).

Definition encode_rune (r : N) : string :=
  if (r <? 128)%N then String (chr r) EmptyString
  else if (r <? 2048)%N then
    String (chr (192 + r / 64)) (String (chr (128 + r mod 64)) EmptyString)
  else if ((55296 <=? r) && (r <=? 57343))%N then replacement
  else if (r <? 65536)%N then
    String (chr (224 + r / 4096))
      (String (chr (128 + (r / 64) mod 64))
         (String (chr (128 + r mod 64)) EmptyString))
  else if (r <? 1114112)%N then
    String (chr (240 + r / 262144))
      (String (chr (128 + (r / 4096) mod 64))
         (String (chr (128 + (r / 64) mod 64))
            (String (chr (128 + r mod 64)) EmptyString)))
  else replacement.

Definition in_range (lo hi : N) (c : ascii) : bool :=
  ((lo <=? byte c) && (byte c <=? hi))%N.

(** The length of the well-formed UTF-8 sequence [s] starts with, by the
    table of [utf8.DecodeRune]; 0 when the first byte starts none. *)
Definition utf8_len (s : string) : nat :=
  match s with
  | String a (String b r) =>
      if in_range 194 223 a && in_range 128 191 b then 2
      else match r with
           | String c r' =>
               let second3 :=
                 if (byte a =? 224)%N then in_range 160 191 b
                 else if (byte a =? 237)%N then in_range 128 159 b
                 else in_range 225 239 a && in_range 128 191 b in
               if second3 && in_range 128 191 c then 3
               else match r' with
                    | String d _ =>
                        let second4 :=
                          if (byte a =? 240)%N then in_range 144 191 b
                          else if (byte a =? 244)%N then in_range 128 143 b
                          else in_range 241 243 a && in_range 128 191 b in
                        if second4 && in_range 128 191 c && in_range 128 191 d
                        then 4 else 0
                    | EmptyString => 0
                    end
           | EmptyString => 0
           end
  | _ => 0
  end.

Definition hex_quad (a b c d : ascii) : option N :=
  match hex_val a, hex_val b, hex_val c, hex_val d with
  | Some x, Some y, Some z, Some w => Some (x * 4096 + y * 256 + z * 16 + w)%N
  | _, _, _, _ => None
  end.

(** The rune of the escape that follows, when it is one ([getu4]). *)
Definition low_escape (b u l1 l2 l3 l4 : ascii) : option N :=
  if ((byte b =? 92) && (byte u =? 117))%N then hex_quad l1 l2 l3 l4 else None.

(** [utf16.DecodeRune] on a pair that is a surrogate pair. *)
Definition surrogate_pair (hi lo : N) : option N :=
  if ((55296 <=? hi) && (hi <? 56320) && (56320 <=? lo) && (lo <? 57344))%N
  then Some (65536 + (hi - 55296) * 1024 + (lo - 56320))%N
  else None.

Definition keep (pre : string) (rest : option (string * string))
  : option (string * string) :=
  match rest with
  | Some (d, r) => Some ((pre ++ d)%string, r)
  | None => None
  end.

(** The body of a string literal after its opening quote: the decoded text
    ([unquote]) and what follows the closing quote.  [skip] counts the
    continuation bytes of a well-formed UTF-8 sequence still to copy. *)
Fixpoint string_body (s : string) (skip : nat) : option (string * string) :=
  match s with
  | EmptyString => None
  | String c t =>
    match skip with
    | S k => keep (String c EmptyString) (string_body t k)
    | O =>
      if (byte c =? 34)%N then Some (EmptyString, t)
      else if (byte c <? 32)%N then None
      else if (byte c =? 92)%N then
        match t with
        | String e t' =>
            if (byte e =? 34)%N then keep (String (chr 34) EmptyString) (string_body t' 0)
            else if (byte e =? 92)%N then keep (String (chr 92) EmptyString) (string_body t' 0)
            else if (byte e =? 47)%N then keep (String (chr 47) EmptyString) (string_body t' 0)
            else if (byte e =? 98)%N then keep (String (chr 8) EmptyString) (string_body t' 0)
            else if (byte e =? 102)%N then keep (String (chr 12) EmptyString) (string_body t' 0)
            else if (byte e =? 110)%N then keep (String (chr 10) EmptyString) (string_body t' 0)
            else if (byte e =? 114)%N then keep (String (chr 13) EmptyString) (string_body t' 0)
            else if (byte e =? 116)%N then keep (String (chr 9) EmptyString) (string_body t' 0)
            else if (byte e =? 117)%N then
              match t' with
              | String h1 (String h2 (String h3 (String h4 r4))) =>
                  match hex_quad h1 h2 h3 h4 with
                  | None => None
                  | Some hi =>
                      match r4 with
                      | String b (String u (String l1 (String l2
                          (String l3 (String l4 r10))))) =>
                          match low_escape b u l1 l2 l3 l4 with
                          | Some lo =>
                              match surrogate_pair hi lo with
                              | Some r => keep (encode_rune r) (string_body r10 0)
                              | None => keep (encode_rune hi) (string_body r4 0)
                              end
                          | None => keep (encode_rune hi) (string_body r4 0)
                          end
                      | _ => keep (encode_rune hi) (string_body r4 0)
                      end
                  end
              | _ => None
              end
            else None
        | EmptyString => None
        end
      else if (byte c <? 128)%N then
        keep (String c EmptyString) (string_body t 0)
      else
        match utf8_len s with
        | S n => keep (String c EmptyString) (string_body t n)
        | O => keep replacement (string_body t 0)
        end
    end
  end.

Definition drop (n : nat) (s : string) : string :=
  String.substring n (String.length s - n) s.

(** Nesting beyond [maxNestingDepth] is a syntax error. *)
Definition maxNestingDepth : N := 10000.

(** One JSON value at the head of [s] and what follows it.  [fuel] bounds
    the number of nested calls, [depth] counts the containers open. *)
Fixpoint value (fuel : nat) (depth : N) (s : string) {struct fuel}
  : option (Value * string) :=
  match fuel with
  | O => None
  | S f =>
    match skip_ws s with
    | EmptyString => None
    | String c t =>
      if (byte c =? 123)%N then
        if (maxNestingDepth <? depth + 1)%N then None
        else match skip_ws t with
             | String c' r =>
                 if (byte c' =? 125)%N then Some (Object [], r)
                 else members f (depth + 1)%N t []
             | EmptyString => None
             end
      else if (byte c =? 91)%N then
        if (maxNestingDepth <? depth + 1)%N then None
        else match skip_ws t with
             | String c' r =>
                 if (byte c' =? 93)%N then Some (Array [], r)
                 else elements f (depth + 1)%N t []
             | EmptyString => None
             end
      else if (byte c =? 34)%N then
        match string_body t 0 with
        | Some (d, r) => Some (Str d, r)
        | None => None
        end
      else if String.prefix "true" (String c t) then Some (Bool true, drop 3 t)
      else if String.prefix "false" (String c t) then Some (Bool false, drop 4 t)
      else if String.prefix "null" (String c t) then Some (Null, drop 3 t)
      else match number (String c t) with
           | Some (lit, r) => Some (Number lit, r)
           | None => None
           end
    end
  end
with elements (fuel : nat) (depth : N) (s : string) (acc : list Value)
  {struct fuel} : option (Value * string) :=
  match fuel with
  | O => None
  | S f =>
    match value f depth s with
    | None => None
    | Some (v, r) =>
      match skip_ws r with
      | String c r' =>
          if (byte c =? 44)%N then elements f depth r' (acc ++ [v])
          else if (byte c =? 93)%N then Some (Array (acc ++ [v]), r')
          else None
      | EmptyString => None
      end
    end
  end
with members (fuel : nat) (depth : N) (s : string) (acc : list (string * Value))
  {struct fuel} : option (Value * string) :=
  match fuel with
  | O => None
  | S f =>
    match skip_ws s with
    | String q t =>
      if (byte q =? 34)%N then
        match string_body t 0 with
        | None => None
        | Some (k, r) =>
          match skip_ws r with
          | String c r' =>
            if (byte c =? 58)%N then
              match value f depth r' with
              | None => None
              | Some (v, r2) =>
                match skip_ws r2 with
                | String c2 r3 =>
                    if (byte c2 =? 44)%N then members f depth r3 (acc ++ [(k, v)])
                    else if (byte c2 =? 125)%N then Some (Object (acc ++ [(k, v)]), r3)
                    else None
                | EmptyString => None
                end
              end
            else None
          | EmptyString => None
          end
        end
      else None
    | EmptyString => None
    end
  end.

(** The whole text is one value between optional white space. *)
Definition parse (s : string) : option Value :=
  match value (2 * String.length s + 2) 0 s with
  | Some (v, r) => if String.eqb (skip_ws r) EmptyString then Some v else None
  | None => None
  end.

(** [json.Valid]. *)
Definition Valid (s : string) : bool :=
  match parse s with Some _ => true | None => false end.

(** ** Decoding an object into a struct *)

Definition upper (c : ascii) : ascii :=
  if in_range 97 122 c then chr (byte c - 32) else c.

Definition lower (c : ascii) : ascii :=
  if in_range 65 90 c then chr (byte c + 32) else c.

Fixpoint map_bytes (f : ascii -> ascii) (s : string) : string :=
  match s with
  | EmptyString => EmptyString
  | String c t => String (f c) (map_bytes f t)
  end.

(** [foldName]: ASCII letters in upper case, and the two letters outside
    ASCII whose case orbit reaches ASCII (U+017F and U+212A) as S and K. *)
Fixpoint foldName (s : string) : string :=
  match s with
  | EmptyString => EmptyString
  | String a t =>
      match t with
      | String b t2 =>
          if ((byte a =? 197) && (byte b =? 191))%N then String "S" (foldName t2)
          else match t2 with
               | String c t3 =>
                   if ((byte a =? 226) && (byte b =? 132) && (byte c =? 170))%N
                   then String "K" (foldName t3)
                   else String (upper a) (foldName t)
               | EmptyString => String (upper a) (foldName t)
               end
      | EmptyString => String (upper a) EmptyString
      end
  end.

(** A field decoder: from the field's current value and the JSON value of a
    member, the field's new value, or [None] for a type error. *)
Definition Dec (A : Type) : Type := A -> Value -> option A.

Definition dec_string : Dec string := fun cur v =>
  match v with
  | Str s => Some s
  | Null => Some cur
  | _ => None
  end.

Fixpoint all_digits (s : string) : bool :=
  match s with
  | EmptyString => true
  | String c t => is_digit c && all_digits t
  end.

Fixpoint digits_value (s : string) (acc : Z) : Z :=
  match s with
  | EmptyString => acc
  | String c t => digits_value t (10 * acc + Z.of_N (byte c - 48))
  end.

(** [strconv.ParseUint(lit, 10, 64)]. *)
Definition parse_uint (lit : string) : option Z :=
  match lit with
  | EmptyString => None
  | _ => if all_digits lit
         then let n := digits_value lit 0 in
              if (n <? 2 ^ 64)%Z then Some n else None
         else None
  end.

(** [strconv.ParseInt(lit, 10, 64)]. *)
Definition parse_int (lit : string) : option Z :=
  let '(neg, d) :=
    match lit with
    | String "-" t => (true, t)
    | _ => (false, lit)
    end in
  match d with
  | EmptyString => None
  | _ => if all_digits d
         then let n := if neg then (- digits_value d 0)%Z else digits_value d 0 in
              if ((- 2 ^ 63 <=? n) && (n <? 2 ^ 63))%Z then Some n else None
         else None
  end.

Definition dec_uint64 : Dec Z := fun cur v =>
  match v with
  | Number lit => parse_uint lit
  | Null => Some cur
  | _ => None
  end.

Definition dec_int : Dec Z := fun cur v =>
  match v with
  | Number lit => parse_int lit
  | Null => Some cur
  | _ => None
  end.

(** The digits of a number literal as an integer and the power of ten that
    scales it. *)
Definition float_parts (lit : string) : Z * Z :=
  let s1 := match lit with String "-" t => t | _ => lit end in
  let '(ip, s2) := digits s1 in
  let '(fp, s3) :=
    match s2 with
    | String "." t => digits t
    | _ => (EmptyString, s2)
    end in
  let e :=
    match s3 with
    | String _ (String "-" t) => (- digits_value (fst (digits t)) 0)%Z
    | String _ (String "+" t) => digits_value (fst (digits t)) 0
    | String _ t => digits_value (fst (digits t)) 0
    | EmptyString => 0%Z
    end in
  (digits_value (ip ++ fp)%string 0, (e - Z.of_nat (String.length fp))%Z).

(** [strconv.ParseFloat(lit, 64)] reports a range error when the value
    rounds beyond the largest float64. *)
Definition float_overflows (lit : string) : bool :=
  let '(m, e) := float_parts lit in
  let limit := (2 ^ 1024 - 2 ^ 970)%Z in
  if (0 <=? e)%Z then (limit <=? m * 10 ^ e)%Z
  else (limit * 10 ^ (- e) <=? m)%Z.

Definition dec_float64 : Dec string := fun cur v =>
  match v with
  | Number lit => if float_overflows lit then None else Some lit
  | Null => Some cur
  | _ => None
  end.

Fixpoint dec_elems (vs : list Value) : option (list string) :=
  match vs with
  | [] => Some []
  | v :: rest =>
      match dec_string EmptyString v, dec_elems rest with
      | Some s, Some l => Some (s :: l)
      | _, _ => None
      end
  end.

Definition dec_strings : Dec (list string) := fun cur v =>
  match v with
  | Array vs => dec_elems vs
  | Null => Some []
  | _ => None
  end.

(** The value of the field tagged [name] after all members are decoded in
    order, from the zero value.  (For a key that occurs twice the later
    member is decoded over the earlier one.) *)
Definition field {A} (dec : Dec A) (name : string) (zero : A)
    (ms : list (string * Value)) : option A :=
  fold_left
    (fun acc m =>
       match acc with
       | None => None
       | Some cur =>
           if String.eqb (foldName (fst m)) (map_bytes upper name)
           then dec cur (snd m) else Some cur
       end)
    ms (Some zero).

Notation "'let?' x := e 'in' k" :=
  (match e with Some x => k | None => None end)
  (at level 10, x name, e at level 100, k at level 200).

Definition zeroRestoreProgress : RestoreProgress.t :=
  RestoreProgress.mk EmptyString "0" "0" "0" 0%Z 0%Z 0%Z 0%Z 0%Z 0%Z.

Definition decodeRestoreProgress (ms : list (string * Value))
  : option RestoreProgress.t :=
  let? f1 := field dec_string "message_type" EmptyString ms in
  let? f2 := field dec_float64 "seconds_elapsed" "0" ms in
  let? f3 := field dec_float64 "seconds_remaining" "0" ms in
  let? f4 := field dec_float64 "percent_done" "0" ms in
  let? f5 := field dec_uint64 "total_files" 0%Z ms in
  let? f6 := field dec_uint64 "files_restored" 0%Z ms in
  let? f7 := field dec_uint64 "files_skipped" 0%Z ms in
  let? f8 := field dec_uint64 "total_bytes" 0%Z ms in
  let? f9 := field dec_uint64 "bytes_restored" 0%Z ms in
  let? f10 := field dec_uint64 "bytes_skipped" 0%Z ms in
  Some (RestoreProgress.mk f1 f2 f3 f4 f5 f6 f7 f8 f9 f10).

Definition zeroBackupProgress : BackupProgress.t :=
  BackupProgress.mk EmptyString "0" "0" "0" 0%Z 0%Z 0%Z 0%Z 0%Z [] 0%Z 0%Z 0%Z
                    0%Z 0%Z 0%Z 0%Z 0%Z 0%Z 0%Z 0%Z "0" EmptyString.

Definition decodeBackupProgress (ms : list (string * Value))
  : option BackupProgress.t :=
  let? f1 := field dec_string "message_type" EmptyString ms in
  let? f2 := field dec_float64 "seconds_elapsed" "0" ms in
  let? f3 := field dec_float64 "seconds_remaining" "0" ms in
  let? f4 := field dec_float64 "percent_done" "0" ms in
  let? f5 := field dec_uint64 "total_files" 0%Z ms in
  let? f6 := field dec_uint64 "files_done" 0%Z ms in
  let? f7 := field dec_uint64 "total_bytes" 0%Z ms in
  let? f8 := field dec_uint64 "bytes_done" 0%Z ms in
  let? f9 := field dec_int "error_count" 0%Z ms in
  let? f10 := field dec_strings "current_files" [] ms in
  let? f11 := field dec_uint64 "files_new" 0%Z ms in
  let? f12 := field dec_uint64 "files_changed" 0%Z ms in
  let? f13 := field dec_uint64 "files_unmodified" 0%Z ms in
  let? f14 := field dec_uint64 "dirs_new" 0%Z ms in
  let? f15 := field dec_uint64 "dirs_changed" 0%Z ms in
  let? f16 := field dec_uint64 "dirs_unmodified" 0%Z ms in
  let? f17 := field dec_int "data_blobs" 0%Z ms in
  let? f18 := field dec_int "tree_blobs" 0%Z ms in
  let? f19 := field dec_uint64 "data_added" 0%Z ms in
  let? f20 := field dec_uint64 "total_files_processed" 0%Z ms in
  let? f21 := field dec_uint64 "total_bytes_processed" 0%Z ms in
  let? f22 := field dec_float64 "total_duration" "0" ms in
  let? f23 := field dec_string "snapshot_id" EmptyString ms in
  Some (BackupProgress.mk f1 f2 f3 f4 f5 f6 f7 f8 f9 f10 f11 f12 f13 f14 f15
                          f16 f17 f18 f19 f20 f21 f22 f23).

Definition zeroFileNode : FileNode.t :=
  FileNode.mk EmptyString EmptyString EmptyString EmptyString 0%Z EmptyString.

Definition decodeFileNode (ms : list (string * Value)) : option FileNode.t :=
  let? f1 := field dec_string "struct_type" EmptyString ms in
  let? f2 := field dec_string "name" EmptyString ms in
  let? f3 := field dec_string "type" EmptyString ms in
  let? f4 := field dec_string "path" EmptyString ms in
  let? f5 := field dec_uint64 "size" 0%Z ms in
  let? f6 := field dec_string "mtime" EmptyString ms in
  Some (FileNode.mk f1 f2 f3 f4 f5 f6).

(** [json.Unmarshal(data, &v)] for a zero struct [v]: [Some] of the struct
    when the error is nil.  An object fills the fields, [null] leaves the
    struct as it is, every other value is a type error. *)
Definition Unmarshal {A} (zero : A) (decode : list (string * Value) -> option A)
    (data : string) : option A :=
  match parse data with
  | Some (Object ms) => decode ms
  | Some Null => Some zero
  | _ => None
  end.

End json.

(* ================================================================== *)
(** * An executable host *)
(* ================================================================== *)

(** [Sim] runs the model on concrete inputs.  Its text functions agree with
    the Go library on ASCII text, its path functions on clean paths with
    backslash separators, and its file system is a table from paths to
    nodes with the rules the restore strategy meets on its target platform:
    a rename fails when its source is missing, when the destination is an
    existing directory, or when the source is listed as locked. *)
Module Sim.

Definition is_space (c : ascii) : bool :=
  let n := json.byte c in
  ((n =? 32) || (n =? 9) || (n =? 10) || (n =? 11) || (n =? 12) || (n =? 13))%N.

Fixpoint trim_left (s : string) : string :=
  match s with
  | String c t => if is_space c then trim_left t else s
  | EmptyString => s
  end.

Fixpoint trim_right (s : string) : string :=
  match s with
  | EmptyString => EmptyString
  | String c t =>
      match trim_right t with
      | EmptyString => if is_space c then EmptyString else String c EmptyString
      | t' => String c t'
      end
  end.

Definition trim_space (s : string) : string := trim_right (trim_left s).

Definition backslash : ascii := "\"%char.

Fixpoint ends_with_sep (s : string) : bool :=
  match s with
  | EmptyString => false
  | String c EmptyString => Ascii.eqb c backslash
  | String _ t => ends_with_sep t
  end.

Definition with_sep (p : string) : string :=
  if ends_with_sep p then p else (p ++ "\")%string.

Definition join_path (a b : string) : string :=
  if String.eqb b EmptyString then a
  else if String.eqb a EmptyString then b
  else (with_sep a ++ b)%string.

(** [s] up to its last separator, the separator left out; [None] when [s]
    has no separator. *)
Fixpoint before_last_sep (s : string) : option string :=
  match s with
  | EmptyString => None
  | String c t =>
      match before_last_sep t with
      | Some d => Some (String c d)
      | None => if Ascii.eqb c backslash then Some EmptyString else None
      end
  end.

Fixpoint ends_with_colon (s : string) : bool :=
  match s with
  | EmptyString => false
  | String c EmptyString => Ascii.eqb c ":"
  | String _ t => ends_with_colon t
  end.

Definition dir_of (p : string) : string :=
  match before_last_sep p with
  | None => "."
  | Some d =>
      if String.eqb d EmptyString then "\"
      else if ends_with_colon d then (d ++ "\")%string
      else d
  end.

Definition base_of (p : string) : string :=
  json.drop (String.length (with_sep (dir_of p))) p.

Lemma Unmarshal_valid {A} (zero : A) decode line (p : A) :
  json.Unmarshal zero decode line = Some p -> json.Valid line = true.
Proof.
  unfold json.Unmarshal, json.Valid.
  destruct (json.parse line); [reflexivity | discriminate].
Qed.

#[export] Instance lib : GoLib := {|
  ToLower := json.map_bytes json.lower;
  ToUpper := json.map_bytes json.upper;
  TrimSpace := trim_space;
  Join := join_path;
  Dir := dir_of;
  Valid := json.Valid;
  UnmarshalBackupProgress :=
    json.Unmarshal json.zeroBackupProgress json.decodeBackupProgress;
  UnmarshalRestoreProgress :=
    json.Unmarshal json.zeroRestoreProgress json.decodeRestoreProgress;
  UnmarshalFileNode := json.Unmarshal json.zeroFileNode json.decodeFileNode;
  ToLower_empty := eq_refl;
  UnmarshalBackupProgress_valid := Unmarshal_valid _ _;
  UnmarshalRestoreProgress_valid := Unmarshal_valid _ _;
  UnmarshalFileNode_valid := Unmarshal_valid _ _
|}.

Inductive Node :=
| Directory
| File (data : string).

(** What the engine does when it is run: the lines it prints, how it ends
    (the cancellations that reach it alive, those that come later and its
    exit status), and the files a restore writes below its target. *)
Record Engine := {
  out_lines : list string;
  err_lines : list string;
  cancel_calls : nat;
  late_calls : nat;
  exit_code : Z;
  restored : list (string * string)
}.

Record World := {
  fs : list (string * Node);
  uuid : string;
  env : list string;
  engine : Engine;
  combined : string;
  locked : list string
}.

Definition lookup (p : string) (t : list (string * Node)) : option Node :=
  match find (fun e => String.eqb (fst e) p) t with
  | Some e => Some (snd e)
  | None => None
  end.

Definition set (p : string) (n : Node) (t : list (string * Node))
  : list (string * Node) :=
  match lookup p t with
  | Some _ => map (fun e => if String.eqb (fst e) p then (p, n) else e) t
  | None => t ++ [(p, n)]
  end.

Definition under (p k : string) : bool :=
  String.eqb k p || String.prefix (with_sep p) k.

Definition not_found (p : string) : error :=
  ErrHost ("The system cannot find the path specified: " ++ p) true.

Definition refused (what p : string) : error :=
  ErrHost (what ++ ": " ++ p) false.

(** [p] and its ancestors, the root first. *)
Fixpoint chain (fuel : nat) (p : string) : list string :=
  match fuel with
  | O => [p]
  | S f => if String.eqb (dir_of p) p then [p]
           else if String.eqb (dir_of p) "." then [p]
           else chain f (dir_of p) ++ [p]
  end.

Fixpoint mkdirs (ps : list string) (t : list (string * Node))
  : option error * list (string * Node) :=
  match ps with
  | [] => (None, t)
  | p :: rest =>
      match lookup p t with
      | Some (File _) => (Some (refused "not a directory" p), t)
      | Some Directory => mkdirs rest t
      | None => mkdirs rest (set p Directory t)
      end
  end.

Fixpoint insert_sorted (x : string) (l : list string) : list string :=
  match l with
  | [] => [x]
  | y :: r => if String.leb x y then x :: l else y :: insert_sorted x r
  end.

Definition sort (l : list string) : list string :=
  fold_right insert_sorted [] l.

Definition children (p : string) (t : list (string * Node)) : list string :=
  sort (map (fun e => base_of (fst e))
            (filter (fun e => negb (String.eqb (fst e) p)
                              && String.eqb (dir_of (fst e)) p) t)).

Definition with_fs (w : World) (t : list (string * Node)) : World :=
  {| fs := t; uuid := uuid w; env := env w; engine := engine w;
     combined := combined w; locked := locked w |}.

Definition mkdir_all (p : string) (perm : Z) (w : World) : option error * World :=
  let '(e, t) := mkdirs (chain (String.length p) p) (fs w) in
  (e, with_fs w t).

Definition read_dir (p : string) (w : World) : list string * option error * World :=
  match lookup p (fs w) with
  | None => ([], Some (not_found p), w)
  | Some (File _) => ([], Some (refused "not a directory" p), w)
  | Some Directory => (children p (fs w), None, w)
  end.

Definition rename_path (a b : string) (w : World) : option error * World :=
  match lookup a (fs w) with
  | None => (Some (not_found a), w)
  | Some _ =>
      if existsb (String.eqb a) (locked w)
      then (Some (refused "Access is denied" a), w)
      else match lookup b (fs w) with
           | Some Directory => (Some (refused "Access is denied" b), w)
           | _ =>
               (None,
                with_fs w
                  (map (fun e =>
                          if under a (fst e)
                          then ((b ++ json.drop (String.length a) (fst e))%string, snd e)
                          else e)
                       (filter (fun e => negb (String.eqb (fst e) b)) (fs w))))
           end
  end.

Definition remove_all (p : string) (w : World) : option error * World :=
  (None, with_fs w (filter (fun e => negb (under p (fst e))) (fs w))).

Definition stat_path (p : string) (w : World) : (FileInfo + error) * World :=
  match lookup p (fs w) with
  | None => (inr (not_found p), w)
  | Some Directory => (inl {| IsDir := true; Mode := 493 |}, w)
  | Some (File _) => (inl {| IsDir := false; Mode := 420 |}, w)
  end.

Definition open_file (p : string) (w : World) : option error * World :=
  match lookup p (fs w) with
  | None => (Some (not_found p), w)
  | Some _ => (None, w)
  end.

Definition create_file (p : string) (w : World) : option error * World :=
  match lookup p (fs w), lookup (dir_of p) (fs w) with
  | Some Directory, _ => (Some (refused "is a directory" p), w)
  | _, Some Directory => (None, with_fs w (set p (File EmptyString) (fs w)))
  | _, _ => (Some (not_found p), w)
  end.

Definition copy_file (dst src : string) (w : World) : option error * World :=
  match lookup src (fs w) with
  | Some (File d) => (None, with_fs w (set dst (File d) (fs w)))
  | _ => (Some (refused "read" src), w)
  end.

(** The argument that follows [--target]. *)
Fixpoint target_of (args : list string) : option string :=
  match args with
  | a :: rest =>
      if String.eqb a "--target"
      then match rest with t :: _ => Some t | [] => None end
      else target_of rest
  | [] => None
  end.

Fixpoint write_files (t : string) (files : list (string * string))
    (tbl : list (string * Node)) : list (string * Node) :=
  match files with
  | [] => tbl
  | (rel, data) :: rest =>
      let p := join_path t rel in
      let '(_, tbl1) := mkdirs (chain (String.length p) (dir_of p)) tbl in
      write_files t rest (set p (File data) tbl1)
  end.

Definition run_stream (cmd : Cmd) (w : World) : StreamRun * World :=
  let e := engine w in
  let w' :=
    match target_of (Args cmd) with
    | Some t => with_fs w (write_files t (restored e) (fs w))
    | None => w
    end in
  (Ran (out_lines e) (err_lines e) (cancel_calls e) (late_calls e)
     (exit_code e), w').

Definition run_combined (cmd : Cmd) (w : World) : string * ProcExit * World :=
  (combined w, Exited (exit_code (engine w)), w).

#[export] Instance host : Host World := {|
  Environ := env;
  CombinedOutput := run_combined;
  Stream := run_stream;
  NewUUID := fun w => (uuid w, w);
  MkdirAll := mkdir_all;
  ReadDir := read_dir;
  Rename := rename_path;
  RemoveAll := remove_all;
  Stat := stat_path;
  Open := open_file;
  Create := create_file;
  Copy := copy_file;
  Close := fun _ w => w
|}.

(** ** Scenarios *)

(** A line of JSON written with single quotes for its double quotes. *)
Definition quoted (s : string) : string := strings.ReplaceAll s "'"%char dquote.

Definition runner0 : restic.Runner := {| restic.resticPath := "C:\restic.exe" |}.

Definition repo0 : config.Repository :=
  {| config.ID := "r1"; config.Name := "backups";
     config.URI := "sftp:nas:/srv/restic"; config.Password := "hunter2";
     config.SourceFolders := []; config.Excludes := [] |}.

Definition app0 : App :=
  {| config_ := {| config.path := "config.json";
                   config.Config := {| config.Repositories := [repo0];
                                       config.LastUsedRepo := EmptyString |} |};
     runner := Some runner0 |}.

(** A restore that prints a status line, a diagnostic line and a summary,
    writes three files and exits with status zero. *)
Definition engine0 : Engine :=
  {| out_lines :=
       [ quoted "{'message_type':'status','percent_done':0.5,'total_files':3}";
         "unable to lock, retrying";
         quoted "{'message_type':'summary','total_files':3,'files_restored':3}" ];
     err_lines := [];
     cancel_calls := 0;
     late_calls := 0;
     exit_code := 0;
     restored := [ ("G\docs\report.pdf", "report");
                   ("G\docs\notes.txt", "notes");
                   ("G\todo.txt", "todo") ] |}.

(** Volume G holds a directory [docs] with an older report. *)
Definition world0 : World :=
  {| fs := [ ("G:\", Directory); ("G:\docs", Directory);
             ("G:\docs\report.pdf", File "older report") ];
     uuid := "ab12cd34-5678-4abc-9def-0123456789ab";
     env := ["PATH=C:\Windows"];
     engine := engine0;
     combined := EmptyString;
     locked := [] |}.

Definition with_engine (w : World) (e : Engine) : World :=
  {| fs := fs w; uuid := uuid w; env := env w; engine := e;
     combined := combined w; locked := locked w |}.

Definition with_combined (w : World) (out : string) : World :=
  {| fs := fs w; uuid := uuid w; env := env w; engine := engine w;
     combined := out; locked := locked w |}.

(** The engine as it ends in other ways. *)
Definition engine_ends (cancels : nat) (code : Z) (stderr : list string) : Engine :=
  {| out_lines := out_lines engine0; err_lines := stderr;
     cancel_calls := cancels; late_calls := 0; exit_code := code;
     restored := [] |}.

(** The engine ends by itself and a cancellation comes after that. *)
Definition engine_ends_before_cancel (code : Z) (stderr : list string)
  : Engine :=
  {| out_lines := out_lines engine0; err_lines := stderr;
     cancel_calls := 0; late_calls := 1; exit_code := code;
     restored := [] |}.

(** The output of a listing: the snapshot, an entry, a diagnostic line and
    another entry. *)
Definition listing_first : string :=
  quoted "{'time':'2024-05-01T10:00:00Z','paths':['G:\\docs'],'id':'4f3c','struct_type':'snapshot'}".

Definition listing_rest : string :=
  (quoted "{'name':'docs','type':'dir','path':'/G/docs','mtime':'2024-04-30T09:00:00Z','struct_type':'node'}"
   ++ String (ascii_of_nat 10)
   ("warning: slow backend"
   ++ String (ascii_of_nat 10)
   (quoted "{'name':'report.pdf','type':'file','path':'/G/docs/report.pdf','size':6,'mtime':'2024-04-30T09:00:00Z','struct_type':'node'}"
   ++ String (ascii_of_nat 10) EmptyString)))%string.

End Sim.

(* ================================================================== *)
(** * The rest of the backend *)
(* ================================================================== *)

(** ** Further record types and library functions *)

Module Snapshot.
Record t := mk {
  ID : string;
  ShortID : string;
  Time : string;
  Hostname : string;
  Username : string;
  Paths : list string;
  Tags : list string
}.
End Snapshot.

(** encoding/json at the two further types the program uses.  The program
    passes the bytes of the configuration file between the file system and
    the codec and never looks into them, so their type [Data] is left
    open.  [UnmarshalConfig data cur] is [json.Unmarshal(data, &cfg)] for a
    configuration that holds [cur]: what it holds afterwards, and the
    error.  [UnmarshalSnapshots] decodes into a nil slice and is [None] for
    an error. *)
Class Codec := {
  Data : Type;
  MarshalIndent : config.AppConfig -> Data + error;
  UnmarshalConfig : Data -> config.AppConfig -> config.AppConfig * option error;
  UnmarshalSnapshots : string -> option (list Snapshot.t)
}.

(** The functions of os and os/exec that the configuration manager and
    [NewRunner] call. *)
Class Platform (D W : Type) := {
  UserConfigDir : W -> string + error;
  TempDir : W -> string;
  ReadFile : string -> W -> (D + error) * W;
  WriteFile : string -> D -> Z -> W -> option error * W;
  Executable : W -> string + error;
  LookPath : string -> W -> string + error
}.

(** ** Package config: the methods of the manager (config.go) *)

Module ConfigManager.
Section Methods.
Context `{GoLib} `{Codec} {W : Type} `{Host W} `{Platform Data W}.

Definition withConfig (cm : config.ConfigManager) (c : config.AppConfig)
  : config.ConfigManager :=
  {| config.path := config.path cm; config.Config := c |}.

Definition withRepositories (cm : config.ConfigManager)
    (rs : list config.Repository) : config.ConfigManager :=
  withConfig cm
    {| config.Repositories := rs;
       config.LastUsedRepo := config.LastUsedRepo (config.Config cm) |}.

(** [AppConfig{Repositories: []Repository{}}]. *)
Definition emptyConfig : config.AppConfig :=
  {| config.Repositories := []; config.LastUsedRepo := EmptyString |}.

(** [Load]: the error, and the manager with what the decoder left in its
    configuration. *)
Definition Load (cm : config.ConfigManager) (w : W)
  : option error * config.ConfigManager * W :=
  match ReadFile (config.path cm) w with
  | (inr err, w1) => (Some err, cm, w1)
  | (inl data, w1) =>
      let '(cfg, err) := UnmarshalConfig data (config.Config cm) in
      (err, withConfig cm cfg, w1)
  end.

Definition Save (cm : config.ConfigManager) (w : W) : option error * W :=
  match MarshalIndent (config.Config cm) with
  | inr err => (Some err, w)
  | inl data => WriteFile (config.path cm) data 420 w
  end.

(** [NewConfigManager]; the error it returns is always nil and is left
    out. *)
Definition NewConfigManager (w : W) : config.ConfigManager * W :=
  let appData :=
    match UserConfigDir w with
    | inl d => d
    | inr _ => TempDir w
    end in
  let dir := Join appData "restic-gui" in
  let '(_, w1) := MkdirAll dir 493 w in
  let path := Join dir "config.json" in
  let cm := {| config.path := path;
               config.Config := {| config.Repositories := [];
                                   config.LastUsedRepo := EmptyString |} |} in
  match Load cm w1 with
  | (Some _, cm1, w2) =>
      let cm2 := withConfig cm1 emptyConfig in
      let '(_, w3) := Save cm2 w2 in (cm2, w3)
  | (None, cm1, w2) => (cm1, w2)
  end.

(** [GetRepositories]: a copy of the list. *)
Definition GetRepositories (cm : config.ConfigManager) : list config.Repository :=
  config.Repositories (config.Config cm).

Definition AddRepository (cm : config.ConfigManager) (repo : config.Repository)
    (w : W) : option error * config.ConfigManager * W :=
  let cm' := withRepositories cm
               (config.Repositories (config.Config cm) ++ [repo]) in
  let '(e, w') := Save cm' w in (e, cm', w').

(** The loop of [UpdateRepository]: the first repository with the ID of
    [repo] is replaced, and the loop breaks. *)
Fixpoint replaceFirst (repo : config.Repository) (rs : list config.Repository)
  : list config.Repository :=
  match rs with
  | [] => []
  | r :: rest =>
      if String.eqb (config.ID r) (config.ID repo) then repo :: rest
      else r :: replaceFirst repo rest
  end.

Definition UpdateRepository (cm : config.ConfigManager) (repo : config.Repository)
    (w : W) : option error * config.ConfigManager * W :=
  let cm' := withRepositories cm
               (replaceFirst repo (config.Repositories (config.Config cm))) in
  let '(e, w') := Save cm' w in (e, cm', w').

Definition DeleteRepository (cm : config.ConfigManager) (id : string) (w : W)
  : option error * config.ConfigManager * W :=
  let repos := filter (fun r => negb (String.eqb (config.ID r) id))
                      (config.Repositories (config.Config cm)) in
  let last := config.LastUsedRepo (config.Config cm) in
  let cm' := withConfig cm
               {| config.Repositories := repos;
                  config.LastUsedRepo :=
                    if String.eqb last id then EmptyString else last |} in
  let '(e, w') := Save cm' w in (e, cm', w').

(** [SetLastUsedRepo]; the error of [Save] is dropped. *)
Definition SetLastUsedRepo (cm : config.ConfigManager) (id : string) (w : W)
  : config.ConfigManager * W :=
  let cm' := withConfig cm
               {| config.Repositories := config.Repositories (config.Config cm);
                  config.LastUsedRepo := id |} in
  let '(_, w') := Save cm' w in (cm', w').

End Methods.
End ConfigManager.

(** ** Package restic: locating the engine (runner.go) *)

Definition msg_engine_missing : string :=
  ("restic.exe not found." ++ String newline (String newline
   ("Please do one of the following:" ++ String newline
   ("  • Place restic.exe in the same folder as ResticBackupManager.exe"
    ++ String newline
   ("  • Or install restic and ensure it is in your system PATH"
    ++ String newline (String newline
   "Download restic from: https://restic.net"))))))%string.

Section Locate.
Context `{GoLib} {D W : Type} `{Host W} `{Platform D W}.

(** [NewRunner] searches for restic.exe in the same directory as this
    executable, then in the system PATH. *)
Definition NewRunner (w : W) : (restic.Runner + error) * W :=
  let byPath (w0 : W) :=
    match LookPath "restic" w0 with
    | inl path => (inl {| restic.resticPath := path |}, w0)
    | inr _ => (inr (ErrMessage msg_engine_missing), w0)
    end in
  match Executable w with
  | inl exePath =>
      let exeDir := Dir exePath in
      let candidate := Join exeDir "restic.exe" in
      match Stat candidate w with
      | (inl _, w1) => (inl {| restic.resticPath := candidate |}, w1)
      | (inr _, w1) => byPath w1
      end
  | inr _ => byPath w
  end.

(** [ResticPath] returns the path to the restic executable being used. *)
Definition ResticPath (r : restic.Runner) : string := restic.resticPath r.

End Locate.

(** ** Package main: the remaining methods (app.go) *)

Definition msg_status_missing : string :=
  ("restic.exe not found." ++ String newline (String newline
   ("Please do one of the following:" ++ String newline
   ("  • Place restic.exe in the same folder as ResticBackupManager.exe"
    ++ String newline
   ("  • Or install restic so it is available in your system PATH"
    ++ String newline (String newline
   "Download: https://restic.net"))))))%string.

(** A line of the application log. *)
Inductive LogLine :=
| LogError (message : string)
| LogWarning (message : string).

Section AppMethods.
Context `{GoLib} `{Codec} {W : Type} `{Host W} `{Platform Data W}.

(** [startup]: the application with its configuration manager and its
    runner, and what is logged. *)
Definition startup (w : W) : App * list LogLine * W :=
  let '(cm, w1) := ConfigManager.NewConfigManager w in
  match NewRunner w1 with
  | (inl r, w2) => ({| config_ := cm; runner := Some r |}, [], w2)
  | (inr err, w2) =>
      ({| config_ := cm; runner := None |},
       [LogWarning ("restic not found: " ++ Error err)], w2)
  end.

Definition withManager (a : App) (cm : config.ConfigManager) : App :=
  {| config_ := cm; runner := runner a |}.

Definition GetRepositories (a : App) : list config.Repository :=
  ConfigManager.GetRepositories (config_ a).

(** [repo.ID = uuid.New().String()]. *)
Definition withID (repo : config.Repository) (id : string) : config.Repository :=
  {| config.ID := id; config.Name := config.Name repo;
     config.URI := config.URI repo; config.Password := config.Password repo;
     config.SourceFolders := config.SourceFolders repo;
     config.Excludes := config.Excludes repo |}.

Definition AddRepository (a : App) (repo : config.Repository) (w : W)
  : option error * App * W :=
  let '(u, w1) := NewUUID w in
  let '(e, cm, w2) := ConfigManager.AddRepository (config_ a) (withID repo u) w1 in
  (e, withManager a cm, w2).

Definition UpdateRepository (a : App) (repo : config.Repository) (w : W)
  : option error * App * W :=
  let '(e, cm, w1) := ConfigManager.UpdateRepository (config_ a) repo w in
  (e, withManager a cm, w1).

Definition DeleteRepository (a : App) (id : string) (w : W)
  : option error * App * W :=
  let '(e, cm, w1) := ConfigManager.DeleteRepository (config_ a) id w in
  (e, withManager a cm, w1).

Definition SetLastUsedRepo (a : App) (id : string) (w : W) : App * W :=
  let '(cm, w1) := ConfigManager.SetLastUsedRepo (config_ a) id w in
  (withManager a cm, w1).

Definition TestRepository (a : App) (id : string)
  : M W (string * option error) :=
  match runner a with
  | None => ret (EmptyString, Some (ErrMessage "restic not found"))
  | Some r =>
    match config.GetRepository (config_ a) id with
    | None => ret (EmptyString, Some (ErrMessage "repository not found"))
    | Some repo =>
      (res <- restic.Run r (config.URI repo) (config.Password repo)
                ["cat"; "config"] ;;
       match snd res with
       | Some err => ret (EmptyString, Some err)
       | None => ret ("Connection successful!", None)
       end)%go
    end
  end.

Definition InitRepository (a : App) (repo : config.Repository)
  : M W (option error) :=
  match runner a with
  | None => ret (Some (ErrMessage "restic not found"))
  | Some r =>
      (res <- restic.Run r (config.URI repo) (config.Password repo) ["init"] ;;
       ret (snd res))%go
  end.

(** [CancelBackup] and [CancelRestore], on the guarded part of the
    runner. *)
Definition CancelBackup (a : App) (h : restic.Handle) : restic.Handle :=
  match runner a with
  | Some _ => restic.Cancel h
  | None => h
  end.

Definition CancelRestore (a : App) (h : restic.Handle) : restic.Handle :=
  match runner a with
  | Some _ => restic.Cancel h
  | None => h
  end.

Definition GetSnapshots (a : App) (repoID : string)
  : M W (list Snapshot.t * option error) :=
  match runner a with
  | None => ret ([], Some (ErrMessage "restic not found"))
  | Some r =>
    match config.GetRepository (config_ a) repoID with
    | None => ret ([], Some (ErrMessage "repository not found"))
    | Some repo =>
      (res <- restic.Run r (config.URI repo) (config.Password repo)
                ["snapshots"; "--json"] ;;
       let '(out, err) := res in
       match err with
       | Some e => ret ([], Some e)
       | None =>
           match UnmarshalSnapshots out with
           | None => ret ([], Some (ErrMessage "failed to parse snapshot data"))
           | Some snapshots => ret (snapshots, None)
           end
       end)%go
    end
  end.

Definition DeleteSnapshot (a : App) (repoID snapshotID : string)
  : M W (option error) :=
  match runner a with
  | None => ret (Some (ErrMessage "restic not found"))
  | Some r =>
    match config.GetRepository (config_ a) repoID with
    | None => ret (Some (ErrMessage "repository not found"))
    | Some repo =>
      (res <- restic.Run r (config.URI repo) (config.Password repo)
                ["forget"; snapshotID; "--prune"] ;;
       ret (snd res))%go
    end
  end.

(** [GetResticStatus]: the map it returns, as the list of its entries. *)
Definition GetResticStatus (a : App) : list (string * string) :=
  match runner a with
  | None => [("found", "false"); ("message", msg_status_missing)]
  | Some r => [("found", "true"); ("path", ResticPath r)]
  end.

Definition GetResticVersion (a : App) : M W string :=
  match runner a with
  | None => ret "restic not found"
  | Some r =>
      (res <- restic.Run r EmptyString EmptyString ["version"] ;;
       match snd res with
       | Some _ => ret "?"
       | None => ret (fst res)
       end)%go
  end.

End AppMethods.

(* ================================================================== *)
(** * Vocabulary of the further properties *)
(* ================================================================== *)

(** Every line followed by a newline, the text [splitLines] is made for. *)
Fixpoint unlines (ls : list string) : string :=
  match ls with
  | [] => EmptyString
  | l :: rest => (l ++ String newline (unlines rest))%string
  end.

Fixpoint ends_with_newline (s : string) : bool :=
  match s with
  | EmptyString => false
  | String c EmptyString => Ascii.eqb c newline
  | String _ t => ends_with_newline t
  end.

(** [s] with a final newline supplied when it is not empty and lacks one. *)
Definition terminated (s : string) : string :=
  if String.eqb s EmptyString then EmptyString
  else if ends_with_newline s then s
  else (s ++ String newline EmptyString)%string.

(** The two bytes [extractDriveLetter] treats as separators. *)
Definition is_separator (c : ascii) : bool :=
  Ascii.eqb c "/" || Ascii.eqb c "\".

(** The seven messages [friendlyError] can substitute. *)
Definition fixedMessages : list string :=
  map snd restic.translations ++ [restic.msg_unknown].


(** The events of a trace, in order. *)
Definition events (t : list Action) : list Action :=
  filter (fun a => match a with EventsEmit _ _ => true | Sys _ => false end) t.

(** The event that ends an operation: its completion, which carries
    nothing, or its error, which carries a message. *)
Definition terminal (op : string) (a : Action) : Prop :=
  a = EventsEmit (op ++ ":complete") PNil
  \/ exists msg, a = EventsEmit (op ++ ":error") (PString msg).

(** The events of a goroutine that reports properly: progress records of
    some lines, none of them terminal, then one terminal event and nothing
    after it. *)
Definition Reported (op : string) (record : string -> list Action)
    (t : list Action) : Prop :=
  exists lines last,
    events t = flat_map record lines ++ [last]
    /\ terminal op last
    /\ Forall (fun a => ~ terminal op a) (flat_map record lines).


(** The arguments of a backup. *)
Definition backupArgs (job : BackupJob.t) : list string :=
  ["backup"; "--json"]
    ++ flat_map (fun ex => ["--exclude"; ex]) (BackupJob.Excludes job)
    ++ flat_map (fun tag => ["--tag"; tag]) (BackupJob.Tags job)
    ++ BackupJob.SourcePaths job.


Section Confinement.
Context `{GoLib}.

(** [p] is [root] or is reached from it by joining entry names. *)
Inductive Below (root : string) : string -> Prop :=
| Below_root : Below root root
| Below_join (p name : string) : Below root p -> Below root (Join p name).

(** A step [copyPath src dst] may take: reading at or below [src], writing
    at or below [dst]. *)
Definition copies (src dst : string) (a : Action) : Prop :=
  match a with
  | Sys (CStat p) | Sys (CReadDir p) | Sys (COpen p) => Below src p
  | Sys (CMkdirAll p _) | Sys (CCreate p) => Below dst p
  | Sys (CCopy d s) => Below dst d /\ Below src s
  | Sys (CClose p) => Below src p \/ Below dst p
  | _ => False
  end.

End Confinement.

(* ================================================================== *)
(** * The tree of the selective-restore page
      (frontend/src/pages/SelectiveRestore.tsx) *)
(* ================================================================== *)

(** A string of the page is the sequence of its units; the helpers compare
    units with the slash and the backslash and with each other, and do
    nothing else with them.  A [Set] of strings is the list of its elements
    in insertion order, as the existing [checked] is. *)
Module RestoreTree.

Definition has (s : list string) (x : string) : bool :=
  existsb (String.eqb x) s.

Definition add (s : list string) (x : string) : list string :=
  if has s x then s else s ++ [x].

Definition delete (s : list string) (x : string) : list string :=
  filter (fun y => negb (String.eqb y x)) s.

Definition norm (p : string) : string :=
  let s := strings.ReplaceAll p "\"%char "/" in
  if strings.HasPrefix s "/" then s else ("/" ++ s)%string.

(** [s.lastIndexOf(c)], [None] for -1. *)
Fixpoint lastIndexOf (s : string) (c : ascii) : option nat :=
  match s with
  | EmptyString => None
  | String x t =>
      match lastIndexOf t c with
      | Some i => Some (S i)
      | None => if Ascii.eqb x c then Some 0 else None
      end
  end.

Definition parentOf (p : string) : string :=
  let n := norm p in
  match lastIndexOf n "/" with
  | Some (S i) => String.substring 0 (S i) n
  | _ => EmptyString
  end.

(** [s.split(sep)]. *)
Fixpoint split (s : string) (sep : ascii) : list string :=
  match s with
  | EmptyString => [EmptyString]
  | String c t =>
      if Ascii.eqb c sep then EmptyString :: split t sep
      else match split t sep with
           | h :: r => String c h :: r
           | [] => [String c EmptyString]
           end
  end.

Definition depthOf (p : string) : nat :=
  List.length
    (filter (fun s => negb (String.eqb s EmptyString)) (split (norm p) "/")).

(** The loop of [isVisible]; [fuel] bounds the number of its rounds. *)
Fixpoint ancestorsExpanded (fuel : nat) (p : string) (expanded : list string)
  : option bool :=
  match fuel with
  | O => None
  | S fuel' =>
      if String.eqb p EmptyString then Some true
      else if negb (has expanded p) then Some false
      else ancestorsExpanded fuel' (parentOf p) expanded
  end.

Definition isVisible (fuel : nat) (nodePath : string) (expanded : list string)
  : option bool :=
  if Nat.eqb (depthOf nodePath) 1 then Some true
  else ancestorsExpanded fuel (parentOf (norm nodePath)) expanded.

Definition toggleExpand (expanded : list string) (node : FileNode.t)
  : list string :=
  let key := norm (FileNode.Path node) in
  if has expanded key then delete expanded key else add expanded key.

(** [norm(n.path).startsWith(prefix + '/')] for the prefix of [node]. *)
Definition below (node n : FileNode.t) : bool :=
  strings.HasPrefix (norm (FileNode.Path n))
                    (norm (FileNode.Path node) ++ "/").

Definition is_dir (node : FileNode.t) : bool :=
  String.eqb (FileNode.Type_ node) "dir".

Definition toggleCheck (nodes : list FileNode.t) (checked : list string)
    (node : FileNode.t) : list string :=
  if has checked (FileNode.Path node) then
    let next := delete checked (FileNode.Path node) in
    if is_dir node
    then fold_left (fun next n =>
                      if below node n then delete next (FileNode.Path n)
                      else next)
                   nodes next
    else next
  else
    let next := add checked (FileNode.Path node) in
    if is_dir node
    then fold_left (fun next n =>
                      if below node n then add next (FileNode.Path n)
                      else next)
                   nodes next
    else next.

Inductive CheckState := checked_ | unchecked | indeterminate.

Definition getCheckState (nodes : list FileNode.t) (checked : list string)
    (node : FileNode.t) : CheckState :=
  if negb (is_dir node)
  then if has checked (FileNode.Path node) then checked_ else unchecked
  else
    let children := filter (below node) nodes in
    if Nat.eqb (List.length children) 0
    then if has checked (FileNode.Path node) then checked_ else unchecked
    else
      let cnt := List.length
                   (filter (fun c => has checked (FileNode.Path c)) children) in
      if Nat.eqb cnt 0 && negb (has checked (FileNode.Path node)) then unchecked
      else if Nat.eqb cnt (List.length children) then checked_
      else indeterminate.

End RestoreTree.

(* ================================================================== *)
(** * An executable host for the configuration and the engine search *)
(* ================================================================== *)

(** [Desk] extends [Sim] by what the configuration manager and [NewRunner]
    need: a table of files that hold configurations, the configuration
    directory of the user, the path of the running executable and the
    search path.  The content of a file is the configuration it encodes,
    or nothing when its text is not a configuration. *)
Module Desk.

Definition FileData : Type := option config.AppConfig.

Definition zeroSnapshot : Snapshot.t :=
  Snapshot.mk EmptyString EmptyString EmptyString EmptyString EmptyString [] [].

Definition decodeSnapshot (ms : list (string * json.Value)) : option Snapshot.t :=
  match json.field json.dec_string "id" EmptyString ms,
        json.field json.dec_string "short_id" EmptyString ms,
        json.field json.dec_string "time" EmptyString ms,
        json.field json.dec_string "hostname" EmptyString ms,
        json.field json.dec_string "username" EmptyString ms,
        json.field json.dec_strings "paths" [] ms,
        json.field json.dec_strings "tags" [] ms with
  | Some f1, Some f2, Some f3, Some f4, Some f5, Some f6, Some f7 =>
      Some (Snapshot.mk f1 f2 f3 f4 f5 f6 f7)
  | _, _, _, _, _, _, _ => None
  end.

(** The elements of an array of snapshots: an object fills a zero
    snapshot, [null] leaves it zero, any other value is a type error. *)
Fixpoint decodeSnapshots (vs : list json.Value) : option (list Snapshot.t) :=
  match vs with
  | [] => Some []
  | v :: rest =>
      match match v with
            | json.Object ms => decodeSnapshot ms
            | json.Null => Some zeroSnapshot
            | _ => None
            end,
            decodeSnapshots rest with
      | Some s, Some l => Some (s :: l)
      | _, _ => None
      end
  end.

#[export] Instance codec : Codec := {|
  Data := FileData;
  MarshalIndent := fun c => inl (Some c);
  UnmarshalConfig := fun data cur =>
    match data with
    | Some c => (c, None)
    | None => (cur, Some (ErrMessage "invalid character"))
    end;
  UnmarshalSnapshots := fun data =>
    match json.parse data with
    | Some (json.Array vs) => decodeSnapshots vs
    | Some json.Null => Some []
    | _ => None
    end
|}.

Record World := {
  base : Sim.World;
  files : list (string * FileData);
  config_dir : option string;
  temp_dir : string;
  self : option string;
  search_path : list (string * string)
}.

Definition with_base (w : World) (b : Sim.World) : World :=
  {| base := b; files := files w; config_dir := config_dir w;
     temp_dir := temp_dir w; self := self w; search_path := search_path w |}.

Definition with_files (w : World) (t : list (string * FileData)) : World :=
  {| base := base w; files := t; config_dir := config_dir w;
     temp_dir := temp_dir w; self := self w; search_path := search_path w |}.

(** An operation of [Sim] on the part of the world it knows. *)
Definition lift {A} (f : Sim.World -> A * Sim.World) (w : World) : A * World :=
  let '(a, b) := f (base w) in (a, with_base w b).

#[export] Instance host : Host World := {|
  Environ := fun w => Sim.env (base w);
  CombinedOutput := fun cmd => lift (Sim.run_combined cmd);
  Stream := fun cmd => lift (Sim.run_stream cmd);
  NewUUID := lift (fun b => (Sim.uuid b, b));
  MkdirAll := fun p perm => lift (Sim.mkdir_all p perm);
  ReadDir := fun p => lift (Sim.read_dir p);
  Rename := fun a b => lift (Sim.rename_path a b);
  RemoveAll := fun p => lift (Sim.remove_all p);
  Stat := fun p => lift (Sim.stat_path p);
  Open := fun p => lift (Sim.open_file p);
  Create := fun p => lift (Sim.create_file p);
  Copy := fun dst src => lift (Sim.copy_file dst src);
  Close := fun _ w => w
|}.

Definition read_file (p : string) (w : World) : (FileData + error) * World :=
  match find (fun e => String.eqb (fst e) p) (files w) with
  | Some e => (inl (snd e), w)
  | None => (inr (Sim.not_found p), w)
  end.

(** Writing needs the directory of the file to exist. *)
Definition write_file (p : string) (d : FileData) (perm : Z) (w : World)
  : option error * World :=
  match Sim.lookup (Sim.dir_of p) (Sim.fs (base w)) with
  | Some Sim.Directory =>
      (None,
       with_files w
         ((p, d) :: filter (fun e => negb (String.eqb (fst e) p)) (files w)))
  | _ => (Some (Sim.not_found p), w)
  end.

Definition look_path (name : string) (w : World) : string + error :=
  match find (fun e => String.eqb (fst e) name) (search_path w) with
  | Some e => inl (snd e)
  | None => inr (ErrMessage ("executable file not found in %PATH%: " ++ name))
  end.

#[export] Instance platform : Platform FileData World := {|
  UserConfigDir := fun w =>
    match config_dir w with
    | Some d => inl d
    | None => inr (ErrMessage "%AppData% is not defined")
    end;
  TempDir := temp_dir;
  ReadFile := read_file;
  WriteFile := write_file;
  Executable := fun w =>
    match self w with
    | Some p => inl p
    | None => inr (ErrMessage "cannot find the executable")
    end;
  LookPath := look_path
|}.

(** ** Scenarios *)

(** The application is installed beside no engine, and none is on the
    search path; the user's configuration directory exists and is empty. *)
Definition desk0 : World :=
  {| base := {| Sim.fs := [ ("C:\", Sim.Directory);
                            ("C:\Users", Sim.Directory);
                            ("C:\Users\ada", Sim.Directory);
                            ("C:\Apps", Sim.Directory);
                            ("C:\Apps\ResticBackupManager.exe", Sim.File "MZ") ];
                Sim.uuid := "ab12cd34-5678-4abc-9def-0123456789ab";
                Sim.env := ["PATH=C:\Windows"];
                Sim.engine := Sim.engine0;
                Sim.combined := EmptyString;
                Sim.locked := [] |};
     files := [];
     config_dir := Some "C:\Users\ada";
     temp_dir := "C:\Temp";
     self := Some "C:\Apps\ResticBackupManager.exe";
     search_path := [] |}.

(** A second repository, and an application that holds both. *)
Definition repo1 : config.Repository :=
  {| config.ID := "r2"; config.Name := "photos";
     config.URI := "C:\backup\photos"; config.Password := "s3cret";
     config.SourceFolders := ["C:\Users\ada\Pictures"]; config.Excludes := [] |}.

Definition app1 : App :=
  {| config_ := {| config.path := "C:\Users\ada\restic-gui\config.json";
                   config.Config := {| config.Repositories := [Sim.repo0; repo1];
                                       config.LastUsedRepo := "r2" |} |};
     runner := Some Sim.runner0 |}.

(** The application when no engine was found. *)
Definition app_without_engine : App :=
  {| config_ := config_ app1; runner := None |}.

(** The output of a listing of snapshots. *)
Definition snapshots_out : string :=
  Sim.quoted "[{'time':'2024-05-01T10:00:00Z','paths':['G:\\docs'],'hostname':'pc','id':'4f3c9a','short_id':'4f3c'}]".

(** A backup of two folders with two exclusions and a tag. *)
Definition job0 : BackupJob.t :=
  BackupJob.mk "r1" ["C:\Users\ada\Documents"; "C:\Users\ada\Pictures"]
               ["node_modules"; ".git"] ["nightly"].

(** A staging directory whose entry [docs] meets a directory of that name
    on the volume, so that its rename is refused. *)
Definition staged_directory : Sim.World :=
  Sim.with_fs Sim.world0
    [ ("G:\", Sim.Directory); ("G:\docs", Sim.Directory);
      ("G:\docs\report.pdf", Sim.File "older report");
      ("G:\stage", Sim.Directory); ("G:\stage\docs", Sim.Directory);
      ("G:\stage\docs\report.pdf", Sim.File "report") ].

(** A staging directory whose second entry is a file named as a directory
    of the volume: it can be neither renamed nor copied. *)
Definition staged_clash : Sim.World :=
  Sim.with_fs Sim.world0
    [ ("G:\", Sim.Directory); ("G:\docs", Sim.Directory);
      ("G:\stage", Sim.Directory); ("G:\stage\a.txt", Sim.File "a");
      ("G:\stage\docs", Sim.File "not a directory");
      ("G:\stage\z.txt", Sim.File "z") ].

(** The entries of a listing, as the page holds them. *)
Definition docs_node : FileNode.t :=
  FileNode.mk "node" "docs" "dir" "/G/docs" 0%Z "2024-04-30T09:00:00Z".

Definition report_node : FileNode.t :=
  FileNode.mk "node" "report.pdf" "file" "/G/docs/report.pdf" 6%Z
              "2024-04-30T09:00:00Z".

Definition todo_node : FileNode.t :=
  FileNode.mk "node" "todo.txt" "file" "/G/todo.txt" 4%Z "2024-04-30T09:00:00Z".

Definition tree0 : list FileNode.t := [docs_node; report_node; todo_node].

End Desk.

(* ================================================================== *)
(** * Properties of the process runner *)
(* ================================================================== *)

Section RunnerFacts.
Context `{GoLib} {W : Type} `{Host W}.

Lemma friendlyError_translate (raw : string) :
  restic.friendlyError raw = restic.translate raw.
Proof.
  unfold restic.friendlyError, restic.translate, restic.translations,
    restic.applies.
  cbn [find existsb fst snd].
  repeat match goal with
         | |- context [strings.Contains (ToLower raw) ?k] =>
             destruct (strings.Contains (ToLower raw) k); cbn [orb]
         end;
    reflexivity.
Qed.

Lemma exit_failed_exited (code : Z) :
  exit_failed (Exited code) = false <-> code = 0%Z.
Proof.
  cbn. rewrite negb_false_iff. apply Z.eqb_eq.
Qed.

(** [Run] always returns, after exactly one launch. *)
Lemma Run_eq (r : restic.Runner) (uri pw : string) (args : list string) (w : W) :
  let cmd := restic.Command r args
               (if String.eqb uri EmptyString then Environ w
                else restic.repoEnv (Environ w) uri pw) in
  restic.Run r uri pw args w =
    Some (if exit_failed (snd (fst (CombinedOutput cmd w)))
          then (EmptyString,
                Some (ErrCommandFailed
                        (restic.friendlyError
                           (TrimSpace (fst (fst (CombinedOutput cmd w)))))))
          else (fst (fst (CombinedOutput cmd w)), None),
          snd (CombinedOutput cmd w), [Sys (CStart cmd)]).
Proof.
  cbv [restic.Run bind environ combinedOutput ret].
  destruct (CombinedOutput _ w) as [[out x] w'].
  cbn [fst snd].
  destruct (exit_failed x); reflexivity.
Qed.

(** C5.  The error translator is the table of section 4.2.1 read top to
    bottom: the message of the first row whose substring the lower-cased
    text contains; text no row applies to passes through verbatim; empty
    text becomes the generic message.  Translation does not steer control
    flow: whether [Run] returns an error is decided by the exit status
    alone, whatever the output text is. *)
Theorem friendlyError_table :
  (forall raw, restic.friendlyError raw = restic.translate raw)
  /\ (forall raw row,
        find (restic.applies raw) restic.translations = Some row ->
        restic.friendlyError raw = snd row
        /\ In (restic.friendlyError raw)
              [restic.msg_wrong_password; restic.msg_not_initialized;
               restic.msg_network; restic.msg_access; restic.msg_exists;
               restic.msg_locked])
  /\ (forall raw,
        find (restic.applies raw) restic.translations = None ->
        raw <> EmptyString -> restic.friendlyError raw = raw)
  /\ restic.friendlyError EmptyString = restic.msg_unknown
  /\ (forall (r : restic.Runner) uri pw args (w : W),
        exists res w' t,
          restic.Run r uri pw args w = Some (res, w', t)
          /\ (snd res = None <->
              exit_failed
                (snd (fst (CombinedOutput
                             (restic.Command r args
                                (if String.eqb uri EmptyString then Environ w
                                 else restic.repoEnv (Environ w) uri pw)) w)))
              = false)).
Proof.
  split; [exact friendlyError_translate|].
  split.
  { intros raw row Hf. rewrite friendlyError_translate.
    unfold restic.translate. rewrite Hf. split; [reflexivity|].
    apply find_some in Hf. destruct Hf as [Hin _].
    unfold restic.translations in Hin. cbn [In] in Hin.
    cbn [In].
    repeat (destruct Hin as [<- | Hin]; [cbn [snd]; tauto|]).
    contradiction. }
  split.
  { intros raw Hf Hne. rewrite friendlyError_translate.
    unfold restic.translate. rewrite Hf.
    destruct (String.eqb_spec raw EmptyString); [contradiction | reflexivity]. }
  split.
  { unfold restic.friendlyError. rewrite ToLower_empty. reflexivity. }
  intros r uri pw args w. rewrite Run_eq.
  eexists _, _, _. split; [reflexivity|].
  destruct (exit_failed _); cbn [snd]; split; congruence.
Qed.

(** C4, as amended.  [Run] returns, after one launch.  On exit status zero
    it returns the combined output in full and no error.  On any other end
    it returns empty output and an error whose message is the translation
    of the output with surrounding white space trimmed; when a row of the
    table applies to the trimmed text, the message is that row's fixed
    message. *)
Theorem Run_outcome (r : restic.Runner) (uri pw : string) (args : list string)
    (w : W) :
  let cmd := restic.Command r args
               (if String.eqb uri EmptyString then Environ w
                else restic.repoEnv (Environ w) uri pw) in
  let out := fst (fst (CombinedOutput cmd w)) in
  let x := snd (fst (CombinedOutput cmd w)) in
  let w' := snd (CombinedOutput cmd w) in
  (x = Exited 0 ->
     restic.Run r uri pw args w = Some ((out, None), w', [Sys (CStart cmd)]))
  /\ (exit_failed x = true ->
        restic.Run r uri pw args w =
          Some ((EmptyString,
                 Some (ErrCommandFailed (restic.translate (TrimSpace out)))),
                w', [Sys (CStart cmd)])
        /\ (forall row,
              find (restic.applies (TrimSpace out)) restic.translations = Some row ->
              restic.translate (TrimSpace out) = snd row)).
Proof.
  intros cmd out x w'. split.
  - intros Hx. rewrite Run_eq. fold cmd. fold x. rewrite Hx. reflexivity.
  - intros Hx. split.
    + rewrite Run_eq. fold cmd. fold x. rewrite Hx.
      rewrite friendlyError_translate. reflexivity.
    + intros row Hf. unfold restic.translate. rewrite Hf. reflexivity.
Qed.

(** The state of the context after [n] calls of [Cancel] on a registered
    run: cancelled as soon as one call was made. *)
Lemma ctxDone_after_cancels (n : nat) (h : restic.Handle) :
  restic.ctxDone (Nat.iter n restic.Cancel (restic.register h)) = Nat.ltb 0 n.
Proof.
  assert (Hreg : forall k,
             restic.cancelFunc (Nat.iter k restic.Cancel (restic.register h)) = true).
  { induction k as [|k IH]; [reflexivity|].
    rewrite Nat.iter_succ. unfold restic.Cancel at 1. rewrite IH. reflexivity. }
  destruct n as [|n]; [reflexivity|].
  rewrite Nat.iter_succ. unfold restic.Cancel at 1. rewrite Hreg. reflexivity.
Qed.

(** [Cancel] with no run in flight does nothing. *)
Lemma Cancel_idle : restic.Cancel restic.idle = restic.idle.
Proof. reflexivity. Qed.

Lemma forEach_app {A} (body : A -> M W unit) (xs ys : list A) (w : W) :
  forEach body (xs ++ ys) w =
    match forEach body xs w with
    | Some (_, w1, t1) =>
        match forEach body ys w1 with
        | Some (_, w2, t2) => Some (tt, w2, t1 ++ t2)
        | None => None
        end
    | None => None
    end.
Proof.
  revert w. induction xs as [|x xs IH]; intros w.
  - cbn. destruct (forEach body ys w) as [[[[] w2] t2]|]; reflexivity.
  - cbn [app forEach]. unfold bind.
    destruct (body x w) as [[[[] w1] t1]|]; [|reflexivity].
    rewrite IH.
    destruct (forEach body xs w1) as [[[[] w2] t2]|]; [|reflexivity].
    destruct (forEach body ys w2) as [[[[] w3] t3]|]; [|reflexivity].
    rewrite app_assoc. reflexivity.
Qed.

(** The state of the context when line 120 reads it: cancelled as soon as
    one call of [Cancel] was made, in time for the subprocess or later. *)
Lemma ctxDone_after_late (n m : nat) (h : restic.Handle) :
  restic.ctxDone
    (Nat.iter m restic.Cancel (Nat.iter n restic.Cancel (restic.register h)))
  = Nat.ltb 0 (n + m).
Proof.
  replace (Nat.iter m restic.Cancel
             (Nat.iter n restic.Cancel (restic.register h)))
    with (Nat.iter (m + n) restic.Cancel (restic.register h))
    by apply Nat.iter_add.
  rewrite ctxDone_after_cancels, (Nat.add_comm m n). reflexivity.
Qed.

(** What [RunWithProgress] returns for a run the host started. *)
Lemma RunWithProgress_ran (r : restic.Runner) (uri pw : string)
    (args : list string) (onLine : string -> M W unit) (w w1 w2 : W)
    (stdout stderr : list string) (cancels late : nat) (code : Z)
    (t : list Action) :
  let cmd := restic.Command r args (restic.repoEnv (Environ w) uri pw) in
  let atWait := Nat.iter cancels restic.Cancel (restic.register restic.idle) in
  Stream cmd w = (Ran stdout stderr cancels late code, w1) ->
  forEach onLine stdout w1 = Some (tt, w2, t) ->
  restic.RunWithProgress r uri pw args onLine w =
    Some (restic.waitResult atWait (Nat.iter late restic.Cancel atWait)
            code stderr,
          w2, Sys (CStart cmd) :: t).
Proof.
  intros cmd atWait HS HL.
  cbv [restic.RunWithProgress bind environ stream ret].
  fold cmd. rewrite HS. cbn [started]. rewrite HL.
  rewrite app_nil_r. reflexivity.
Qed.


(** A run that ends without error: no [Cancel] reached the subprocess and
    the exit status is zero. *)
Lemma waitResult_None (cancels late : nat) (code : Z) (stderr : list string) :
  let atWait := Nat.iter cancels restic.Cancel (restic.register restic.idle) in
  restic.waitResult atWait (Nat.iter late restic.Cancel atWait) code stderr
    = None ->
  cancels = 0 /\ code = 0%Z.
Proof.
  intros atWait. unfold restic.waitResult, restic.waitFailed. subst atWait.
  rewrite ctxDone_after_late, ctxDone_after_cancels. cbn [exit_failed].
  destruct cancels as [|n].
  - destruct (Z.eqb code 0) eqn:Hcode; cbn [negb orb Nat.ltb Nat.leb].
    + intros _. apply Z.eqb_eq in Hcode. split; [reflexivity | exact Hcode].
    + destruct (0 + late); discriminate.
  - change (Nat.ltb 0 (S n)) with true. rewrite orb_true_r.
    change (Nat.ltb 0 (S n + late)) with true. discriminate.
Qed.


Lemma launches_app (t1 t2 : list Action) :
  launches (t1 ++ t2) = launches t1 ++ launches t2.
Proof. apply flat_map_app. Qed.

(** C8.  A command the runner launches carries the repository URI and the
    secret in two variables appended to its environment and nowhere else:
    its argument list is the executable followed by the arguments of the
    operation, the same for any two URIs and any two secrets, in whatever
    state the host is.  [Run] launches exactly one command (and leaves the
    environment untouched when the URI is empty); [RunWithProgress]
    launches at most one, besides what its callback launches. *)
Theorem args_independent_of_secret (r : restic.Runner) (args : list string) :
  (forall uri pw (w : W),
     exists res w' t,
       restic.Run r uri pw args w = Some (res, w', t)
       /\ map Args (launches t) = [restic.resticPath r :: args]
       /\ map Env (launches t) =
            [if String.eqb uri EmptyString then Environ w
             else Environ w ++ [ ("RESTIC_REPOSITORY=" ++ uri)%string;
                                 ("RESTIC_PASSWORD=" ++ pw)%string ]])
  /\ (forall uri1 pw1 uri2 pw2 (w1 w2 : W) res1 res2 w1' w2' t1 t2,
        restic.Run r uri1 pw1 args w1 = Some (res1, w1', t1) ->
        restic.Run r uri2 pw2 args w2 = Some (res2, w2', t2) ->
        map Args (launches t1) = map Args (launches t2))
  /\ (forall uri pw onLine (w : W) res w' t,
        (forall line w0 u w0' t0,
           onLine line w0 = Some (u, w0', t0) -> launches t0 = []) ->
        restic.RunWithProgress r uri pw args onLine w = Some (res, w', t) ->
        Forall (fun c => Args c = restic.resticPath r :: args
                         /\ Env c = Environ w
                                      ++ [ ("RESTIC_REPOSITORY=" ++ uri)%string;
                                           ("RESTIC_PASSWORD=" ++ pw)%string ])
               (launches t)
        /\ List.length (launches t) <= 1).
Proof.
  assert (HRun : forall uri pw (w : W) res w' t,
             restic.Run r uri pw args w = Some (res, w', t) ->
             map Args (launches t) = [restic.resticPath r :: args]).
  { intros uri pw w res w' t HR. rewrite Run_eq in HR.
    injection HR as _ _ <-. reflexivity. }
  split.
  { intros uri pw w. rewrite Run_eq. eexists _, _, _.
    split; [reflexivity|]. split; [reflexivity|].
    cbn. unfold restic.repoEnv. reflexivity. }
  split.
  { intros. erewrite HRun by eassumption. erewrite HRun by eassumption.
    reflexivity. }
  intros uri pw onLine w res w' t Hquiet HR.
  assert (Hlines : forall ls w0 w0' t0,
             forEach onLine ls w0 = Some (tt, w0', t0) -> launches t0 = []).
  { induction ls as [|l ls IH]; intros w0 w0' t0 HF.
    - cbn in HF. injection HF as _ <-. reflexivity.
    - cbn [forEach] in HF. unfold bind in HF.
      destruct (onLine l w0) as [[[u wa] ta]|] eqn:Ha; [|discriminate].
      destruct (forEach onLine ls wa) as [[[[] wb] tb]|] eqn:Hb; [|discriminate].
      injection HF as _ <-. rewrite launches_app.
      rewrite (Hquiet _ _ _ _ _ Ha), (IH _ _ _ Hb). reflexivity. }
  cbv [restic.RunWithProgress bind environ stream ret] in HR.
  destruct (Stream _ w) as [run w1].
  destruct run as [e|e|e|stdout stderr cancels late code]; cbn [started] in HR.
  - injection HR as _ _ <-. cbn. split; [constructor | lia].
  - injection HR as _ _ <-. cbn. split; [constructor | lia].
  - injection HR as _ _ <-. cbn. split; [|lia].
    constructor; [|constructor]. split; reflexivity.
  - destruct (forEach onLine stdout w1) as [[[[] w2] t2]|] eqn:HF; [|discriminate].
    injection HR as _ _ <-. rewrite app_nil_r.
    cbn [app]. unfold launches at 1 2. cbn [flat_map]. fold (launches t2).
    rewrite (Hlines _ _ _ _ HF). cbn. split; [|lia].
    constructor; [|constructor]. split; reflexivity.
Qed.

End RunnerFacts.

(* ================================================================== *)
(** * Properties of the progress translator and of the listing *)
(* ================================================================== *)

Section TranslatorFacts.
Context `{GoLib} {W : Type} `{Host W}.

Lemma forEach_restoreLine (lines : list string) (w : W) :
  forEach restoreLine lines w = Some (tt, w, flat_map restoreRecord lines).
Proof.
  revert w. induction lines as [|l ls IH]; intros w; [reflexivity|].
  cbn [forEach flat_map]. unfold bind, restoreRecord. unfold restoreLine at 1.
  destruct (UnmarshalRestoreProgress l); cbv [emit ret]; rewrite IH; reflexivity.
Qed.

Lemma forEach_backupLine (lines : list string) (w : W) :
  forEach backupLine lines w = Some (tt, w, flat_map backupRecord lines).
Proof.
  revert w. induction lines as [|l ls IH]; intros w; [reflexivity|].
  cbn [forEach flat_map]. unfold bind, backupRecord. unfold backupLine at 1.
  destruct (UnmarshalBackupProgress l); cbv [emit ret]; rewrite IH; reflexivity.
Qed.

(** C3, as amended.  The events of a streamed run are, in the order of the
    lines, what each line contributes on its own: exactly one record for a
    line that decodes as a progress record of the operation, and nothing
    for any other line, among them every line that is not valid JSON; the
    lines after such a line are still translated. *)
Theorem progress_records :
  (forall lines (w : W),
     forEach restoreLine lines w = Some (tt, w, flat_map restoreRecord lines)
     /\ forEach backupLine lines w = Some (tt, w, flat_map backupRecord lines))
  /\ (forall before line after,
        flat_map restoreRecord (before ++ line :: after)
          = flat_map restoreRecord before ++ restoreRecord line
              ++ flat_map restoreRecord after
        /\ flat_map backupRecord (before ++ line :: after)
          = flat_map backupRecord before ++ backupRecord line
              ++ flat_map backupRecord after)
  /\ (forall line p,
        UnmarshalRestoreProgress line = Some p ->
        restoreRecord line = [EventsEmit "restore:progress" (PRestore p)])
  /\ (forall line p,
        UnmarshalBackupProgress line = Some p ->
        backupRecord line = [EventsEmit "backup:progress" (PBackup p)])
  /\ (forall line,
        UnmarshalRestoreProgress line = None -> restoreRecord line = [])
  /\ (forall line,
        UnmarshalBackupProgress line = None -> backupRecord line = [])
  /\ (forall line,
        Valid line = false -> restoreRecord line = [] /\ backupRecord line = [])
  /\ (forall (r : restic.Runner) uri pw args (w w1 : W) stdout stderr cancels
             late code,
        Stream (restic.Command r args (restic.repoEnv (Environ w) uri pw)) w
          = (Ran stdout stderr cancels late code, w1) ->
        exists res,
          restic.RunWithProgress r uri pw args restoreLine w
          = Some (res, w1,
                  Sys (CStart (restic.Command r args
                                 (restic.repoEnv (Environ w) uri pw)))
                  :: flat_map restoreRecord stdout)).
Proof.
  split; [intros; split; [apply forEach_restoreLine | apply forEach_backupLine]|].
  split.
  { intros. rewrite !flat_map_app. cbn [flat_map]. split; reflexivity. }
  split; [intros line p Hd; unfold restoreRecord; rewrite Hd; reflexivity|].
  split; [intros line p Hd; unfold backupRecord; rewrite Hd; reflexivity|].
  split; [intros line Hd; unfold restoreRecord; rewrite Hd; reflexivity|].
  split; [intros line Hd; unfold backupRecord; rewrite Hd; reflexivity|].
  split.
  { intros line Hv. unfold restoreRecord, backupRecord. split.
    - destruct (UnmarshalRestoreProgress line) eqn:Hd; [|reflexivity].
      apply UnmarshalRestoreProgress_valid in Hd. congruence.
    - destruct (UnmarshalBackupProgress line) eqn:Hd; [|reflexivity].
      apply UnmarshalBackupProgress_valid in Hd. congruence. }
  intros r uri pw args w w1 stdout stderr cancels late code HS.
  eexists.
  exact (RunWithProgress_ran r uri pw args restoreLine _ _ _ _ _ _ _ _ _ HS
           (forEach_restoreLine stdout w1)).
Qed.

(** ** The listing *)

Lemma fold_collectNode (lines : list string) (acc : list FileNode.t) :
  fold_left collectNode lines acc = acc ++ flat_map nodeOf lines.
Proof.
  revert acc. induction lines as [|l ls IH]; intros acc.
  - cbn. rewrite app_nil_r. reflexivity.
  - cbn [fold_left flat_map]. rewrite IH, app_assoc. f_equal. f_equal.
    unfold collectNode, nodeOf.
    destruct (String.eqb l EmptyString); [rewrite app_nil_r; reflexivity|].
    destruct (UnmarshalFileNode l) as [n|]; [|rewrite app_nil_r; reflexivity].
    destruct (String.eqb (FileNode.StructType n) "node");
      [reflexivity | rewrite app_nil_r; reflexivity].
Qed.

Lemma splitLines_loop_acc (rest cur : string) (lines : list string) :
  splitLines_loop rest cur lines = lines ++ splitLines_loop rest cur [].
Proof.
  revert cur lines. induction rest as [|c t IH]; intros cur lines.
  - cbn. destruct (String.eqb cur EmptyString); [rewrite app_nil_r|]; reflexivity.
  - cbn [splitLines_loop]. destruct (Ascii.eqb c (ascii_of_nat 10)).
    + rewrite IH. rewrite (IH EmptyString ([] ++ [cur])).
      rewrite app_assoc. reflexivity.
    + apply IH.
Qed.

Lemma append_assoc (a b c : string) :
  ((a ++ b) ++ c)%string = (a ++ (b ++ c))%string.
Proof. induction a as [|x a IH]; cbn; [reflexivity | rewrite IH; reflexivity]. Qed.

Lemma splitLines_loop_line (l s cur : string) :
  no_newline l = true ->
  splitLines_loop (l ++ String newline s)%string cur [] =
    (cur ++ l)%string :: splitLines_loop s EmptyString [].
Proof.
  revert cur. induction l as [|c l IH]; intros cur Hl.
  - cbn [append splitLines_loop]. unfold newline. rewrite Ascii.eqb_refl.
    rewrite splitLines_loop_acc.
    replace (cur ++ EmptyString)%string with cur; [reflexivity|].
    clear. induction cur as [|x cur IH]; cbn; [reflexivity | rewrite <- IH; reflexivity].
  - cbn [no_newline] in Hl. apply andb_true_iff in Hl. destruct Hl as [Hc Hl].
    cbn [append splitLines_loop]. unfold newline in Hc.
    apply negb_true_iff in Hc. rewrite Hc.
    rewrite IH by exact Hl. rewrite append_assoc. reflexivity.
Qed.

(** The first line of the output is the first element of [splitLines]. *)
Lemma splitLines_first (l s : string) :
  no_newline l = true ->
  splitLines (l ++ String newline s)%string = l :: splitLines s.
Proof.
  intros Hl. unfold splitLines. rewrite splitLines_loop_line by exact Hl.
  reflexivity.
Qed.

(** C9.  When the engine exits with status zero, the listing returns no
    error and the entries its output lines contribute, in order.  The first
    line, which describes the snapshot (its struct type is not that of an
    entry), contributes nothing; a line that decodes as an entry tagged
    node contributes exactly that entry, with the name, type, path, size
    and modification time decoded from it; a line that is not valid JSON
    contributes nothing and does not fail the call. *)
Theorem ListSnapshotContents_nodes (a : App) (repoID snapshotID : string)
    (r : restic.Runner) (repo : config.Repository) (w w' : W)
    (first rest : string) :
  let cmd := restic.Command r ["ls"; "--json"; snapshotID]
               (if String.eqb (config.URI repo) EmptyString then Environ w
                else restic.repoEnv (Environ w) (config.URI repo)
                                    (config.Password repo)) in
  runner a = Some r ->
  config.GetRepository (config_ a) repoID = Some repo ->
  CombinedOutput cmd w = ((first ++ String newline rest)%string, Exited 0, w') ->
  no_newline first = true ->
  (forall node, UnmarshalFileNode first = Some node ->
                FileNode.StructType node = "snapshot") ->
  ListSnapshotContents a repoID snapshotID w =
    Some ((flat_map nodeOf (splitLines rest), None), w', [Sys (CStart cmd)])
  /\ (forall line node,
        line <> EmptyString ->
        UnmarshalFileNode line = Some node ->
        FileNode.StructType node = "node" ->
        nodeOf line = [node])
  /\ (forall line, Valid line = false -> nodeOf line = [])
  /\ (forall before line after,
        flat_map nodeOf (before ++ line :: after)
          = flat_map nodeOf before ++ nodeOf line ++ flat_map nodeOf after).
Proof.
  intros cmd Hr Hrepo Hout Hfirst Hsnap.
  split.
  { unfold ListSnapshotContents. rewrite Hr, Hrepo.
    unfold bind at 1. rewrite Run_eq. fold cmd. rewrite Hout.
    cbn [fst snd exit_failed Z.eqb negb ret app].
    rewrite fold_collectNode. cbn [app].
    rewrite splitLines_first by exact Hfirst. cbn [flat_map].
    replace (nodeOf first) with (@nil FileNode.t); [reflexivity|].
    unfold nodeOf. destruct (String.eqb first EmptyString); [reflexivity|].
    destruct (UnmarshalFileNode first) as [n|] eqn:Hd; [|reflexivity].
    rewrite (Hsnap n eq_refl). reflexivity. }
  split.
  { intros line node Hne Hd Hs. unfold nodeOf.
    destruct (String.eqb_spec line EmptyString); [contradiction|].
    rewrite Hd, Hs. reflexivity. }
  split.
  { intros line Hv. unfold nodeOf.
    destruct (String.eqb line EmptyString); [reflexivity|].
    destruct (UnmarshalFileNode line) eqn:Hd; [|reflexivity].
    apply UnmarshalFileNode_valid in Hd. congruence. }
  intros. rewrite !flat_map_app. reflexivity.
Qed.

End TranslatorFacts.

(* ================================================================== *)
(** * Properties of the restore orchestration *)
(* ================================================================== *)

Section OrchestratorFacts.
Context `{GoLib} {W : Type} `{Host W}.

Lemma appendFlag_eq (flag : string) (args xs : list string) :
  appendFlag flag args xs = args ++ flat_map (fun x => [flag; x]) xs.
Proof.
  unfold appendFlag. revert args.
  induction xs as [|x xs IH]; intros args; cbn [fold_left flat_map].
  - rewrite app_nil_r. reflexivity.
  - rewrite IH, <- app_assoc. reflexivity.
Qed.

Lemma substring_length (n : nat) (s : string) :
  n <= String.length s -> String.length (String.substring 0 n s) = n.
Proof.
  revert s. induction n as [|n IH]; intros s Hn.
  - destruct s; reflexivity.
  - destruct s as [|c s]; cbn in Hn; [lia|].
    cbn. rewrite IH by lia. reflexivity.
Qed.

Lemma extractDriveLetter_segment (path : string) :
  extractDriveLetter path =
    if Nat.eqb (String.length (leadingSegment path)) 1
    then ToUpper (leadingSegment path) else EmptyString.
Proof. reflexivity. Qed.

(** C6.  A restore to the original location whose first selected path has a
    leading segment that is not exactly one byte long starts its goroutine,
    which does nothing but report the path-resolution failure: no
    staging directory is made, no restore is launched, the host is left as
    it was. *)
Theorem drive_letter_unresolved (fuel : nat) (a : App)
    (repoID snapshotID targetPath first : string) (others : list string)
    (r : restic.Runner) (repo : config.Repository) (w : W) :
  runner a = Some r ->
  config.GetRepository (config_ a) repoID = Some repo ->
  String.length (leadingSegment first) <> 1 ->
  exists task,
    RestoreSelected fuel a repoID snapshotID (first :: others) targetPath true
      = (None, Some task)
    /\ task w =
         Some (tt, w,
               [EventsEmit "restore:error"
                  (PString "Could not determine drive letter from path")]).
Proof.
  intros Hr Hrepo Hlen. unfold RestoreSelected. rewrite Hr, Hrepo.
  eexists. split; [reflexivity|].
  unfold restoreToOriginal. rewrite extractDriveLetter_segment.
  apply Nat.eqb_neq in Hlen. rewrite Hlen. reflexivity.
Qed.

(** C7, as amended.  With no path selected [RestoreSelected] returns an
    error and starts no goroutine, so no subprocess.  With a path selected, a
    runner and a known repository, the custom-target mode starts the restore
    with whatever target directory it is given, the empty one included; it
    is the page's [startRestore] that does not call [RestoreSelected] in
    custom mode while the target directory is empty. *)
Theorem RestoreSelected_guards :
  (forall fuel (a : App) repoID snapshotID targetPath toOriginal,
     exists e,
       RestoreSelected fuel a repoID snapshotID [] targetPath toOriginal
         = (Some e, None))
  /\ (forall fuel (a : App) repoID snapshotID first others targetPath r repo
             (w : W),
        runner a = Some r ->
        config.GetRepository (config_ a) repoID = Some repo ->
        exists task,
          RestoreSelected fuel a repoID snapshotID (first :: others)
                          targetPath false = (None, Some task)
          /\ exists res w' t,
               task w = Some (res, w', t)
               /\ (forall c, In c (launches t) ->
                     Args c = restic.resticPath r
                              :: ["restore"; snapshotID; "--target"; targetPath;
                                  "--json"]
                              ++ flat_map (fun p => ["--include"; p])
                                          (first :: others))
               /\ (started (fst (Stream
                      (restic.Command r
                         (["restore"; snapshotID; "--target"; targetPath; "--json"]
                            ++ flat_map (fun p => ["--include"; p]) (first :: others))
                         (restic.repoEnv (Environ w) (config.URI repo)
                                         (config.Password repo))) w)) = true ->
                   List.length (launches t) = 1))
  /\ (forall s,
        SelectiveRestore.restoreMode s = SelectiveRestore.custom ->
        SelectiveRestore.targetPath s = EmptyString ->
        exists title, SelectiveRestore.startRestore s = SelectiveRestore.Toast title)
  /\ (forall s,
        SelectiveRestore.checked s = [] ->
        SelectiveRestore.startRestore s = SelectiveRestore.Toast "No entries selected").
Proof.
  split.
  { intros. unfold RestoreSelected.
    destruct (runner a); [|eexists; reflexivity].
    destruct (config.GetRepository _ _); eexists; reflexivity. }
  split.
  { intros fuel a repoID snapshotID first others targetPath r repo w Hr Hrepo.
    unfold RestoreSelected. rewrite Hr, Hrepo.
    eexists. split; [reflexivity|].
    unfold restoreToTarget. rewrite appendFlag_eq.
    set (args := _ ++ flat_map _ _).
    unfold bind at 1.
    cbv [restic.RunWithProgress bind environ stream ret].
    set (cmd := restic.Command r args _).
    destruct (Stream cmd w) as [run w1].
    destruct run as [e|e|e|stdout stderr cancels late code]; cbn [started fst].
    - eexists _, _, _. split; [reflexivity|]. cbn.
      split; [tauto | discriminate].
    - eexists _, _, _. split; [reflexivity|]. cbn.
      split; [tauto | discriminate].
    - eexists _, _, _. split; [reflexivity|]. cbn.
      split; [|reflexivity].
      intros c [<- | []]. reflexivity.
    - rewrite forEach_restoreLine. rewrite app_nil_r.
      assert (Hq : launches (flat_map restoreRecord stdout) = []).
      { clear. induction stdout as [|l ls IH]; [reflexivity|].
        cbn [flat_map]. rewrite launches_app, IH.
        unfold restoreRecord. destruct (UnmarshalRestoreProgress l); reflexivity. }
      destruct (restic.waitResult _ _ code stderr) as [e|];
        cbv [emit]; eexists _, _, _; (split; [reflexivity|]);
        rewrite !launches_app; cbn [app]; unfold launches at 1 3;
        cbn [flat_map app]; fold (launches (flat_map restoreRecord stdout));
        rewrite Hq; cbn; (split; [|reflexivity]);
        intros c [<- | []]; reflexivity. }
  split.
  { intros s Hm Ht. unfold SelectiveRestore.startRestore.
    destruct (Nat.eqb _ 0); [eexists; reflexivity|].
    rewrite Hm, Ht. eexists; reflexivity. }
  intros s Hc. unfold SelectiveRestore.startRestore. rewrite Hc. reflexivity.
Qed.

(** ** The move phase *)

Lemma forErr_fuel {A} (f g : A -> M W (option error)) :
  (forall x w r, f x w = Some r -> g x w = Some r) ->
  forall xs w r, forErr f xs w = Some r -> forErr g xs w = Some r.
Proof.
  intros Hfg xs. induction xs as [|x xs IH]; intros w r HF; [exact HF|].
  cbn [forErr] in *. unfold bind in *.
  destruct (f x w) as [[[e w1] t1]|] eqn:Hf; [|discriminate].
  rewrite (Hfg _ _ _ Hf).
  destruct e as [err|]; [exact HF|].
  destruct (forErr f xs w1) as [[[e2 w2] t2]|] eqn:Hrest; [|discriminate].
  rewrite (IH _ _ Hrest). exact HF.
Qed.

(** A copy that returns within a bound returns the same within any larger
    bound. *)
Lemma copyPath_fuel_S (n : nat) :
  forall src dst w r,
    copyPath n src dst w = Some r -> copyPath (S n) src dst w = Some r.
Proof.
  induction n as [|n IH]; intros src dst w r HC; [discriminate|].
  remember (S n) as m eqn:Hm.
  cbn [copyPath]. rewrite Hm in HC. cbn [copyPath] in HC.
  unfold bind at 1. unfold bind at 1 in HC.
  destruct (stat src w) as [[[st w1] t1]|]; [|discriminate].
  destruct st as [info|err]; [|exact HC].
  destruct (IsDir info); [|exact HC].
  unfold bind at 1. unfold bind at 1 in HC.
  destruct (mkdirAll dst (Mode info) w1) as [[[e w2] t2]|]; [|discriminate].
  destruct e as [err|]; [exact HC|].
  unfold bind at 1. unfold bind at 1 in HC.
  destruct (readDir src w2) as [[[rd w3] t3]|]; [|discriminate].
  destruct (forErr (fun name => copyPath n (Join src name) (Join dst name))
                   (fst rd) w3) as [[[e4 w4] t4]|] eqn:HF; [|discriminate].
  assert (Hstep : forall x w0 r0,
             (fun name => copyPath n (Join src name) (Join dst name)) x w0 = Some r0 ->
             (fun name => copyPath m (Join src name) (Join dst name)) x w0 = Some r0).
  { intros x w0 r0. subst m. apply IH. }
  rewrite (forErr_fuel _ _ Hstep _ _ _ HF).
  exact HC.
Qed.

Lemma copyPath_fuel (n m : nat) src dst w r :
  n <= m -> copyPath n src dst w = Some r -> copyPath m src dst w = Some r.
Proof.
  intros Hle. induction Hle as [|m Hle IH]; [tauto|].
  intros HC. apply copyPath_fuel_S, IH, HC.
Qed.

Lemma moveEntry_fuel (n m : nat) src dst name w r :
  n <= m -> moveEntry n src dst name w = Some r ->
  moveEntry m src dst name w = Some r.
Proof.
  intros Hle. unfold moveEntry, bind.
  destruct (mkdirAll _ 493 w) as [[[e w1] t1]|]; [|discriminate].
  destruct e as [err|]; [tauto|].
  destruct (rename _ _ w1) as [[[e2 w2] t2]|]; [|discriminate].
  destruct e2 as [err|]; [|tauto].
  destruct (copyPath n _ _ w2) as [r0|] eqn:HC; [|discriminate].
  rewrite (copyPath_fuel n m _ _ _ _ Hle HC). tauto.
Qed.

(** The move phase, once it returns within a bound, returns the same within
    any larger bound. *)
Lemma moveContents_fuel (n m : nat) src dst w r :
  n <= m -> moveContents n src dst w = Some r ->
  moveContents m src dst w = Some r.
Proof.
  intros Hle. unfold moveContents, bind.
  destruct (readDir src w) as [[[[names e] w1] t1]|]; [|discriminate].
  destruct e as [err|]; [tauto|].
  destruct (forErr (moveEntry n src dst) names w1) as [r0|] eqn:HF; [|discriminate].
  rewrite (forErr_fuel _ (moveEntry m src dst)
             (fun x w0 r1 => moveEntry_fuel n m src dst x w0 r1 Hle) _ _ _ HF).
  tauto.
Qed.

(** One level of [copyPath] on a file: the source is opened, the
    destination created and filled, and both are closed, the destination
    first. *)
Lemma copyPath_file (fuel : nat) (src dst : string) (w w1 w2 w3 w4 : W)
    (info : FileInfo) (e : option error) :
  Stat src w = (inl info, w1) ->
  IsDir info = false ->
  Open src w1 = (None, w2) ->
  Create dst w2 = (None, w3) ->
  Copy dst src w3 = (e, w4) ->
  copyPath (S fuel) src dst w =
    Some (e, Close src (Close dst w4),
          [Sys (CStat src); Sys (COpen src); Sys (CCreate dst);
           Sys (CCopy dst src); Sys (CClose dst); Sys (CClose src)]).
Proof.
  intros HS Hd HO HC HCp. cbn [copyPath].
  cbv [bind stat open create copy close defer ret].
  rewrite HS, Hd, HO, HC, HCp. reflexivity.
Qed.

(** One level of [copyPath] on a directory: the destination is made with
    the mode of the source, and the entries of the source are copied in
    turn, one level deeper, up to the first error. *)
Lemma copyPath_dir (fuel : nat) (src dst : string) (w w1 w2 w3 : W)
    (info : FileInfo) (names : list string) (e : option error) :
  Stat src w = (inl info, w1) ->
  IsDir info = true ->
  MkdirAll dst (Mode info) w1 = (None, w2) ->
  ReadDir src w2 = (names, e, w3) ->
  copyPath (S fuel) src dst w =
    match forErr (fun name => copyPath fuel (Join src name) (Join dst name))
                 names w3 with
    | Some (res, w4, t) =>
        Some (res, w4,
              Sys (CStat src) :: Sys (CMkdirAll dst (Mode info))
                :: Sys (CReadDir src) :: t)
    | None => None
    end.
Proof.
  intros HS Hd HM HR. cbn [copyPath].
  cbv [bind stat mkdirAll readDir ret].
  rewrite HS, Hd, HM, HR. cbn [fst].
  destruct (forErr _ names w3) as [[[res w4] t]|]; reflexivity.
Qed.

Lemma forErr_moved (fuel : nat) (src dst : string) (names : list string) :
  forall w w' t,
    forErr (moveEntry fuel src dst) names w = Some (None, w', t) <->
    Moved fuel src dst names w w' t.
Proof.
  induction names as [|name rest IH]; intros w w' t.
  - cbn. split.
    + intros Heq. injection Heq as <- <-. constructor.
    + intros HM. inversion HM; subst. reflexivity.
  - cbn [forErr]. unfold bind at 1. unfold moveEntry at 1.
    unfold bind at 1. unfold mkdirAll at 1.
    destruct (MkdirAll (Dir (Join dst name)) 493 w) as [e1 w1] eqn:HMk.
    destruct e1 as [err1|].
    { cbn. split; [discriminate|].
      intros HM. inversion HM; subst; congruence. }
    unfold bind at 1. unfold rename at 1.
    destruct (Rename (Join src name) (Join dst name) w1) as [e2 w2] eqn:HRn.
    destruct e2 as [err2|].
    + unfold bind at 1.
      destruct (copyPath fuel (Join src name) (Join dst name) w2)
        as [[[ce w3] tc]|] eqn:HC.
      2:{ split; [discriminate|].
          intros HM. inversion HM; subst; congruence. }
      destruct ce as [copyErr|].
      { cbn. split; [discriminate|].
        intros HM. inversion HM; subst; congruence. }
      unfold bind at 1. unfold removeAll at 1.
      destruct (RemoveAll (Join src name) w3) as [e4 w4] eqn:HRm.
      cbn [ret app].
      destruct (forErr (moveEntry fuel src dst) rest w4) as [[[e5 w5] t5]|] eqn:HF.
      2:{ split; [discriminate|].
          intros HM. inversion HM; subst; try congruence.
          match goal with
          | Hm : Moved _ _ _ rest _ _ _ |- _ => apply IH in Hm
          end.
          congruence. }
      split.
      * intros Heq. injection Heq as -> <- <-.
        rewrite <- app_assoc. cbn [app].
        eapply Moved_copy; eauto. apply IH. exact HF.
      * intros HM. inversion HM; subst; try congruence.
        match goal with
        | Hm : Moved _ _ _ rest _ _ _ |- _ => apply IH in Hm
        end.
        repeat match goal with
               | Ha : ?x = _, Hb : ?x = _ |- _ =>
                   rewrite Ha in Hb; inversion Hb; subst; clear Hb
               end.
        rewrite <- app_assoc. reflexivity.
    + cbn [ret app].
      destruct (forErr (moveEntry fuel src dst) rest w2) as [[[e5 w5] t5]|] eqn:HF.
      2:{ split; [discriminate|].
          intros HM. inversion HM; subst; try congruence.
          match goal with
          | Hm : Moved _ _ _ rest _ _ _ |- _ => apply IH in Hm
          end.
          congruence. }
      split.
      * intros Heq. injection Heq as -> <- <-.
        eapply Moved_rename; eauto. apply IH. exact HF.
      * intros HM. inversion HM; subst; try congruence.
        match goal with
        | Hm : Moved _ _ _ rest _ _ _ |- _ => apply IH in Hm
        end.
        repeat match goal with
               | Ha : ?x = _, Hb : ?x = _ |- _ =>
                   rewrite Ha in Hb; inversion Hb; subst; clear Hb
               end.
        reflexivity.
Qed.

Lemma bind_Some {A B} (m : M W A) (k : A -> M W B) (w w1 : W) (a : A)
    (t1 : list Action) :
  m w = Some (a, w1, t1) ->
  bind m k w = match k a w1 with
               | Some (b, w2, t2) => Some (b, w2, t1 ++ t2)
               | None => None
               end.
Proof. intros Hm. unfold bind. rewrite Hm. reflexivity. Qed.

Lemma bind_None {A B} (m : M W A) (k : A -> M W B) (w : W) :
  m w = None -> bind m k w = None.
Proof. intros Hm. unfold bind. rewrite Hm. reflexivity. Qed.

Lemma file_steps_app (t1 t2 : list Action) :
  file_steps (t1 ++ t2) = file_steps t1 && file_steps t2.
Proof. apply forallb_app. Qed.

Lemma file_steps_launches (t : list Action) :
  file_steps t = true -> launches t = [].
Proof.
  induction t as [|a t IH]; [reflexivity|].
  cbn [file_steps forallb]. intros Ha. apply andb_true_iff in Ha.
  destruct Ha as [Ha Ht]. unfold launches. cbn [flat_map].
  fold (launches t). rewrite (IH Ht).
  destruct a as [[]|]; try discriminate; reflexivity.
Qed.

Lemma file_steps_no_event (t : list Action) (name : string) (data : Payload) :
  file_steps t = true -> ~ In (EventsEmit name data) t.
Proof.
  intros Ht Hin. unfold file_steps in Ht. rewrite forallb_forall in Ht.
  specialize (Ht _ Hin). discriminate.
Qed.

Lemma forErr_file_steps {A} (body : A -> M W (option error)) :
  (forall x w r w' t, body x w = Some (r, w', t) -> file_steps t = true) ->
  forall xs w r w' t,
    forErr body xs w = Some (r, w', t) -> file_steps t = true.
Proof.
  intros Hb xs. induction xs as [|x xs IH]; intros w r w' t HF.
  - cbn in HF. injection HF as _ _ <-. reflexivity.
  - cbn [forErr] in HF. unfold bind in HF.
    destruct (body x w) as [[[e w1] t1]|] eqn:Hx; [|discriminate].
    destruct e as [err|].
    + cbn in HF. injection HF as _ _ <-. rewrite app_nil_r. eauto.
    + destruct (forErr body xs w1) as [[[e2 w2] t2]|] eqn:Hrest; [|discriminate].
      injection HF as _ _ <-. rewrite file_steps_app.
      rewrite (Hb _ _ _ _ _ Hx), (IH _ _ _ _ Hrest). reflexivity.
Qed.

(** Copying takes steps on the file system only. *)
Lemma copyPath_file_steps (n : nat) :
  forall src dst w r w' t,
    copyPath n src dst w = Some (r, w', t) -> file_steps t = true.
Proof.
  induction n as [|n IH]; intros src dst w r w' t HC; [discriminate|].
  cbn [copyPath] in HC.
  cbv [bind stat mkdirAll readDir open create copy close defer ret] in HC.
  destruct (Stat src w) as [[info|err] w1].
  2:{ injection HC as _ _ <-. reflexivity. }
  destruct (IsDir info).
  - destruct (MkdirAll dst (Mode info) w1) as [[err|] w2].
    { injection HC as _ _ <-. reflexivity. }
    destruct (ReadDir src w2) as [[names e] w3]. cbn [fst] in HC.
    destruct (forErr _ names w3) as [[[e4 w4] t4]|] eqn:HF; [|discriminate].
    injection HC as _ _ <-.
    apply (forErr_file_steps _ (fun x w0 r0 w0' t0 => IH _ _ w0 r0 w0' t0)) in HF.
    cbn. exact HF.
  - destruct (Open src w1) as [[err|] w2].
    { injection HC as _ _ <-. reflexivity. }
    destruct (Create dst w2) as [[err|] w3].
    { injection HC as _ _ <-. reflexivity. }
    destruct (Copy dst src w3) as [e4 w4].
    injection HC as _ _ <-. reflexivity.
Qed.

(** The move phase takes steps on the file system only: it launches no
    subprocess and emits no event. *)
Lemma moveContents_file_steps (n : nat) src dst w r w' t :
  moveContents n src dst w = Some (r, w', t) -> file_steps t = true.
Proof.
  unfold moveContents, bind at 1, readDir.
  destruct (ReadDir src w) as [[names e] w1].
  destruct e as [err|].
  { destruct (IsNotExist err); cbn; intros HM; injection HM as _ _ <-; reflexivity. }
  destruct (forErr _ names w1) as [[[e2 w2] t2]|] eqn:HF; [|discriminate].
  intros HM. injection HM as _ _ <-. cbn.
  revert HF. apply forErr_file_steps. clear.
  intros name w r w' t. unfold moveEntry.
  cbv [bind mkdirAll rename removeAll ret].
  destruct (MkdirAll _ 493 w) as [[err|] w1].
  { intros HE. injection HE as _ _ <-. reflexivity. }
  destruct (Rename _ _ w1) as [[err|] w2].
  2:{ intros HE. injection HE as _ _ <-. reflexivity. }
  destruct (copyPath n _ _ w2) as [[[ce w3] tc]|] eqn:HC; [|discriminate].
  apply copyPath_file_steps in HC.
  destruct ce as [copyErr|].
  { intros HE. injection HE as _ _ <-. cbn. rewrite app_nil_r. exact HC. }
  destruct (RemoveAll _ w3) as [e4 w4].
  intros HE. injection HE as _ _ <-. cbn.
  rewrite !file_steps_app, HC. reflexivity.
Qed.

Lemma records_quiet (lines : list string) :
  launches (flat_map restoreRecord lines) = [].
Proof.
  induction lines as [|l ls IH]; [reflexivity|].
  cbn [flat_map]. rewrite launches_app, IH.
  unfold restoreRecord. destruct (UnmarshalRestoreProgress l); reflexivity.
Qed.

(** The move phase when the source directory cannot be read: a missing
    directory is success with nothing moved, any other error is returned. *)
Lemma moveContents_unreadable (fuel : nat) (src dst : string) (w w1 : W)
    (names : list string) (e : error) :
  ReadDir src w = (names, Some e, w1) ->
  moveContents fuel src dst w =
    Some (if IsNotExist e then None else Some e, w1, [Sys (CReadDir src)]).
Proof.
  intros HR. unfold moveContents, bind, readDir. rewrite HR.
  destruct (IsNotExist e); reflexivity.
Qed.

(** The move phase succeeds exactly when the source directory is missing or
    all its entries are moved. *)
Lemma moveContents_moved (fuel : nat) (src dst : string) (w w' : W)
    (t : list Action) :
  moveContents fuel src dst w = Some (None, w', t) <->
  (exists names e,
     ReadDir src w = (names, Some e, w') /\ IsNotExist e = true
     /\ t = [Sys (CReadDir src)])
  \/ (exists names w1 t',
        ReadDir src w = (names, None, w1) /\ t = Sys (CReadDir src) :: t'
        /\ Moved fuel src dst names w1 w' t').
Proof.
  destruct (ReadDir src w) as [[names e] w1] eqn:HR.
  destruct e as [err|].
  - rewrite (moveContents_unreadable fuel src dst w w1 names err HR). split.
    + intros Heq. left. exists names, err.
      destruct (IsNotExist err); [|discriminate].
      injection Heq as <- <-. auto.
    + intros [(names' & e' & Heq & Hne & ->) | (names' & w1' & t' & Heq & _)];
        [|discriminate].
      injection Heq as <- <- <-. rewrite Hne. reflexivity.
  - unfold moveContents, bind at 1, readDir. rewrite HR.
    destruct (forErr _ names w1) as [[[e2 w2] t2]|] eqn:HF.
    + split.
      * intros Heq. injection Heq as -> <- <-. right.
        exists names, w1, t2. repeat split. apply forErr_moved. exact HF.
      * intros [(names' & e' & Heq & _) | (names' & w1' & t' & Heq & -> & HM)];
          [discriminate|].
        injection Heq as <- <-. apply forErr_moved in HM.
        rewrite HF in HM. injection HM as -> -> ->. reflexivity.
    + split; [discriminate|].
      intros [(names' & e' & Heq & _) | (names' & w1' & t' & Heq & -> & HM)];
        [discriminate|].
      injection Heq as <- <-. apply forErr_moved in HM. congruence.
Qed.

(** The goroutine of a restore to the original location, for a restore that
    [RunWithProgress] ends without error. *)
Lemma restoreToOriginal_completed (fuel : nat) (r : restic.Runner)
    (repo : config.Repository) (snapshotID first : string)
    (paths : list string) (V u : string) (w w1 w2 w3 : W)
    (tr : list Action) :
  let tempDir := stagingDir V u in
  extractDriveLetter first = V ->
  V <> EmptyString ->
  NewUUID w = (u, w1) ->
  MkdirAll tempDir 493 w1 = (None, w2) ->
  restic.RunWithProgress r (config.URI repo) (config.Password repo)
    (restoreArgs snapshotID tempDir paths) restoreLine w2
    = Some (None, w3, tr) ->
  restoreToOriginal fuel r repo snapshotID first paths w =
    match moveContents fuel (Join tempDir V) (V ++ ":\")%string w3 with
    | None => None
    | Some (res, w4, tm) =>
        Some (tt, snd (RemoveAll tempDir w4),
              [Sys CNewUUID; Sys (CMkdirAll tempDir 493)]
                ++ tr ++ tm
                ++ [moveVerdict res; Sys (CRemoveAll tempDir)])
    end.
Proof.
  intros tempDir HV Hne HU HMk HR.
  unfold restoreToOriginal. rewrite HV.
  destruct (String.eqb_spec V EmptyString) as [|_]; [contradiction|].
  erewrite bind_Some by (unfold newUUID; rewrite HU; reflexivity).
  fold (stagingDir V u). fold tempDir.
  erewrite bind_Some by (unfold mkdirAll; rewrite HMk; reflexivity).
  rewrite appendFlag_eq. fold (restoreArgs snapshotID tempDir paths).
  unfold defer.
  match goal with
  | |- context [bind ?b (fun x => bind (removeAll tempDir) _)] => set (body := b)
  end.
  assert (Hbody :
    body w2 =
      match moveContents fuel (Join tempDir V) (V ++ ":\")%string w3 with
      | None => None
      | Some (res, w4, tm) => Some (tt, w4, tr ++ tm ++ [moveVerdict res])
      end).
  { subst body.
    erewrite bind_Some by exact HR.
    destruct (moveContents fuel (Join tempDir V) (V ++ ":\")%string w3)
      as [[[res w4] tm]|] eqn:HM.
    - erewrite bind_Some by exact HM.
      destruct res as [e|]; cbv [emit moveVerdict]; cbn [app];
        rewrite <- ?app_assoc; reflexivity.
    - rewrite bind_None by exact HM. rewrite ?app_nil_r. reflexivity. }
  destruct (moveContents fuel (Join tempDir V) (V ++ ":\")%string w3)
    as [[[res w4] tm]|].
  - erewrite bind_Some by exact Hbody.
    unfold bind, removeAll, ret.
    destruct (RemoveAll tempDir w4) as [e5 w5]. cbn [snd app].
    rewrite ?app_nil_r, <- ?app_assoc. cbn [app].
    rewrite <- ?app_assoc. cbn [app]. reflexivity.
  - rewrite bind_None by exact Hbody. reflexivity.
Qed.

Lemma launches_cons (a : Action) (t : list Action) :
  launches (a :: t) =
    match a with Sys (CStart c) => [c] | _ => [] end ++ launches t.
Proof. reflexivity. Qed.

Lemma launches_nil : launches [] = [].
Proof. reflexivity. Qed.

(** Pushes [launches] through a trace written with cons and append. *)
Ltac simpl_launches :=
  repeat (rewrite ?launches_app, ?launches_cons, ?launches_nil; cbn [app]).

(** What [RunWithProgress] returns, by what the host reports for the run. *)
Lemma RunWithProgress_cases (r : restic.Runner) (uri pw : string)
    (args : list string) (onLine : string -> M W unit) (w : W) :
  let cmd := restic.Command r args (restic.repoEnv (Environ w) uri pw) in
  restic.RunWithProgress r uri pw args onLine w =
    match Stream cmd w with
    | (StdoutPipeFailed e, w1) => Some (Some e, w1, [])
    | (StderrPipeFailed e, w1) => Some (Some e, w1, [])
    | (StartFailed e, w1) => Some (Some e, w1, [Sys (CStart cmd)])
    | (Ran stdout stderr cancels late code, w1) =>
        match forEach onLine stdout w1 with
        | Some (_, w2, t) =>
            Some (restic.waitResult
                    (Nat.iter cancels restic.Cancel
                       (restic.register restic.idle))
                    (Nat.iter late restic.Cancel
                       (Nat.iter cancels restic.Cancel
                          (restic.register restic.idle)))
                    code stderr,
                  w2, Sys (CStart cmd) :: t)
        | None => None
        end
    end.
Proof.
  intros cmd. cbv [restic.RunWithProgress bind environ stream ret].
  fold cmd. destruct (Stream cmd w) as [run w1].
  destruct run as [e|e|e|stdout stderr cancels late code]; cbn [started];
    try reflexivity.
  destruct (forEach onLine stdout w1) as [[[[] w2] t]|]; [|reflexivity].
  rewrite app_nil_r. reflexivity.
Qed.

(** A restore that [RunWithProgress] ends without error is a run the host
    started, that no [Cancel] reached while the subprocess was alive and
    that ended with status zero; its steps are the launch and the records
    of its lines. *)
Lemma RunWithProgress_completed (r : restic.Runner) (uri pw : string)
    (args : list string) (w w' : W) (tr : list Action) :
  let cmd := restic.Command r args (restic.repoEnv (Environ w) uri pw) in
  restic.RunWithProgress r uri pw args restoreLine w = Some (None, w', tr) ->
  exists stdout stderr late,
    Stream cmd w = (Ran stdout stderr 0 late 0, w')
    /\ tr = Sys (CStart cmd) :: flat_map restoreRecord stdout.
Proof.
  intros cmd. rewrite RunWithProgress_cases. fold cmd.
  destruct (Stream cmd w) as [run w1].
  destruct run as [e|e|e|stdout stderr cancels late code]; try discriminate.
  rewrite forEach_restoreLine. intros Heq.
  injection Heq as Hres <- <-.
  apply waitResult_None in Hres. destruct Hres as [-> ->].
  exists stdout, stderr, late. split; reflexivity.
Qed.

(** The goroutine of a restore to the original location once the staging
    directory is made, however the restore ends: the staging directory is
    removed last, and the restore is the only subprocess, launched once
    when its pipes can be set up. *)
Lemma restoreToOriginal_shape (fuel : nat) (r : restic.Runner)
    (repo : config.Repository) (snapshotID first : string)
    (paths : list string) (V u : string) (w w1 w2 w' : W) (t : list Action) :
  let tempDir := stagingDir V u in
  let cmd := restic.Command r (restoreArgs snapshotID tempDir paths)
               (restic.repoEnv (Environ w2) (config.URI repo)
                               (config.Password repo)) in
  extractDriveLetter first = V ->
  V <> EmptyString ->
  NewUUID w = (u, w1) ->
  MkdirAll tempDir 493 w1 = (None, w2) ->
  restoreToOriginal fuel r repo snapshotID first paths w = Some (tt, w', t) ->
  launches t = (if started (fst (Stream cmd w2)) then [cmd] else [])
  /\ exists t',
       t = Sys CNewUUID :: Sys (CMkdirAll tempDir 493)
           :: t' ++ [Sys (CRemoveAll tempDir)].
Proof.
  intros tempDir cmd HV Hne HU HMk.
  unfold restoreToOriginal. rewrite HV.
  destruct (String.eqb_spec V EmptyString) as [|_]; [contradiction|].
  erewrite bind_Some by (unfold newUUID; rewrite HU; reflexivity).
  fold (stagingDir V u). fold tempDir.
  erewrite bind_Some by (unfold mkdirAll; rewrite HMk; reflexivity).
  rewrite appendFlag_eq. fold (restoreArgs snapshotID tempDir paths).
  unfold defer.
  match goal with
  | |- context [bind ?b (fun x => bind (removeAll tempDir) _)] => set (body := b)
  end.
  assert (Hbody : forall x w4 tb,
             body w2 = Some (x, w4, tb) ->
             launches tb = (if started (fst (Stream cmd w2)) then [cmd] else [])).
  { subst body. intros x w4 tb. unfold bind at 1.
    rewrite RunWithProgress_cases. fold cmd.
    destruct (Stream cmd w2) as [run w3].
    destruct run as [e|e|e|stdout stderr cancels late code]; cbn [fst started];
      try (cbv [emit]; intros Hb; injection Hb as _ _ <-; reflexivity).
    rewrite forEach_restoreLine.
    destruct (restic.waitResult _ _ code stderr) as [e|].
    { cbv [emit]. intros Hb. injection Hb as _ _ <-.
      simpl_launches.
      rewrite records_quiet. reflexivity. }
    unfold bind at 1.
    destruct (moveContents fuel _ _ w3) as [[[res w5] tm]|] eqn:HM; [|discriminate].
    apply moveContents_file_steps, file_steps_launches in HM.
    destruct res as [e|]; cbv [emit]; intros Hb; injection Hb as _ _ <-;
      simpl_launches;
      rewrite records_quiet, HM; reflexivity. }
  destruct (body w2) as [[[x w4] tb]|] eqn:Hb.
  2:{ rewrite bind_None by exact Hb. discriminate. }
  erewrite bind_Some by exact Hb.
  unfold bind, removeAll, ret.
  destruct (RemoveAll tempDir w4) as [e5 w5].
  intros Heq. injection Heq as _ _ <-.
  split.
  - simpl_launches.
    rewrite ?app_nil_r. exact (Hbody _ _ _ eq_refl).
  - exists tb. cbn [app]. rewrite ?app_nil_r. reflexivity.
Qed.

(** When every rename succeeds the move phase copies nothing and returns
    whatever the recursion bound is. *)
Lemma moveContents_returns (fuel : nat) (src dst : string) (w : W) :
  (forall a b w0, fst (Rename a b w0) = None) ->
  exists res w' t, moveContents fuel src dst w = Some (res, w', t).
Proof.
  intros Hren. unfold moveContents, bind at 1, readDir.
  destruct (ReadDir src w) as [[names e] w1].
  destruct e as [err|].
  { destruct (IsNotExist err); eexists _, _, _; reflexivity. }
  assert (Hloop : forall w0,
             exists res w' t,
               forErr (moveEntry fuel src dst) names w0 = Some (res, w', t)).
  { induction names as [|name rest IH]; intros w0.
    { eexists _, _, _; reflexivity. }
    cbn [forErr]. unfold bind at 1. unfold moveEntry at 1.
    cbv [bind mkdirAll rename ret].
    destruct (MkdirAll _ 493 w0) as [[err|] w2].
    { eexists _, _, _; reflexivity. }
    specialize (Hren (Join src name) (Join dst name) w2).
    destruct (Rename _ _ w2) as [e2 w3]. cbn [fst] in Hren. subst e2.
    destruct (IH w3) as (res & w4 & t4 & Hrest). rewrite Hrest.
    eexists _, _, _; reflexivity. }
  destruct (Hloop w1) as (res & w4 & t4 & Hrest). rewrite Hrest.
  eexists _, _, _; reflexivity.
Qed.

(** C1.  A restore to the original location whose first selected path
    yields the volume identifier [V] (the one byte of its leading segment,
    in upper case) names its staging directory [V],
    then the text that marks a staging directory, then the first eight bytes
    of a fresh UUID, and makes it.  When that succeeds, the restore is the
    only subprocess of the goroutine, launched once, with the arguments restore,
    the snapshot, the staging directory as target, the JSON flag and one
    include pair per selected path in selection order; and the staging
    directory is removed as the last step, however the goroutine ends.  When
    [RunWithProgress] ends the restore without error (the host started it,
    no [Cancel] reached the subprocess and its exit status is zero) the move
    phase runs from the staging
    subdirectory named [V] to the root of volume [V]: it succeeds exactly
    when every entry, in turn, had the parent of its destination made and
    was then renamed, or copied and its source removed when the rename
    failed (or when there was nothing to move).  The completion event is
    emitted after the steps of the move phase and only when that phase
    succeeded; otherwise the failure of the move is reported. *)
Theorem restore_to_original_location (fuel : nat) (a : App)
    (repoID snapshotID targetPath first : string) (others : list string)
    (r : restic.Runner) (repo : config.Repository) (V u : string)
    (w w1 w2 : W) :
  let paths := first :: others in
  let tempDir := stagingDir V u in
  let cmd := restic.Command r (restoreArgs snapshotID tempDir paths)
               (restic.repoEnv (Environ w2) (config.URI repo)
                               (config.Password repo)) in
  runner a = Some r ->
  config.GetRepository (config_ a) repoID = Some repo ->
  extractDriveLetter first = V ->
  V <> EmptyString ->
  NewUUID w = (u, w1) ->
  8 <= String.length u ->
  MkdirAll tempDir 493 w1 = (None, w2) ->
  (String.length (leadingSegment first) = 1
   /\ V = ToUpper (leadingSegment first))
  /\ (exists token,
        tempDir = (V ++ ":\restic-gui-temp-" ++ token)%string
        /\ String.length token = 8)
  /\ Args cmd =
       restic.resticPath r
       :: ["restore"; snapshotID; "--target"; tempDir; "--json"]
       ++ flat_map (fun p => ["--include"; p]) paths
  /\ exists task,
       RestoreSelected fuel a repoID snapshotID paths targetPath true
         = (None, Some task)
       /\ (forall w' t,
             task w = Some (tt, w', t) ->
             launches t = (if started (fst (Stream cmd w2)) then [cmd] else [])
             /\ exists t',
                  t = Sys CNewUUID :: Sys (CMkdirAll tempDir 493)
                      :: t' ++ [Sys (CRemoveAll tempDir)])
       /\ (forall w3 tr,
             restic.RunWithProgress r (config.URI repo) (config.Password repo)
               (restoreArgs snapshotID tempDir paths) restoreLine w2
               = Some (None, w3, tr) ->
             (exists stdout stderr late,
                Stream cmd w2 = (Ran stdout stderr 0 late 0, w3)
                /\ tr = Sys (CStart cmd) :: flat_map restoreRecord stdout)
             /\ match moveContents fuel (Join tempDir V) (V ++ ":\")%string w3
                with
                | None => task w = None
                | Some (res, w4, tm) =>
                    let t := [Sys CNewUUID; Sys (CMkdirAll tempDir 493)]
                               ++ tr ++ tm
                               ++ [moveVerdict res; Sys (CRemoveAll tempDir)] in
                    task w = Some (tt, snd (RemoveAll tempDir w4), t)
                    /\ launches t = [cmd]
                    /\ (res = None <->
                        MovePhase fuel (Join tempDir V) (V ++ ":\")%string
                          w3 w4 tm)
                    /\ (In (EventsEmit "restore:complete" PNil) t
                        <-> res = None)
                end).
Proof.
  intros paths tempDir cmd Hr Hrepo HV Hne HU Hlen HMk.
  split.
  { rewrite extractDriveLetter_segment in HV.
    destruct (Nat.eqb_spec (String.length (leadingSegment first)) 1) as [H1|_];
      [split; [exact H1 | symmetry; exact HV] | congruence]. }
  split.
  { exists (slice_to 8 u). split; [reflexivity|].
    apply substring_length. exact Hlen. }
  split; [reflexivity|].
  unfold RestoreSelected. rewrite Hr, Hrepo. subst paths. cbn iota.
  eexists. split; [reflexivity|].
  split.
  { intros w' t Ht.
    exact (restoreToOriginal_shape fuel r repo snapshotID first (first :: others)
             V u w w1 w2 w' t HV Hne HU HMk Ht). }
  intros w3 tr HR.
  rewrite (restoreToOriginal_completed fuel r repo snapshotID first
             (first :: others) V u w w1 w2 w3 tr HV Hne HU HMk HR).
  fold tempDir.
  pose proof (RunWithProgress_completed r (config.URI repo)
                (config.Password repo)
                (restoreArgs snapshotID tempDir (first :: others)) w2 w3 tr HR)
    as Hrun.
  cbv zeta in Hrun. fold cmd in Hrun.
  split; [exact Hrun|].
  destruct Hrun as (stdout & stderr & late & _ & ->).
  destruct (moveContents fuel (Join tempDir V) (V ++ ":\")%string w3)
    as [[[res w4] tm]|] eqn:HM; [|reflexivity].
  cbv zeta. split; [reflexivity|].
  split.
  { simpl_launches. rewrite records_quiet.
    rewrite (file_steps_launches _ (moveContents_file_steps _ _ _ _ _ _ _ HM)).
    destruct res; reflexivity. }
  split.
  { unfold MovePhase. rewrite <- moveContents_moved. rewrite HM.
    split; [intros ->; reflexivity | intros Heq; injection Heq; auto]. }
  split.
  - intros Hin. destruct res as [e|]; [|reflexivity]. exfalso.
    cbn [app] in Hin.
    destruct Hin as [Hin | [Hin | [Hin | Hin]]]; try discriminate.
    apply in_app_or in Hin. destruct Hin as [Hin | Hin].
    { clear - Hin. induction stdout as [|l ls IH]; [contradiction|].
      cbn [flat_map] in Hin. apply in_app_or in Hin.
      destruct Hin as [Hin | Hin]; [|auto].
      unfold restoreRecord in Hin.
      destruct (UnmarshalRestoreProgress l); [|contradiction].
      destruct Hin as [Hin | []]. discriminate. }
    apply in_app_or in Hin. destruct Hin as [Hin | Hin].
    2:{ cbn in Hin. destruct Hin as [Hin | [Hin | []]]; discriminate. }
    exact (file_steps_no_event _ _ _
             (moveContents_file_steps _ _ _ _ _ _ _ HM) Hin).
  - intros ->. cbn [moveVerdict]. apply in_or_app. right.
    apply in_or_app. right. apply in_or_app. right. left. reflexivity.
Qed.

(** C10.  In the move phase of a restore to the original location a missing
    source directory is success: when [RunWithProgress] ended the restore
    without error and the staging directory has no subdirectory named after
    the derived volume, [moveContents] returns no error without moving
    anything, and the goroutine emits the completion event, not a failure,
    before it removes the staging directory. *)
Theorem missing_source_is_success (fuel : nat) (a : App)
    (repoID snapshotID targetPath first : string) (others : list string)
    (r : restic.Runner) (repo : config.Repository) (V u : string)
    (w w1 w2 w3 w4 : W) (tr : list Action)
    (names : list string) (e : error) :
  let paths := first :: others in
  let tempDir := stagingDir V u in
  runner a = Some r ->
  config.GetRepository (config_ a) repoID = Some repo ->
  extractDriveLetter first = V ->
  V <> EmptyString ->
  NewUUID w = (u, w1) ->
  MkdirAll tempDir 493 w1 = (None, w2) ->
  restic.RunWithProgress r (config.URI repo) (config.Password repo)
    (restoreArgs snapshotID tempDir paths) restoreLine w2
    = Some (None, w3, tr) ->
  ReadDir (Join tempDir V) w3 = (names, Some e, w4) ->
  IsNotExist e = true ->
  moveContents fuel (Join tempDir V) (V ++ ":\")%string w3
    = Some (None, w4, [Sys (CReadDir (Join tempDir V))])
  /\ exists task,
       RestoreSelected fuel a repoID snapshotID paths targetPath true
         = (None, Some task)
       /\ task w =
            Some (tt, snd (RemoveAll tempDir w4),
                  [Sys CNewUUID; Sys (CMkdirAll tempDir 493)]
                    ++ tr
                    ++ [Sys (CReadDir (Join tempDir V));
                        EventsEmit "restore:complete" PNil;
                        Sys (CRemoveAll tempDir)]).
Proof.
  intros paths tempDir Hr Hrepo HV Hne HU HMk HR HRd Hmiss.
  assert (HM : moveContents fuel (Join tempDir V) (V ++ ":\")%string w3
               = Some (None, w4, [Sys (CReadDir (Join tempDir V))])).
  { rewrite (moveContents_unreadable fuel _ _ w3 w4 names e HRd).
    rewrite Hmiss. reflexivity. }
  split; [exact HM|].
  unfold RestoreSelected. rewrite Hr, Hrepo. subst paths. cbn iota.
  eexists. split; [reflexivity|].
  rewrite (restoreToOriginal_completed fuel r repo snapshotID first
             (first :: others) V u w w1 w2 w3 tr HV Hne HU HMk HR).
  fold tempDir. rewrite HM. reflexivity.
Qed.

End OrchestratorFacts.

(* ================================================================== *)
(** * The properties on the executable host *)
(* ================================================================== *)

Section Scenarios.
Import Sim.

(** The translator on engine texts. *)
Example friendlyError_examples :
  restic.friendlyError "Fatal: wrong password or no key found" = restic.msg_wrong_password
  /\ restic.friendlyError "Fatal: unable to open config file: Stat: CreateFile G:\repo\config: The system cannot find the file specified." = "Fatal: unable to open config file: Stat: CreateFile G:\repo\config: The system cannot find the file specified."
  /\ restic.friendlyError "Fatal: repository does not exist: NETWORK down" = restic.msg_not_initialized
  /\ restic.friendlyError "dial tcp 10.0.0.2:22: i/o timeout" = restic.msg_network
  /\ restic.friendlyError "open G:\x: Permission Denied" = restic.msg_access
  /\ restic.friendlyError "Fatal: config file already exists: already initialized" = restic.msg_exists
  /\ restic.friendlyError "repository is already locked by PID 4" = restic.msg_locked
  /\ restic.friendlyError EmptyString = "Unknown error".
Proof. vm_compute. repeat split. Qed.

(** The counterexample to C4 as stated.  The engine prints a text that
    contains a known substring and exits with status 1; the message [Run]
    surfaces is that very text.  And for a text no row applies to, the
    message is the trimmed text, not the raw one. *)
Lemma Run_message_is_raw_text :
  let raw := "Wrong password for this repository." in
  let w := with_engine (with_combined world0 raw) (engine_ends 0 1 []) in
  let noisy := ("Fatal: boom" ++ String (ascii_of_nat 10) EmptyString)%string in
  let w' := with_engine (with_combined world0 noisy) (engine_ends 0 1 []) in
  strings.Contains (ToLower raw) "wrong password" = true
  /\ option_map (fun x => fst (fst x))
                (restic.Run runner0 "sftp:nas:/srv/restic" "hunter2" ["cat"; "config"] w)
     = Some (EmptyString, Some (ErrCommandFailed raw))
  /\ option_map (fun x => fst (fst x))
                (restic.Run runner0 "sftp:nas:/srv/restic" "hunter2" ["cat"; "config"] w')
     = Some (EmptyString, Some (ErrCommandFailed "Fatal: boom"))
  /\ restic.friendlyError noisy = noisy.
Proof. vm_compute. repeat split. Qed.


(** The same subprocess in the three other ways a run can end: without any
    cancellation the status decides, and a cancellation that comes after
    the subprocess ended leaves a completion as it is and replaces a
    failure. *)
Lemma RunWithProgress_endings :
  let run e :=
    option_map (fun x => fst (fst x))
      (restic.RunWithProgress runner0 "sftp:nas:/srv/restic" "hunter2"
         ["restore"; "snap1"; "--target"; "G:\out"; "--json"] restoreLine
         (with_engine world0 e)) in
  run (engine_ends 0 0 []) = Some None
  /\ run (engine_ends 0 1 ["Fatal: wrong password"])
     = Some (Some (ErrCommandFailed restic.msg_wrong_password))
  /\ run (engine_ends 1 1 ["Fatal: wrong password"]) = Some (Some ErrCancelled)
  /\ run (engine_ends_before_cancel 0 []) = Some None
  /\ run (engine_ends_before_cancel 1 ["Fatal: wrong password"])
     = Some (Some ErrCancelled).
Proof. vm_compute. repeat split. Qed.

(** The counterexample to C3 as stated: a line that is valid JSON and yields
    no record, for a restore and for a backup. *)
Lemma valid_json_without_record :
  Valid "[]" = true
  /\ List.length (restoreRecord "[]") <> 1
  /\ restoreRecord "[]" = []
  /\ backupRecord "[]" = []
  /\ Valid (quoted "{'total_files':'three'}") = true
  /\ restoreRecord (quoted "{'total_files':'three'}") = []
  /\ option_map snd (forEach restoreLine ["[]"; quoted "{'total_files':3}"] world0)
     = Some (restoreRecord (quoted "{'total_files':3}"))
  /\ List.length (restoreRecord (quoted "{'total_files':3}")) = 1.
Proof. vm_compute. repeat split. discriminate. Qed.

(** C9 on the executable host. *)
Lemma ListSnapshotContents_nodes_witness :
  let w := with_combined world0
             (listing_first ++ String (ascii_of_nat 10) listing_rest) in
  option_map (fun x => (map FileNode.Path (fst (fst (fst x))), snd (fst (fst x))))
             (ListSnapshotContents app0 "r1" "snap1" w)
  = Some (["/G/docs"; "/G/docs/report.pdf"], None).
Proof.
  intros w.
  pose proof (ListSnapshotContents_nodes app0 "r1" "snap1" runner0 repo0 w w
                listing_first listing_rest) as Hthm.
  cbv zeta in Hthm.
  specialize (Hthm ltac:(vm_compute; reflexivity) ltac:(vm_compute; reflexivity)
                ltac:(vm_compute; reflexivity) ltac:(vm_compute; reflexivity)).
  destruct Hthm as [Hrun _].
  { intros node Hd. vm_compute in Hd. injection Hd as <-. reflexivity. }
  rewrite Hrun. vm_compute. reflexivity.
Defined.

(** C6 on the executable host: a network-style path. *)
Lemma drive_letter_unresolved_witness :
  exists task,
    RestoreSelected 3 app0 "r1" "snap1" ["\\nas\share\docs\report.pdf"]
                    EmptyString true = (None, Some task)
    /\ task world0 =
         Some (tt, world0,
               [EventsEmit "restore:error"
                  (PString "Could not determine drive letter from path")]).
Proof.
  pose proof (drive_letter_unresolved 3 app0 "r1" "snap1" EmptyString
                "\\nas\share\docs\report.pdf" [] runner0 repo0 world0) as Hthm.
  apply Hthm; [vm_compute; reflexivity | vm_compute; reflexivity
             | vm_compute; discriminate].
Defined.

(** The counterexample to C7 as stated: in custom-target mode an empty
    target directory starts the restore. *)
Lemma empty_target_starts_restore :
  match RestoreSelected 3 app0 "r1" "snap1" ["/G/todo.txt"] EmptyString false with
  | (None, Some task) => option_map (fun x => map Args (launches (snd x))) (task world0)
  | _ => None
  end
  = Some [["C:\restic.exe"; "restore"; "snap1"; "--target"; EmptyString; "--json";
           "--include"; "/G/todo.txt"]].
Proof. vm_compute. reflexivity. Qed.

(** The page does not make that call. *)
Example startRestore_examples :
  SelectiveRestore.startRestore
    {| SelectiveRestore.selectedRepo := "r1"; SelectiveRestore.selectedSnap := "snap1";
       SelectiveRestore.checked := ["/G/todo.txt"];
       SelectiveRestore.targetPath := EmptyString;
       SelectiveRestore.restoreMode := SelectiveRestore.custom |}
  = SelectiveRestore.Toast "Please select a target folder"
  /\ SelectiveRestore.startRestore
       {| SelectiveRestore.selectedRepo := "r1"; SelectiveRestore.selectedSnap := "snap1";
          SelectiveRestore.checked := ["/G/todo.txt"];
          SelectiveRestore.targetPath := EmptyString;
          SelectiveRestore.restoreMode := SelectiveRestore.original |}
     = SelectiveRestore.CallRestoreSelected "r1" "snap1" ["/G/todo.txt"] EmptyString true.
Proof. split; reflexivity. Qed.

(** C1 on the executable host: the scenario of the specification.  The
    directory [docs] exists on the volume, so its rename fails and it is
    copied; [todo.txt] is renamed.  Afterwards the restored files are on the
    volume and nothing of the staging directory is left. *)
Lemma restore_to_original_location_witness :
  exists task,
    RestoreSelected 3 app0 "r1" "snap1"
      ["/G/docs/report.pdf"; "/G/docs/notes.txt"; "/G/todo.txt"] EmptyString true
      = (None, Some task)
    /\ option_map (fun x => fs (snd (fst x))) (task world0)
       = Some [ ("G:\", Directory); ("G:\docs", Directory);
                ("G:\docs\report.pdf", File "report");
                ("G:\todo.txt", File "todo");
                ("G:\docs\notes.txt", File "notes") ]
    /\ option_map (fun x => map Args (launches (snd x))) (task world0)
       = Some [["C:\restic.exe"; "restore"; "snap1"; "--target";
                "G:\restic-gui-temp-ab12cd34"; "--json";
                "--include"; "/G/docs/report.pdf";
                "--include"; "/G/docs/notes.txt";
                "--include"; "/G/todo.txt"]]
    /\ option_map (fun x => skipn (List.length (snd x) - 2) (snd x)) (task world0)
       = Some [ EventsEmit "restore:complete" PNil;
                Sys (CRemoveAll "G:\restic-gui-temp-ab12cd34") ].
Proof.
  pose proof (restore_to_original_location 3 app0 "r1" "snap1" EmptyString
                "/G/docs/report.pdf" ["/G/docs/notes.txt"; "/G/todo.txt"]
                runner0 repo0 "G" (uuid world0) world0 world0
                (snd (mkdir_all "G:\restic-gui-temp-ab12cd34" 493 world0)))
    as Hthm.
  cbv zeta in Hthm.
  specialize (Hthm ltac:(vm_compute; reflexivity) ltac:(vm_compute; reflexivity)
                ltac:(vm_compute; reflexivity) ltac:(discriminate)
                ltac:(vm_compute; reflexivity) ltac:(vm_compute; lia)
                ltac:(vm_compute; reflexivity)).
  destruct Hthm as [_ [_ [_ [task [Htask [_ Hclean]]]]]].
  exists task. split; [exact Htask|].
  pose (run := restic.RunWithProgress runner0 (config.URI repo0)
                 (config.Password repo0)
                 (restoreArgs "snap1" "G:\restic-gui-temp-ab12cd34"
                    ["/G/docs/report.pdf"; "/G/docs/notes.txt"; "/G/todo.txt"])
                 restoreLine
                 (snd (mkdir_all "G:\restic-gui-temp-ab12cd34" 493 world0))).
  specialize (Hclean
                (match run with Some (_, w3, _) => w3 | None => world0 end)
                (match run with Some (_, _, tr) => tr | None => [] end)
                ltac:(vm_compute; reflexivity)).
  destruct Hclean as [_ Hclean].
  match type of Hclean with
  | match ?m with _ => _ end =>
      let v := eval vm_compute in m in
      replace m with v in Hclean by (vm_compute; reflexivity)
  end.
  cbv beta iota zeta in Hclean.
  destruct Hclean as [Hrun _]. rewrite Hrun.
  vm_compute. repeat split.
Defined.

(** C10 on the executable host: the engine exits with status zero and has
    written nothing below the staging directory. *)
Lemma missing_source_is_success_witness :
  let w := with_engine world0 (engine_ends 0 0 []) in
  exists task,
    RestoreSelected 0 app0 "r1" "snap1" ["/G/todo.txt"] EmptyString true
      = (None, Some task)
    /\ option_map (fun x => skipn (List.length (snd x) - 3) (snd x)) (task w)
       = Some [ Sys (CReadDir "G:\restic-gui-temp-ab12cd34\G");
                EventsEmit "restore:complete" PNil;
                Sys (CRemoveAll "G:\restic-gui-temp-ab12cd34") ]
    /\ option_map (fun x => fs (snd (fst x))) (task w) = Some (fs world0).
Proof.
  intros w.
  pose proof (missing_source_is_success 0 app0 "r1" "snap1" EmptyString
                "/G/todo.txt" [] runner0 repo0 "G" (uuid w) w w
                (snd (mkdir_all "G:\restic-gui-temp-ab12cd34" 493 w))
                (snd (mkdir_all "G:\restic-gui-temp-ab12cd34" 493 w))
                (snd (mkdir_all "G:\restic-gui-temp-ab12cd34" 493 w))
                (match restic.RunWithProgress runner0 (config.URI repo0)
                         (config.Password repo0)
                         (restoreArgs "snap1" "G:\restic-gui-temp-ab12cd34"
                            ["/G/todo.txt"])
                         restoreLine
                         (snd (mkdir_all "G:\restic-gui-temp-ab12cd34" 493 w))
                 with
                 | Some (_, _, tr) => tr
                 | None => []
                 end)
                []
                (not_found "G:\restic-gui-temp-ab12cd34\G")) as Hthm.
  cbv zeta in Hthm.
  specialize (Hthm ltac:(vm_compute; reflexivity) ltac:(vm_compute; reflexivity) ltac:(vm_compute; reflexivity)
                ltac:(discriminate) ltac:(vm_compute; reflexivity) ltac:(vm_compute; reflexivity) ltac:(vm_compute; reflexivity) ltac:(vm_compute; reflexivity) ltac:(vm_compute; reflexivity)).
  destruct Hthm as [_ [task [Htask Hrun]]].
  exists task. split; [exact Htask|].
  rewrite Hrun. vm_compute. repeat split.
Defined.

End Scenarios.

(* ================================================================== *)
(** * Lines, drive letters and messages *)
(* ================================================================== *)

Section TextFacts.
Context `{GoLib} {W : Type} `{Host W}.

Lemma append_empty_r (s : string) : (s ++ EmptyString)%string = s.
Proof. induction s as [|c s IH]; cbn; [reflexivity | rewrite IH; reflexivity]. Qed.

Lemma no_newline_append (a b : string) :
  no_newline (a ++ b) = no_newline a && no_newline b.
Proof.
  induction a as [|c a IH]; cbn; [reflexivity|].
  rewrite IH, andb_assoc. reflexivity.
Qed.

Lemma no_newline_ends (s : string) :
  no_newline s = true -> ends_with_newline s = false.
Proof.
  induction s as [|c s IH]; [reflexivity|].
  cbn [no_newline]. intros Hs. apply andb_true_iff in Hs. destruct Hs as [Hc Hs].
  apply negb_true_iff in Hc.
  destruct s as [|d s]; [exact Hc | exact (IH Hs)].
Qed.

Lemma ends_with_newline_append (a : string) (c : ascii) (b : string) :
  ends_with_newline (a ++ String c b) = ends_with_newline (String c b).
Proof.
  induction a as [|x a IH]; [reflexivity|].
  cbn [append]. destruct a as [|y a]; exact IH.
Qed.

Lemma append_not_empty (a : string) (c : ascii) (b : string) :
  String.eqb (a ++ String c b) EmptyString = false.
Proof. destruct a; reflexivity. Qed.

(** The loop of [splitLines] from any point on: [cur] is the line being
    read, [rest] what is still to be scanned. *)
Lemma splitLines_loop_unlines (rest cur : string) :
  no_newline cur = true ->
  Forall (fun l => no_newline l = true) (splitLines_loop rest cur [])
  /\ unlines (splitLines_loop rest cur []) = terminated (cur ++ rest).
Proof.
  revert cur. induction rest as [|c t IH]; intros cur Hcur.
  - cbn [splitLines_loop]. rewrite append_empty_r. unfold terminated.
    destruct (String.eqb_spec cur EmptyString) as [->|Hne].
    + split; [constructor | reflexivity].
    + split; [repeat constructor; exact Hcur|].
      rewrite (no_newline_ends _ Hcur). reflexivity.
  - cbn [splitLines_loop]. fold newline.
    destruct (Ascii.eqb_spec c newline) as [->|Hc].
    + rewrite splitLines_loop_acc. cbn [app].
      destruct (IH EmptyString eq_refl) as [Hall Hun]. split.
      * constructor; assumption.
      * cbn [unlines]. rewrite Hun. cbn [append]. unfold terminated.
        rewrite append_not_empty, ends_with_newline_append.
        destruct t as [|d t]; [reflexivity|].
        change (ends_with_newline (String newline (String d t)))
          with (ends_with_newline (String d t)).
        change (String.eqb (String d t) EmptyString) with false. cbv iota.
        destruct (ends_with_newline (String d t)); [reflexivity|].
        rewrite append_assoc. reflexivity.
    + assert (Hcur' : no_newline (cur ++ String c EmptyString) = true).
      { rewrite no_newline_append, Hcur. cbn [no_newline andb].
        destruct (Ascii.eqb_spec c newline); [contradiction | reflexivity]. }
      destruct (IH _ Hcur') as [Hall Hun]. split; [exact Hall|].
      rewrite Hun, append_assoc. reflexivity.
Qed.

(** X1.  No line [splitLines] returns holds a newline, and the lines, each
    followed by a newline, spell the input again, with a final newline
    supplied when a non-empty input lacks one: empty lines inside the text
    are kept, and only the difference between a terminated and an
    unterminated last line is lost. *)
Theorem splitLines_rejoin (s : string) :
  Forall (fun l => no_newline l = true) (splitLines s)
  /\ unlines (splitLines s) = terminated s.
Proof. exact (splitLines_loop_unlines s EmptyString eq_refl). Qed.

(** X2.  Splitting inverts joining: lines that hold no newline, each
    written with a newline after it, are returned as they were, the empty
    ones included. *)
Theorem splitLines_unlines (ls : list string) :
  Forall (fun l => no_newline l = true) ls ->
  splitLines (unlines ls) = ls.
Proof.
  induction 1 as [|l ls Hl _ IH]; [reflexivity|].
  cbn [unlines]. rewrite splitLines_first by exact Hl. rewrite IH. reflexivity.
Qed.

Lemma ReplaceAll_not_sep (t : string) (c : ascii) :
  is_separator c = false ->
  strings.ReplaceAll (String c t) "\"%char "/" =
    String c (strings.ReplaceAll t "\"%char "/").
Proof.
  unfold is_separator. intros Hc. apply orb_false_iff in Hc.
  destruct Hc as [_ Hc]. cbn [strings.ReplaceAll]. rewrite Hc. reflexivity.
Qed.

Lemma ReplaceAll_sep (t : string) (c : ascii) :
  is_separator c = true ->
  strings.ReplaceAll (String c t) "\"%char "/" =
    String "/" (strings.ReplaceAll t "\"%char "/").
Proof.
  unfold is_separator. intros Hc. cbn [strings.ReplaceAll].
  destruct (Ascii.eqb c "\"); [reflexivity|].
  rewrite orb_false_r in Hc. apply Ascii.eqb_eq in Hc. rewrite Hc. reflexivity.
Qed.

Lemma TrimPrefix_slash (t : string) :
  strings.TrimPrefix (String "/" t) "/" = t.
Proof.
  unfold strings.TrimPrefix, strings.HasPrefix. cbn.
  rewrite Nat.sub_0_r. clear.
  induction t as [|c t IH]; [reflexivity|].
  cbn. f_equal. destruct t; [reflexivity | exact IH].
Qed.

Lemma TrimPrefix_other (c : ascii) (t : string) :
  Ascii.eqb c "/" = false ->
  strings.TrimPrefix (String c t) "/" = String c t.
Proof.
  intros Hc. unfold strings.TrimPrefix, strings.HasPrefix.
  cbn [String.prefix].
  destruct (ascii_dec "/" c) as [<-|_]; [discriminate | reflexivity].
Qed.

Lemma SplitN2_cons (c : ascii) (t : string) :
  Ascii.eqb c "/" = false ->
  hd EmptyString (strings.SplitN2 (String c t) "/"%char) =
    String c (hd EmptyString (strings.SplitN2 t "/"%char)).
Proof.
  intros Hc. cbn [strings.SplitN2]. rewrite Hc.
  destruct (strings.SplitN2 t "/"); reflexivity.
Qed.

(** The leading segment of what follows an optional leading separator. *)
Lemma leadingSegment_lead (c : ascii) (t : string) :
  is_separator c = true ->
  leadingSegment (String c t) =
    hd EmptyString (strings.SplitN2 (strings.ReplaceAll t "\"%char "/") "/"%char).
Proof.
  intros Hc. unfold leadingSegment.
  rewrite ReplaceAll_sep by exact Hc. rewrite TrimPrefix_slash. reflexivity.
Qed.

Lemma leadingSegment_cons (c : ascii) (t : string) :
  is_separator c = false ->
  leadingSegment (String c t) =
    String c (hd EmptyString
                 (strings.SplitN2 (strings.ReplaceAll t "\"%char "/") "/"%char)).
Proof.
  intros Hc. unfold leadingSegment.
  rewrite ReplaceAll_not_sep by exact Hc.
  unfold is_separator in Hc. apply orb_false_iff in Hc. destruct Hc as [Hc _].
  rewrite TrimPrefix_other by exact Hc. apply SplitN2_cons. exact Hc.
Qed.

Lemma segment_at_sep (c : ascii) (t : string) :
  is_separator c = true ->
  hd EmptyString
     (strings.SplitN2 (strings.ReplaceAll (String c t) "\"%char "/") "/"%char)
    = EmptyString.
Proof.
  intros Hc. rewrite ReplaceAll_sep by exact Hc. reflexivity.
Qed.

Lemma segment_at_other (c : ascii) (t : string) :
  is_separator c = false ->
  hd EmptyString
     (strings.SplitN2 (strings.ReplaceAll (String c t) "\"%char "/") "/"%char)
    = String c (hd EmptyString
                  (strings.SplitN2 (strings.ReplaceAll t "\"%char "/") "/"%char)).
Proof.
  intros Hc. rewrite ReplaceAll_not_sep by exact Hc.
  unfold is_separator in Hc. apply orb_false_iff in Hc. destruct Hc as [Hc _].
  apply SplitN2_cons. exact Hc.
Qed.

(** X3.  What [extractDriveLetter] reads from a path.  It reads a drive
    letter from one byte [c] that is no separator, alone or followed by a
    slash or a backslash and anything, with or without one separator in
    front: the result is the upper-case form of that byte, and both
    separators count alike.  It reads none from the empty path, from a
    path whose leading segment has two bytes or more (so not from a native
    path such as [C:\Users], whose leading segment is [C:]), from a lone
    separator, or from a path that starts with two separators. *)
Theorem extractDriveLetter_forms (c d sep lead : ascii) (rest : string) :
  is_separator c = false ->
  is_separator d = false ->
  is_separator sep = true ->
  is_separator lead = true ->
  let V := ToUpper (String c EmptyString) in
  (extractDriveLetter (String c EmptyString) = V
   /\ extractDriveLetter (String c (String sep rest)) = V
   /\ extractDriveLetter (String lead (String c EmptyString)) = V
   /\ extractDriveLetter (String lead (String c (String sep rest))) = V)
  /\ (extractDriveLetter EmptyString = EmptyString
      /\ extractDriveLetter (String c (String d rest)) = EmptyString
      /\ extractDriveLetter (String lead (String c (String d rest))) = EmptyString
      /\ extractDriveLetter (String lead EmptyString) = EmptyString
      /\ extractDriveLetter (String lead (String sep rest)) = EmptyString).
Proof.
  intros Hc Hd Hsep Hlead V.
  rewrite !extractDriveLetter_segment.
  rewrite !(leadingSegment_lead lead) by exact Hlead.
  rewrite !(leadingSegment_cons c) by exact Hc.
  rewrite !(segment_at_other c) by exact Hc.
  rewrite !(segment_at_other d) by exact Hd.
  rewrite !(segment_at_sep sep) by exact Hsep.
  cbn. auto 10.
Qed.

Lemma translate_not_empty (raw : string) :
  restic.translate raw <> EmptyString.
Proof.
  unfold restic.translate.
  destruct (find (restic.applies raw) restic.translations) as [row|] eqn:Hf.
  - apply find_some in Hf. destruct Hf as [Hin _].
    cbn in Hin.
    repeat (destruct Hin as [<-|Hin]; [discriminate|]). contradiction.
  - destruct (String.eqb_spec raw EmptyString); [discriminate | assumption].
Qed.

(** X4.  An error reported for an engine run that ended is never blank:
    [friendlyError] returns no empty text, so neither the error of [Run]
    nor the error [RunWithProgress] derives from the exit status has an
    empty message; and [Run] returns no output along with an error. *)
Theorem engine_errors_not_blank :
  (forall raw, restic.friendlyError raw <> EmptyString)
  /\ (forall (r : restic.Runner) uri pw args (w w' : W) out e t,
        restic.Run r uri pw args w = Some ((out, Some e), w', t) ->
        Error e <> EmptyString /\ out = EmptyString)
  /\ (forall atWait atCheck code stderr e,
        restic.waitResult atWait atCheck code stderr = Some e ->
        Error e <> EmptyString).
Proof.
  assert (Hfe : forall raw, restic.friendlyError raw <> EmptyString).
  { intros raw. rewrite friendlyError_translate. apply translate_not_empty. }
  split; [exact Hfe|]. split.
  - intros r uri pw args w w' out e t. rewrite Run_eq.
    destruct (exit_failed _); intros Heq; [|discriminate].
    injection Heq as <- <- _ _. split; [apply Hfe | reflexivity].
  - intros atWait atCheck code stderr e. unfold restic.waitResult.
    destruct (restic.waitFailed _ _); [|discriminate].
    destruct (restic.ctxDone atCheck); intros Heq; injection Heq as <-;
      [discriminate | apply Hfe].
Qed.

(** X5.  Translating twice is translating once, for a [ToLower] that maps
    the seven fixed messages as their ASCII letters dictate: each fixed
    message contains no trigger of an earlier row, and passed-through text
    is text no row applies to. *)
Theorem friendlyError_idempotent (raw : string) :
  (forall m, In m fixedMessages -> ToLower m = json.map_bytes json.lower m) ->
  restic.friendlyError (restic.friendlyError raw) = restic.friendlyError raw.
Proof.
  intros Hlow.
  assert (Hfix : forall m, In m fixedMessages -> restic.friendlyError m = m).
  { intros m Hin. unfold restic.friendlyError. cbv zeta.
    rewrite (Hlow m Hin).
    cbn in Hin.
    repeat (destruct Hin as [<-|Hin]; [vm_compute; reflexivity|]).
    contradiction. }
  rewrite (friendlyError_translate raw). unfold restic.translate.
  destruct (find (restic.applies raw) restic.translations) as [row|] eqn:Hf.
  - apply Hfix. apply find_some in Hf. destruct Hf as [Hin _].
    unfold fixedMessages. apply in_or_app. left. apply in_map. exact Hin.
  - destruct (String.eqb_spec raw EmptyString) as [->|Hne].
    + apply Hfix. unfold fixedMessages. apply in_or_app. right. left. reflexivity.
    + rewrite friendlyError_translate. unfold restic.translate. rewrite Hf.
      destruct (String.eqb_spec raw EmptyString); [contradiction | reflexivity].
Qed.

End TextFacts.

(* ================================================================== *)
(** * What a goroutine reports *)
(* ================================================================== *)

Section ReportFacts.
Context `{GoLib} {W : Type} `{Host W}.

Lemma events_app (t1 t2 : list Action) :
  events (t1 ++ t2) = events t1 ++ events t2.
Proof. apply filter_app. Qed.

Lemma events_sys (c : Call) (t : list Action) :
  events (Sys c :: t) = events t.
Proof. reflexivity. Qed.

Lemma events_emit (name : string) (data : Payload) (t : list Action) :
  events (EventsEmit name data :: t) = EventsEmit name data :: events t.
Proof. reflexivity. Qed.

Lemma events_nil : events [] = [].
Proof. reflexivity. Qed.

(** Pushes [events] through a trace written with cons and append. *)
Ltac simpl_events :=
  repeat (rewrite ?events_app, ?events_sys, ?events_emit, ?events_nil;
          cbn [app]).

Lemma events_file_steps (t : list Action) :
  file_steps t = true -> events t = [].
Proof.
  induction t as [|a t IH]; [reflexivity|].
  cbn [file_steps forallb]. intros Ha. apply andb_true_iff in Ha.
  destruct Ha as [Ha Ht].
  destruct a as [c|]; [rewrite events_sys; exact (IH Ht) | discriminate].
Qed.

Lemma events_restoreRecords (lines : list string) :
  events (flat_map restoreRecord lines) = flat_map restoreRecord lines.
Proof.
  induction lines as [|l ls IH]; [reflexivity|].
  cbn [flat_map]. rewrite events_app, IH. f_equal.
  unfold restoreRecord. destruct (UnmarshalRestoreProgress l); reflexivity.
Qed.

Lemma events_backupRecords (lines : list string) :
  events (flat_map backupRecord lines) = flat_map backupRecord lines.
Proof.
  induction lines as [|l ls IH]; [reflexivity|].
  cbn [flat_map]. rewrite events_app, IH. f_equal.
  unfold backupRecord. destruct (UnmarshalBackupProgress l); reflexivity.
Qed.

Lemma restoreRecords_not_terminal (lines : list string) :
  Forall (fun a => ~ terminal "restore" a) (flat_map restoreRecord lines).
Proof.
  induction lines as [|l ls IH]; [constructor|].
  cbn [flat_map]. apply Forall_app. split; [|exact IH].
  unfold restoreRecord. destruct (UnmarshalRestoreProgress l); [|constructor].
  constructor; [|constructor].
  intros [Heq | [msg Heq]]; discriminate.
Qed.

Lemma backupRecords_not_terminal (lines : list string) :
  Forall (fun a => ~ terminal "backup" a) (flat_map backupRecord lines).
Proof.
  induction lines as [|l ls IH]; [constructor|].
  cbn [flat_map]. apply Forall_app. split; [|exact IH].
  unfold backupRecord. destruct (UnmarshalBackupProgress l); [|constructor].
  constructor; [|constructor].
  intros [Heq | [msg Heq]]; discriminate.
Qed.

Lemma terminal_error (op msg : string) :
  terminal op (EventsEmit (op ++ ":error") (PString msg)).
Proof. right. exists msg. reflexivity. Qed.

Lemma terminal_complete (op : string) :
  terminal op (EventsEmit (op ++ ":complete") PNil).
Proof. left. reflexivity. Qed.

Lemma reported_restore (lines : list string) (last : Action) (t : list Action) :
  events t = flat_map restoreRecord lines ++ [last] ->
  terminal "restore" last ->
  Reported "restore" restoreRecord t.
Proof.
  intros Hev Hlast. exists lines, last.
  split; [exact Hev|]. split; [exact Hlast|]. apply restoreRecords_not_terminal.
Qed.

(** The body of the goroutines that stream a restore and report its outcome,
    for a run that comes back. *)
Lemma streamed_restore (r : restic.Runner) (uri pw : string)
    (args : list string) (w w' : W) (t : list Action) :
  (err <- restic.RunWithProgress r uri pw args restoreLine ;;
   match err with
   | Some e => emit "restore:error" (PString (Error e))
   | None => emit "restore:complete" PNil
   end)%go w = Some (tt, w', t) ->
  Reported "restore" restoreRecord t.
Proof.
  unfold bind at 1. rewrite RunWithProgress_cases.
  destruct (Stream _ w) as [run w1].
  destruct run as [e|e|e|stdout stderr cancels late code].
  1-3: cbv [emit]; intros Hb; injection Hb as _ <-;
       apply (reported_restore []
                (EventsEmit "restore:error" (PString (Error e))));
       [reflexivity | apply (terminal_error "restore")].
  rewrite forEach_restoreLine.
  destruct (restic.waitResult _ _ code stderr) as [e|];
    cbv [emit]; intros Hb; injection Hb as _ <-;
    eapply (reported_restore stdout);
    [ simpl_events; rewrite events_restoreRecords; reflexivity
    | apply (terminal_error "restore")
    | simpl_events; rewrite events_restoreRecords; reflexivity
    | apply (terminal_complete "restore") ].
Qed.

(** X6.  Whenever the goroutine of [StartBackup] returns, its events are
    backup progress records followed by exactly one terminal event of the
    backup, completion or error, after which it emits nothing. *)
Theorem backup_reports_once (a : App) (job : BackupJob.t) (task : M W unit)
    (w w' : W) (t : list Action) :
  StartBackup a job = (None, Some task) ->
  task w = Some (tt, w', t) ->
  Reported "backup" backupRecord t.
Proof.
  unfold StartBackup.
  destruct (runner a) as [r|]; [|discriminate].
  destruct (config.GetRepository _ _) as [repo|]; [|discriminate].
  intros Heq. injection Heq as <-.
  unfold bind at 1. rewrite RunWithProgress_cases.
  destruct (Stream _ w) as [run w1].
  destruct run as [e|e|e|stdout stderr cancels late code].
  1-3: cbv [emit]; intros Hb; injection Hb as _ <-;
       exists [], (EventsEmit "backup:error" (PString (Error e)));
       split; [reflexivity|]; split;
       [apply (terminal_error "backup") | constructor].
  rewrite forEach_backupLine.
  destruct (restic.waitResult _ _ code stderr) as [e|];
    cbv [emit]; intros Hb; injection Hb as _ <-;
    exists stdout; eexists;
    (split; [simpl_events; rewrite events_backupRecords; reflexivity|]);
    (split; [|apply backupRecords_not_terminal]);
    [apply (terminal_error "backup") | apply (terminal_complete "backup")].
Qed.

(** X7.  Whenever the goroutine of [StartRestore] or the goroutine of
    [RestoreSelected] for a custom target returns, its events are restore
    progress records followed by exactly one terminal event of the
    restore. *)
Theorem restore_reports_once (fuel : nat) (a : App)
    (repoID snapshotID targetPath : string)
    (includePaths : list string) (task : M W unit) (w w' : W)
    (t : list Action) :
  StartRestore a repoID snapshotID targetPath = (None, Some task)
  \/ RestoreSelected fuel a repoID snapshotID includePaths targetPath false
       = (None, Some task) ->
  task w = Some (tt, w', t) ->
  Reported "restore" restoreRecord t.
Proof.
  intros [Heq|Heq]; revert Heq.
  - unfold StartRestore.
    destruct (runner a) as [r|]; [|discriminate].
    destruct (config.GetRepository _ _) as [repo|]; [|discriminate].
    intros Heq. injection Heq as <-. apply streamed_restore.
  - unfold RestoreSelected.
    destruct (runner a) as [r|]; [|discriminate].
    destruct (config.GetRepository _ _) as [repo|]; [|discriminate].
    destruct includePaths as [|first others]; [discriminate|].
    intros Heq. injection Heq as <-. apply streamed_restore.
Qed.

(** X8.  The goroutine of a restore to the original location, whenever it
    returns and however it ends (no drive letter, no staging directory, a
    failed or cancelled restore, a failed or a completed move), has emitted
    restore progress records followed by exactly one terminal event of the
    restore; what it does after that event, the removal of the staging
    directory, emits nothing. *)
Theorem restore_to_original_reports_once (fuel : nat) (r : restic.Runner)
    (repo : config.Repository) (snapshotID first : string)
    (includePaths : list string) (w w' : W) (t : list Action) :
  restoreToOriginal fuel r repo snapshotID first includePaths w = Some (tt, w', t) ->
  Reported "restore" restoreRecord t.
Proof.
  unfold restoreToOriginal.
  destruct (String.eqb _ EmptyString).
  { cbv [emit]. intros Heq. injection Heq as _ <-.
    eapply (reported_restore []);
           [reflexivity | apply (terminal_error "restore")]. }
  unfold bind at 1, newUUID. destruct (NewUUID w) as [u w1].
  unfold bind at 1, mkdirAll. destruct (MkdirAll _ 493 w1) as [[err|] w2].
  { cbv [emit]. intros Heq. injection Heq as _ <-.
    eapply (reported_restore []);
           [reflexivity | apply (terminal_error "restore")]. }
  unfold defer.
  match goal with
  | |- context [bind ?b (fun x => bind (removeAll ?d) _)] => set (body := b)
  end.
  assert (Hbody : forall x w4 tb,
             body w2 = Some (x, w4, tb) -> Reported "restore" restoreRecord tb).
  { subst body. intros x w4 tb. unfold bind at 1.
    rewrite RunWithProgress_cases.
    destruct (Stream _ w2) as [run w3].
    destruct run as [e|e|e|stdout stderr cancels late code].
    1-3: cbv [emit]; intros Hb; injection Hb as _ _ <-;
         eapply (reported_restore []);
           [reflexivity | apply (terminal_error "restore")].
    rewrite forEach_restoreLine.
    destruct (restic.waitResult _ _ code stderr) as [e|].
    { cbv [emit]. intros Hb. injection Hb as _ _ <-.
      eapply (reported_restore stdout);
        [ simpl_events; rewrite events_restoreRecords; reflexivity
        | apply (terminal_error "restore") ]. }
    unfold bind at 1.
    destruct (moveContents fuel _ _ w3) as [[[res w5] tm]|] eqn:HM; [|discriminate].
    apply moveContents_file_steps, events_file_steps in HM.
    destruct res as [e|]; cbv [emit]; intros Hb; injection Hb as _ _ <-;
      eapply (reported_restore stdout);
      [ simpl_events; rewrite events_restoreRecords, HM; reflexivity
      | apply (terminal_error "restore")
      | simpl_events; rewrite events_restoreRecords, HM; reflexivity
      | apply (terminal_complete "restore") ]. }
  destruct (body w2) as [[[x w4] tb]|] eqn:Hb.
  2:{ rewrite bind_None by exact Hb. discriminate. }
  erewrite bind_Some by exact Hb.
  unfold bind, removeAll, ret.
  destruct (RemoveAll _ w4) as [e5 w5].
  intros Heq. injection Heq as _ _ <-.
  destruct (Hbody _ _ _ eq_refl) as (lines & last & Hev & Hterm & Hquiet).
  exists lines, last. split; [|split; assumption].
  simpl_events. rewrite app_nil_r. exact Hev.
Qed.

End ReportFacts.

(* ================================================================== *)
(** * What copying and moving touch *)
(* ================================================================== *)

Section FileFacts.
Context `{GoLib} {W : Type} `{Host W}.

Lemma Below_trans (a b c : string) : Below a b -> Below b c -> Below a c.
Proof.
  intros Hab Hbc. induction Hbc as [|p name _ IH]; [exact Hab|].
  constructor. exact IH.
Qed.

Lemma copies_join (src dst name : string) (a : Action) :
  copies (Join src name) (Join dst name) a -> copies src dst a.
Proof.
  assert (Hs : Below src (Join src name)) by (constructor; constructor).
  assert (Hd : Below dst (Join dst name)) by (constructor; constructor).
  destruct a as [[]|]; cbn; try tauto;
    try (intros Hb; eapply Below_trans; eassumption).
  - intros [Hb1 Hb2]; split; eapply Below_trans; eassumption.
  - intros [Hb|Hb]; [left | right]; eapply Below_trans; eassumption.
Qed.

Lemma forErr_Forall {A} (P : Action -> Prop) (body : A -> M W (option error)) :
  (forall x w r w' t, body x w = Some (r, w', t) -> Forall P t) ->
  forall xs w r w' t,
    forErr body xs w = Some (r, w', t) -> Forall P t.
Proof.
  intros Hb xs. induction xs as [|x xs IH]; intros w r w' t HF.
  - cbn in HF. injection HF as _ _ <-. constructor.
  - cbn [forErr] in HF. unfold bind in HF.
    destruct (body x w) as [[[e w1] t1]|] eqn:Hx; [|discriminate].
    destruct e as [err|].
    + cbn in HF. injection HF as _ _ <-. rewrite app_nil_r. eauto.
    + destruct (forErr body xs w1) as [[[e2 w2] t2]|] eqn:Hrest; [|discriminate].
      injection HF as _ _ <-. apply Forall_app. eauto.
Qed.

Lemma copyPath_copies (n : nat) :
  forall src dst w r w' t,
    copyPath n src dst w = Some (r, w', t) -> Forall (copies src dst) t.
Proof.
  induction n as [|n IH]; intros src dst w r w' t HC; [discriminate|].
  cbn [copyPath] in HC.
  cbv [bind stat mkdirAll readDir open create copy close defer ret] in HC.
  assert (Hs : Below src src) by constructor.
  assert (Hd : Below dst dst) by constructor.
  destruct (Stat src w) as [[info|err] w1].
  2:{ injection HC as _ _ <-. repeat constructor. }
  destruct (IsDir info).
  - destruct (MkdirAll dst (Mode info) w1) as [[err|] w2].
    { injection HC as _ _ <-. repeat constructor. }
    destruct (ReadDir src w2) as [[names e] w3]. cbn [fst] in HC.
    destruct (forErr _ names w3) as [[[e4 w4] t4]|] eqn:HF; [|discriminate].
    injection HC as _ _ <-.
    apply (forErr_Forall (copies src dst)) in HF.
    + cbn [app]. repeat (constructor; [assumption|]). exact HF.
    + intros x w0 r0 w0' t0 Hx. apply IH in Hx.
      revert Hx. apply Forall_impl. intros a. apply copies_join.
  - destruct (Open src w1) as [[err|] w2].
    { injection HC as _ _ <-. repeat constructor. }
    destruct (Create dst w2) as [[err|] w3].
    { injection HC as _ _ <-. cbn [app].
      repeat (constructor; cbn; try tauto). }
    destruct (Copy dst src w3) as [e4 w4].
    injection HC as _ _ <-. cbn [app].
    repeat (constructor; cbn; try tauto).
Qed.

(** X9.  [copyPath] only reads at or below its source and only writes at
    or below its destination: every step is a stat, a listing or an open of
    a path at or below the source, a directory or file creation at or below
    the destination, a copy between two such paths, or a close.  It removes
    nothing, renames nothing and launches nothing. *)
Theorem copyPath_confined (fuel : nat) (src dst : string) (w w' : W)
    (res : option error) (t : list Action) :
  copyPath fuel src dst w = Some (res, w', t) ->
  Forall (copies src dst) t
  /\ (forall p, ~ In (Sys (CRemoveAll p)) t)
  /\ (forall p q, ~ In (Sys (CRename p q)) t).
Proof.
  intros HC. apply copyPath_copies in HC. split; [exact HC|].
  rewrite Forall_forall in HC.
  split; intros; intros Hin; apply HC in Hin; exact Hin.
Qed.

Lemma copyPath_no_removal (fuel : nat) (src dst : string) (w w' : W)
    (res : option error) (t : list Action) (p : string) :
  copyPath fuel src dst w = Some (res, w', t) -> ~ In (Sys (CRemoveAll p)) t.
Proof.
  intros HC Hin. apply copyPath_copies in HC.
  rewrite Forall_forall in HC. exact (HC _ Hin).
Qed.

(** One entry of the move phase: what its steps are, by how it ends. *)
Lemma moveEntry_cases (fuel : nat) (src dst name : string) (w w' : W)
    (res : option error) (t : list Action) :
  moveEntry fuel src dst name w = Some (res, w', t) ->
  (forall p, ~ In (Sys (CRemoveAll p)) t)
  \/ (res = None
      /\ exists w2 w3 tc,
           copyPath fuel (Join src name) (Join dst name) w2 = Some (None, w3, tc)
           /\ t = [Sys (CMkdirAll (Dir (Join dst name)) 493);
                   Sys (CRename (Join src name) (Join dst name))]
                  ++ tc ++ [Sys (CRemoveAll (Join src name))]).
Proof.
  unfold moveEntry. cbv [bind mkdirAll rename removeAll ret].
  destruct (MkdirAll _ 493 w) as [[err|] w1].
  { intros HE. injection HE as _ _ <-. left. intros p [Hp|[]]. discriminate. }
  destruct (Rename _ _ w1) as [[err|] w2].
  2:{ intros HE. injection HE as _ _ <-. left.
      intros p [Hp|[Hp|[]]]; discriminate. }
  destruct (copyPath fuel _ _ w2) as [[[ce w3] tc]|] eqn:HC; [|discriminate].
  destruct ce as [copyErr|].
  - intros HE. injection HE as _ _ <-. left. intros p.
    cbn [app]. rewrite app_nil_r.
    intros [Hp|[Hp|Hin]]; try discriminate.
    exact (copyPath_no_removal _ _ _ _ _ _ _ p HC Hin).
  - destruct (RemoveAll _ w3) as [e4 w4].
    intros HE. injection HE as <- _ <-. right. split; [reflexivity|].
    exists w2, w3, tc. split; [exact HC|]. cbn [app]. rewrite ?app_nil_r. reflexivity.
Qed.

Lemma forErr_moveEntry_removal (fuel : nat) (src dst : string)
    (names : list string) :
  forall (w w' : W) res t p,
    forErr (moveEntry fuel src dst) names w = Some (res, w', t) ->
    In (Sys (CRemoveAll p)) t ->
    exists name w2 w3 tc t1 t2,
      In name names /\ p = Join src name
      /\ copyPath fuel (Join src name) (Join dst name) w2 = Some (None, w3, tc)
      /\ t = t1 ++ Sys (CRename (Join src name) (Join dst name))
                :: tc ++ Sys (CRemoveAll p) :: t2.
Proof.
  induction names as [|name rest IH]; intros w w' res t p HF Hin.
  - cbn in HF. injection HF as _ _ <-. destruct Hin.
  - cbn [forErr] in HF. unfold bind in HF.
    destruct (moveEntry fuel src dst name w) as [[[e w1] t1]|] eqn:HE;
      [|discriminate].
    assert (Hhead : In (Sys (CRemoveAll p)) t1 ->
              exists w2 w3 tc,
                p = Join src name
                /\ copyPath fuel (Join src name) (Join dst name) w2
                   = Some (None, w3, tc)
                /\ t1 = [Sys (CMkdirAll (Dir (Join dst name)) 493)]
                        ++ Sys (CRename (Join src name) (Join dst name))
                        :: tc ++ [Sys (CRemoveAll p)]).
    { intros Hin1. destruct (moveEntry_cases _ _ _ _ _ _ _ _ HE)
        as [Hno | (_ & w2 & w3 & tc & HC & Ht1)].
      { destruct (Hno p Hin1). }
      exists w2, w3, tc.
      assert (Hp : p = Join src name).
      { rewrite Ht1 in Hin1. cbn [app] in Hin1.
        destruct Hin1 as [Hp|[Hp|Hin1]]; try discriminate.
        apply in_app_or in Hin1. destruct Hin1 as [Hin1|[Hp|[]]].
        - destruct (copyPath_no_removal _ _ _ _ _ _ _ p HC Hin1).
        - injection Hp as <-. reflexivity. }
      subst p. repeat split; [exact HC | exact Ht1]. }
    destruct e as [err|].
    + cbn in HF. injection HF as _ _ <-. rewrite app_nil_r in Hin.
      destruct (Hhead Hin) as (w2 & w3 & tc & -> & HC & Ht1).
      exists name, w2, w3, tc, [Sys (CMkdirAll (Dir (Join dst name)) 493)], [].
      repeat split; [left; reflexivity | exact HC |].
      rewrite app_nil_r. exact Ht1.
    + destruct (forErr _ rest w1) as [[[e2 w2'] t2]|] eqn:Hrest; [|discriminate].
      injection HF as _ _ <-.
      apply in_app_or in Hin. destruct Hin as [Hin|Hin].
      * destruct (Hhead Hin) as (w2 & w3 & tc & -> & HC & Ht1).
        exists name, w2, w3, tc, [Sys (CMkdirAll (Dir (Join dst name)) 493)], t2.
        repeat split; [left; reflexivity | exact HC |].
        rewrite Ht1. cbn [app]. rewrite <- app_assoc. reflexivity.
      * destruct (IH _ _ _ _ _ Hrest Hin)
          as (n' & w2 & w3 & tc & ta & tb & Hn & Hp & HC & Ht2).
        exists n', w2, w3, tc, (t1 ++ ta), tb.
        repeat split; [right; exact Hn | exact Hp | exact HC |].
        rewrite Ht2, <- app_assoc. reflexivity.
Qed.

(** X10.  The move phase removes nothing but sources it has copied: every
    removal in its trace is the removal of one entry of the source
    directory, and it comes directly after a copy of that entry to its
    destination that returned no error, itself directly after the rename
    of that entry. *)
Theorem move_removes_only_copied (fuel : nat) (src dst : string) (w w' : W)
    (res : option error) (t : list Action) (p : string) :
  moveContents fuel src dst w = Some (res, w', t) ->
  In (Sys (CRemoveAll p)) t ->
  exists name w2 w3 tc t1 t2,
    In name (fst (fst (ReadDir src w))) /\ p = Join src name
    /\ copyPath fuel (Join src name) (Join dst name) w2 = Some (None, w3, tc)
    /\ t = t1 ++ Sys (CRename (Join src name) (Join dst name))
              :: tc ++ Sys (CRemoveAll p) :: t2.
Proof.
  unfold moveContents, bind at 1, readDir.
  destruct (ReadDir src w) as [[names e] w1]. cbn [fst].
  destruct e as [err|].
  { destruct (IsNotExist err); cbn; intros HM; injection HM as _ _ <-;
      intros [Hp|[]]; discriminate. }
  destruct (forErr _ names w1) as [[[e2 w2] t2]|] eqn:HF; [|discriminate].
  intros HM. injection HM as _ _ <-. cbn [app].
  intros [Hp|Hin]; [discriminate|].
  destruct (forErr_moveEntry_removal _ _ _ _ _ _ _ _ _ HF Hin)
    as (name & wa & wb & tc & ta & tb & Hn & Hp & HC & Ht).
  exists name, wa, wb, tc, (Sys (CReadDir src) :: ta), tb.
  repeat split; [exact Hn | exact Hp | exact HC |].
  rewrite Ht. reflexivity.
Qed.

Lemma forErr_failed (fuel : nat) (src dst : string) (names : list string) :
  forall (w w' : W) err t,
    forErr (moveEntry fuel src dst) names w = Some (Some err, w', t) ->
    exists done name rest w2 t1 t2,
      names = done ++ name :: rest
      /\ Moved fuel src dst done w w2 t1
      /\ moveEntry fuel src dst name w2 = Some (Some err, w', t2)
      /\ t = t1 ++ t2.
Proof.
  induction names as [|name rest IH]; intros w w' err t HF.
  - discriminate.
  - cbn [forErr] in HF. unfold bind in HF.
    destruct (moveEntry fuel src dst name w) as [[[e w1] t1]|] eqn:HE;
      [|discriminate].
    destruct e as [err1|].
    + cbn in HF. injection HF as <- <- <-.
      exists [], name, rest, w, [], t1.
      repeat split; [constructor | exact HE | rewrite app_nil_r; reflexivity].
    + destruct (forErr _ rest w1) as [[[e2 w2'] t2]|] eqn:Hrest; [|discriminate].
      injection HF as -> <- <-.
      destruct (IH _ _ _ _ Hrest)
        as (done & n' & rest' & w2 & ta & tb & Hn & HM & HE' & Ht).
      exists (name :: done), n', rest', w2, (t1 ++ ta), tb.
      repeat split.
      * rewrite Hn. reflexivity.
      * apply forErr_moved. cbn [forErr]. unfold bind. rewrite HE.
        apply forErr_moved in HM. rewrite HM. reflexivity.
      * exact HE'.
      * rewrite Ht, app_assoc. reflexivity.
Qed.

(** X11.  A move phase that returns an error either could not list the
    source directory, or stopped at the first entry it could not move: the
    entries before it were all moved, the failing entry kept its source,
    and the entries after it were not touched.  Nothing that was moved is
    moved back. *)
Theorem move_stops_at_first_failure (fuel : nat) (src dst : string)
    (w w' : W) (err : error) (t : list Action) :
  moveContents fuel src dst w = Some (Some err, w', t) ->
  (exists names,
     ReadDir src w = (names, Some err, w') /\ IsNotExist err = false
     /\ t = [Sys (CReadDir src)])
  \/ (exists done name rest w1 w2 t1 t2,
        ReadDir src w = (done ++ name :: rest, None, w1)
        /\ Moved fuel src dst done w1 w2 t1
        /\ moveEntry fuel src dst name w2 = Some (Some err, w', t2)
        /\ (forall p, ~ In (Sys (CRemoveAll p)) t2)
        /\ t = Sys (CReadDir src) :: t1 ++ t2).
Proof.
  unfold moveContents, bind at 1, readDir.
  destruct (ReadDir src w) as [[names e] w1].
  destruct e as [e|].
  { destruct (IsNotExist e) eqn:Hne; cbn; intros HM; [discriminate|].
    injection HM as <- <- <-. left. exists names. auto. }
  destruct (forErr _ names w1) as [[[e2 w2] t2]|] eqn:HF; [|discriminate].
  intros HM. injection HM as -> <- <-. right.
  destruct (forErr_failed _ _ _ _ _ _ _ _ HF)
    as (done & name & rest & wa & ta & tb & Hn & HMv & HE & Ht).
  exists done, name, rest, w1, wa, ta, tb.
  repeat split; [rewrite Hn; reflexivity | exact HMv | exact HE | | rewrite Ht; reflexivity].
  destruct (moveEntry_cases _ _ _ _ _ _ _ _ HE) as [Hno | (Habs & _)];
    [exact Hno | discriminate].
Qed.

End FileFacts.

(* ================================================================== *)
(** * Failure paths of the orchestrator *)
(* ================================================================== *)

Section FailureFacts.
Context `{GoLib} {W : Type} `{Host W}.

(** X12.  A restore to the original location whose staging directory
    cannot be made reports that and stops: no restore is launched and
    nothing is removed.  When the staging directory is made and the restore
    returns an error (it could not be started, it failed, or it was
    cancelled), the goroutine reports that error after the progress records,
    takes no step of the move phase, and still removes the staging
    directory as its last step. *)
Theorem restore_failure_moves_nothing (fuel : nat) (r : restic.Runner)
    (repo : config.Repository) (snapshotID first : string)
    (paths : list string) (V u : string) (w w1 : W) :
  let tempDir := stagingDir V u in
  let args := restoreArgs snapshotID tempDir paths in
  extractDriveLetter first = V ->
  V <> EmptyString ->
  NewUUID w = (u, w1) ->
  (forall err w2,
     MkdirAll tempDir 493 w1 = (Some err, w2) ->
     restoreToOriginal fuel r repo snapshotID first paths w =
       Some (tt, w2,
             [Sys CNewUUID; Sys (CMkdirAll tempDir 493);
              EventsEmit "restore:error"
                (PString ("Failed to create temp directory: " ++ Error err))]))
  /\ (forall w2 w3 e tr,
        MkdirAll tempDir 493 w1 = (None, w2) ->
        restic.RunWithProgress r (config.URI repo) (config.Password repo)
          args restoreLine w2 = Some (Some e, w3, tr) ->
        restoreToOriginal fuel r repo snapshotID first paths w =
          Some (tt, snd (RemoveAll tempDir w3),
                [Sys CNewUUID; Sys (CMkdirAll tempDir 493)] ++ tr
                  ++ [EventsEmit "restore:error" (PString (Error e));
                      Sys (CRemoveAll tempDir)])).
Proof.
  intros tempDir args HV Hne HU. split.
  - intros err w2 HMk. unfold restoreToOriginal. rewrite HV.
    destruct (String.eqb_spec V EmptyString) as [|_]; [contradiction|].
    erewrite bind_Some by (unfold newUUID; rewrite HU; reflexivity).
    fold (stagingDir V u). fold tempDir.
    erewrite bind_Some by (unfold mkdirAll; rewrite HMk; reflexivity).
    reflexivity.
  - intros w2 w3 e tr HMk HR. unfold restoreToOriginal. rewrite HV.
    destruct (String.eqb_spec V EmptyString) as [|_]; [contradiction|].
    erewrite bind_Some by (unfold newUUID; rewrite HU; reflexivity).
    fold (stagingDir V u). fold tempDir.
    erewrite bind_Some by (unfold mkdirAll; rewrite HMk; reflexivity).
    rewrite appendFlag_eq. fold (restoreArgs snapshotID tempDir paths).
    fold args. unfold defer.
    erewrite bind_Some.
    2:{ erewrite bind_Some by exact HR. reflexivity. }
    unfold bind, removeAll, ret.
    destruct (RemoveAll tempDir w3) as [e5 w5]. cbn [snd app].
    rewrite ?app_nil_r, <- ?app_assoc. cbn [app]. reflexivity.
Qed.

(** X13.  With a runner and a known repository [StartBackup] returns no
    error and its goroutine, whenever it returns, has launched at most one
    subprocess (none when a pipe could not be set up): the engine with
    the arguments backup and the JSON flag, then one exclude pair per
    exclusion, then one tag pair per tag, then the source paths, each group
    in the order given, and with the credentials of the repository in the
    environment.  An empty list of source paths is not refused. *)
Theorem StartBackup_command (a : App) (job : BackupJob.t)
    (r : restic.Runner) (repo : config.Repository) (w : W) :
  let cmd := restic.Command r (backupArgs job)
               (restic.repoEnv (Environ w) (config.URI repo)
                               (config.Password repo)) in
  runner a = Some r ->
  config.GetRepository (config_ a) (BackupJob.RepoID job) = Some repo ->
  exists task,
    StartBackup a job = (None, Some task)
    /\ forall w' t,
         task w = Some (tt, w', t) ->
         launches t = (if started (fst (Stream cmd w)) then [cmd] else []).
Proof.
  intros cmd Hr Hrepo. unfold StartBackup. rewrite Hr, Hrepo.
  rewrite !appendFlag_eq. rewrite <- !app_assoc. fold (backupArgs job).
  eexists. split; [reflexivity|].
  intros w' t.
  unfold bind at 1. rewrite RunWithProgress_cases. fold cmd.
  destruct (Stream cmd w) as [run w1].
  destruct run as [e|e|e|stdout stderr cancels late code]; cbn [fst started];
    try (cbv [emit]; intros Hb; injection Hb as _ <-; reflexivity).
  rewrite forEach_backupLine.
  assert (Hq : launches (flat_map backupRecord stdout) = []).
  { clear. induction stdout as [|l ls IH]; [reflexivity|].
    cbn [flat_map]. rewrite launches_app, IH.
    unfold backupRecord. destruct (UnmarshalBackupProgress l); reflexivity. }
  destruct (restic.waitResult _ _ code stderr) as [e|];
    cbv [emit]; intros Hb; injection Hb as _ <-;
    repeat (rewrite ?launches_app, ?launches_cons, ?launches_nil; cbn [app]);
    rewrite Hq; reflexivity.
Qed.

Lemma nodeOf_tagged (lines : list string) :
  Forall (fun n => FileNode.StructType n = "node") (flat_map nodeOf lines).
Proof.
  induction lines as [|l ls IH]; [constructor|].
  cbn [flat_map]. apply Forall_app. split; [|exact IH].
  unfold nodeOf. destruct (String.eqb l EmptyString); [constructor|].
  destruct (UnmarshalFileNode l) as [n|]; [|constructor].
  destruct (String.eqb_spec (FileNode.StructType n) "node"); repeat constructor.
  assumption.
Qed.

Lemma nodeOf_length (lines : list string) :
  List.length (flat_map nodeOf lines) <= List.length lines.
Proof.
  induction lines as [|l ls IH]; [constructor|].
  cbn [flat_map]. rewrite length_app. cbn [List.length].
  assert (List.length (nodeOf l) <= 1).
  { unfold nodeOf. destruct (String.eqb l EmptyString); [cbn; lia|].
    destruct (UnmarshalFileNode l) as [n|]; [|cbn; lia].
    destruct (String.eqb (FileNode.StructType n) "node"); cbn; lia. }
  lia.
Qed.

(** X14.  [ListSnapshotContents] always returns, after at most one launch.
    It never returns entries together with an error; every entry it
    returns is tagged node; and there are at most as many entries as the
    output has lines. *)
Theorem ListSnapshotContents_result (a : App) (repoID snapshotID : string)
    (w : W) :
  exists nodes err w' t,
    ListSnapshotContents a repoID snapshotID w = Some ((nodes, err), w', t)
    /\ List.length (launches t) <= 1
    /\ (err <> None -> nodes = [])
    /\ Forall (fun n => FileNode.StructType n = "node") nodes
    /\ (forall r repo,
          runner a = Some r ->
          config.GetRepository (config_ a) repoID = Some repo ->
          let cmd := restic.Command r ["ls"; "--json"; snapshotID]
                       (if String.eqb (config.URI repo) EmptyString
                        then Environ w
                        else restic.repoEnv (Environ w) (config.URI repo)
                                            (config.Password repo)) in
          t = [Sys (CStart cmd)]
          /\ List.length nodes
             <= List.length (splitLines (fst (fst (CombinedOutput cmd w))))).
Proof.
  unfold ListSnapshotContents.
  destruct (runner a) as [r|].
  2:{ eexists _, _, _, _. split; [reflexivity|].
      split; [cbn; lia|]. split; [reflexivity|]. split; [constructor|].
      intros; discriminate. }
  destruct (config.GetRepository _ _) as [repo|].
  2:{ eexists _, _, _, _. split; [reflexivity|].
      split; [cbn; lia|]. split; [reflexivity|]. split; [constructor|].
      intros; discriminate. }
  unfold bind. rewrite Run_eq.
  destruct (exit_failed _).
  - eexists _, _, _, _. split; [reflexivity|].
    split; [cbn; lia|]. split; [reflexivity|]. split; [constructor|].
    intros r0 repo0 Hr0 Hrepo0. injection Hr0 as <-. injection Hrepo0 as <-.
    split; [reflexivity | cbn; lia].
  - eexists _, _, _, _. split; [reflexivity|].
    split; [cbn; lia|]. split; [intros Habs; contradiction Habs; reflexivity|].
    rewrite fold_collectNode. cbn [app].
    split; [apply nodeOf_tagged|].
    intros r0 repo0 Hr0 Hrepo0. injection Hr0 as <-. injection Hrepo0 as <-.
    split; [reflexivity | apply nodeOf_length].
Qed.

End FailureFacts.

(* ================================================================== *)
(** * The repository directory *)
(* ================================================================== *)

Section ConfigFacts.
Context `{GoLib} `{Codec} {W : Type} `{Host W} `{Platform Data W}.

Lemma find_app_id (id : string) (rs1 rs2 : list config.Repository) :
  find (fun r => String.eqb (config.ID r) id) (rs1 ++ rs2) =
    match find (fun r => String.eqb (config.ID r) id) rs1 with
    | Some r => Some r
    | None => find (fun r => String.eqb (config.ID r) id) rs2
    end.
Proof.
  induction rs1 as [|r rs1 IH]; [reflexivity|].
  cbn [app find]. destruct (String.eqb (config.ID r) id); [reflexivity | exact IH].
Qed.

Lemma AddRepository_manager (cm : config.ConfigManager)
    (repo : config.Repository) (w : W) :
  snd (fst (ConfigManager.AddRepository cm repo w)) =
    ConfigManager.withRepositories cm
      (config.Repositories (config.Config cm) ++ [repo]).
Proof.
  unfold ConfigManager.AddRepository.
  destruct (ConfigManager.Save _ w). reflexivity.
Qed.

(** X15.  [App.AddRepository] appends the repository under a fresh UUID,
    whatever ID the caller supplied, and keeps it in memory whether or not
    saving succeeds.  Every repository that could be looked up before is
    still found under its ID, with the same data; the new one is found
    under the UUID unless that ID was already taken, in which case the
    older repository keeps shadowing it. *)
Theorem AddRepository_lookup (a : App) (repo : config.Repository) (w : W) :
  let u := fst (NewUUID w) in
  let a' := snd (fst (AddRepository a repo w)) in
  GetRepositories a' = GetRepositories a ++ [withID repo u]
  /\ runner a' = runner a
  /\ (forall id old,
        config.GetRepository (config_ a) id = Some old ->
        config.GetRepository (config_ a') id = Some old)
  /\ (config.GetRepository (config_ a) u = None ->
      config.GetRepository (config_ a') u = Some (withID repo u))
  /\ (forall id,
        id <> u ->
        config.GetRepository (config_ a') id = config.GetRepository (config_ a) id).
Proof.
  intros u a'. subst u a'. unfold AddRepository.
  destruct (NewUUID w) as [u w1]. cbn [fst].
  pose proof (AddRepository_manager (config_ a) (withID repo u) w1) as Hcm.
  destruct (ConfigManager.AddRepository (config_ a) (withID repo u) w1)
    as [[e cm] w2].
  cbn [fst snd] in *. subst cm.
  unfold GetRepositories, ConfigManager.GetRepositories, config.GetRepository.
  cbn [config_ runner withManager ConfigManager.withRepositories
       ConfigManager.withConfig config.Config config.Repositories].
  split; [reflexivity|]. split; [reflexivity|].
  split; [|split].
  - intros id old Hold. rewrite find_app_id, Hold. reflexivity.
  - intros Hnew. rewrite find_app_id, Hnew. cbn.
    rewrite String.eqb_refl. reflexivity.
  - intros id Hne. rewrite find_app_id.
    destruct (find _ (config.Repositories (config.Config (config_ a))));
      [reflexivity|].
    cbn. destruct (String.eqb_spec u id); [congruence | reflexivity].
Qed.

Lemma find_replaceFirst (repo : config.Repository) (id : string)
    (rs : list config.Repository) :
  find (fun r => String.eqb (config.ID r) id) (ConfigManager.replaceFirst repo rs) =
    if String.eqb id (config.ID repo)
    then match find (fun r => String.eqb (config.ID r) id) rs with
         | Some _ => Some repo
         | None => None
         end
    else find (fun r => String.eqb (config.ID r) id) rs.
Proof.
  induction rs as [|r rs IH]; cbn [ConfigManager.replaceFirst find].
  - destruct (String.eqb id (config.ID repo)); reflexivity.
  - destruct (String.eqb_spec (config.ID r) (config.ID repo)) as [Heq|Hne].
    + cbn [find]. destruct (String.eqb_spec id (config.ID repo)) as [->|Hid].
      * rewrite String.eqb_refl, Heq, String.eqb_refl. reflexivity.
      * destruct (String.eqb_spec (config.ID repo) id); [congruence|].
        destruct (String.eqb_spec (config.ID r) id); [congruence|]. reflexivity.
    + cbn [find]. destruct (String.eqb_spec (config.ID r) id) as [<-|Hrid].
      * destruct (String.eqb_spec (config.ID r) (config.ID repo));
          [contradiction | reflexivity].
      * exact IH.
Qed.

Lemma replaceFirst_absent (repo : config.Repository)
    (rs : list config.Repository) :
  find (fun r => String.eqb (config.ID r) (config.ID repo)) rs = None ->
  ConfigManager.replaceFirst repo rs = rs.
Proof.
  induction rs as [|r rs IH]; [reflexivity|].
  cbn [find ConfigManager.replaceFirst].
  destruct (String.eqb (config.ID r) (config.ID repo)); [discriminate|].
  intros Hf. rewrite (IH Hf). reflexivity.
Qed.

Lemma replaceFirst_ids (repo : config.Repository)
    (rs : list config.Repository) :
  map config.ID (ConfigManager.replaceFirst repo rs) = map config.ID rs.
Proof.
  induction rs as [|r rs IH]; [reflexivity|].
  cbn [ConfigManager.replaceFirst].
  destruct (String.eqb_spec (config.ID r) (config.ID repo)) as [Heq|Hne];
    cbn [map]; congruence.
Qed.

Lemma UpdateRepository_manager (cm : config.ConfigManager)
    (repo : config.Repository) (w : W) :
  snd (fst (ConfigManager.UpdateRepository cm repo w)) =
    ConfigManager.withRepositories cm
      (ConfigManager.replaceFirst repo (config.Repositories (config.Config cm))).
Proof.
  unfold ConfigManager.UpdateRepository.
  destruct (ConfigManager.Save _ w). reflexivity.
Qed.

(** X16.  [UpdateRepository] replaces the repository that has the ID of
    the given one and nothing else: afterwards that ID looks up the given
    data, every other ID looks up what it did, and the list has the same
    length, the same order of IDs and the same last-used repository.  For
    an ID that is not in the list nothing changes in memory, and no error
    says so: the result is the result of saving. *)
Theorem UpdateRepository_lookup (cm : config.ConfigManager)
    (repo : config.Repository) (w : W) :
  let cm' := snd (fst (ConfigManager.UpdateRepository cm repo w)) in
  (forall old,
     config.GetRepository cm (config.ID repo) = Some old ->
     config.GetRepository cm' (config.ID repo) = Some repo)
  /\ (forall id,
        id <> config.ID repo ->
        config.GetRepository cm' id = config.GetRepository cm id)
  /\ (config.GetRepository cm (config.ID repo) = None ->
      cm' = cm
      /\ fst (fst (ConfigManager.UpdateRepository cm repo w))
         = fst (ConfigManager.Save cm w))
  /\ map config.ID (ConfigManager.GetRepositories cm')
     = map config.ID (ConfigManager.GetRepositories cm)
  /\ config.LastUsedRepo (config.Config cm')
     = config.LastUsedRepo (config.Config cm)
  /\ config.path cm' = config.path cm.
Proof.
  intros cm'. subst cm'. rewrite UpdateRepository_manager.
  unfold config.GetRepository, ConfigManager.GetRepositories.
  cbn [ConfigManager.withRepositories ConfigManager.withConfig config.Config
       config.Repositories config.LastUsedRepo config.path].
  split; [|split; [|split; [|split; [|split]]]]; try reflexivity.
  - intros old Hold. rewrite find_replaceFirst, String.eqb_refl, Hold. reflexivity.
  - intros id Hne. rewrite find_replaceFirst.
    destruct (String.eqb_spec id (config.ID repo)); [contradiction | reflexivity].
  - intros Hnone.
    assert (Hsame : ConfigManager.withRepositories cm
                      (ConfigManager.replaceFirst repo
                         (config.Repositories (config.Config cm))) = cm).
    { rewrite (replaceFirst_absent _ _ Hnone).
      destruct cm as [p [rs last]]. reflexivity. }
    split; [exact Hsame|].
    unfold ConfigManager.UpdateRepository. rewrite Hsame.
    destruct (ConfigManager.Save cm w). reflexivity.
  - apply replaceFirst_ids.
Qed.

Lemma find_filter_id (id gone : string) (rs : list config.Repository) :
  find (fun r => String.eqb (config.ID r) id)
       (filter (fun r => negb (String.eqb (config.ID r) gone)) rs) =
    if String.eqb id gone then None
    else find (fun r => String.eqb (config.ID r) id) rs.
Proof.
  induction rs as [|r rs IH]; cbn [filter find].
  - destruct (String.eqb id gone); reflexivity.
  - destruct (String.eqb_spec (config.ID r) gone) as [Hg|Hg]; cbn [negb find].
    + rewrite IH. destruct (String.eqb_spec id gone) as [->|Hid]; [reflexivity|].
      destruct (String.eqb_spec (config.ID r) id); [congruence | reflexivity].
    + destruct (String.eqb_spec (config.ID r) id) as [<-|Hrid].
      * destruct (String.eqb_spec (config.ID r) gone); [contradiction | reflexivity].
      * exact IH.
Qed.

Lemma DeleteRepository_manager (cm : config.ConfigManager) (id : string) (w : W) :
  snd (fst (ConfigManager.DeleteRepository cm id w)) =
    ConfigManager.withConfig cm
      {| config.Repositories :=
           filter (fun r => negb (String.eqb (config.ID r) id))
                  (config.Repositories (config.Config cm));
         config.LastUsedRepo :=
           if String.eqb (config.LastUsedRepo (config.Config cm)) id
           then EmptyString
           else config.LastUsedRepo (config.Config cm) |}.
Proof.
  unfold ConfigManager.DeleteRepository.
  destruct (ConfigManager.Save _ w). reflexivity.
Qed.

(** X17.  After [DeleteRepository] the ID looks up nothing, every other ID
    looks up what it did, and the repositories that remain keep their
    order.  The last-used repository is forgotten when it is the deleted
    one and kept otherwise, so afterwards it never names the deleted ID,
    unless that ID is the empty one.  Deleting an ID that is not in the
    list is no error. *)
Theorem DeleteRepository_lookup (cm : config.ConfigManager) (id : string)
    (w : W) :
  let cm' := snd (fst (ConfigManager.DeleteRepository cm id w)) in
  config.GetRepository cm' id = None
  /\ (forall other,
        other <> id ->
        config.GetRepository cm' other = config.GetRepository cm other)
  /\ ConfigManager.GetRepositories cm'
     = filter (fun r => negb (String.eqb (config.ID r) id))
              (ConfigManager.GetRepositories cm)
  /\ (config.LastUsedRepo (config.Config cm') = id -> id = EmptyString)
  /\ (config.LastUsedRepo (config.Config cm) <> id ->
      config.LastUsedRepo (config.Config cm')
      = config.LastUsedRepo (config.Config cm))
  /\ (config.GetRepository cm id = None ->
      ConfigManager.GetRepositories cm' = ConfigManager.GetRepositories cm).
Proof.
  intros cm'. subst cm'. rewrite DeleteRepository_manager.
  unfold config.GetRepository, ConfigManager.GetRepositories.
  cbn [ConfigManager.withConfig config.Config config.Repositories
       config.LastUsedRepo].
  split; [|split; [|split; [|split; [|split]]]].
  - rewrite find_filter_id, String.eqb_refl. reflexivity.
  - intros other Hne. rewrite find_filter_id.
    destruct (String.eqb_spec other id); [contradiction | reflexivity].
  - reflexivity.
  - destruct (String.eqb_spec (config.LastUsedRepo (config.Config cm)) id);
      [intros <-; reflexivity | contradiction].
  - intros Hne.
    destruct (String.eqb_spec (config.LastUsedRepo (config.Config cm)) id);
      [contradiction | reflexivity].
  - intros Hnone. induction (config.Repositories (config.Config cm)) as [|r rs IH];
      [reflexivity|].
    cbn [find filter] in *.
    destruct (String.eqb (config.ID r) id); [discriminate|].
    cbn [negb]. rewrite (IH Hnone). reflexivity.
Qed.

Lemma NoDup_filter_map (id : string) (rs : list config.Repository) :
  NoDup (map config.ID rs) ->
  NoDup (map config.ID
           (filter (fun r => negb (String.eqb (config.ID r) id)) rs)).
Proof.
  induction rs as [|r rs IH]; [constructor|].
  cbn [map filter]. intros Hnd. inversion Hnd as [|x l Hnin Hnd' Heq]; subst.
  destruct (negb (String.eqb (config.ID r) id)); [|exact (IH Hnd')].
  cbn [map]. constructor; [|exact (IH Hnd')].
  intros Hin. apply Hnin. apply in_map_iff in Hin.
  destruct Hin as (r0 & Hid & Hin). apply filter_In in Hin.
  apply in_map_iff. exists r0. tauto.
Qed.

Lemma find_none_not_in (id : string) (rs : list config.Repository) :
  find (fun r => String.eqb (config.ID r) id) rs = None ->
  ~ In id (map config.ID rs).
Proof.
  induction rs as [|r rs IH]; [intros _ []|].
  cbn [find map]. destruct (String.eqb_spec (config.ID r) id) as [|Hne];
    [discriminate|].
  intros Hf [Heq|Hin]; [contradiction | exact (IH Hf Hin)].
Qed.

(** X18.  Repositories keep distinct IDs: when no two repositories of the
    list share an ID, none do after an update or a deletion, and none do
    after [App.AddRepository] when the fresh UUID is not yet in use. *)
Theorem repository_ids_stay_distinct (a : App) (repo : config.Repository)
    (id : string) (w : W) :
  NoDup (map config.ID (GetRepositories a)) ->
  NoDup (map config.ID
           (GetRepositories (snd (fst (UpdateRepository a repo w)))))
  /\ NoDup (map config.ID
              (GetRepositories (snd (fst (DeleteRepository a id w)))))
  /\ (config.GetRepository (config_ a) (fst (NewUUID w)) = None ->
      NoDup (map config.ID
               (GetRepositories (snd (fst (AddRepository a repo w)))))).
Proof.
  intros Hnd. unfold GetRepositories, ConfigManager.GetRepositories in *.
  split; [|split].
  - unfold UpdateRepository.
    pose proof (UpdateRepository_manager (config_ a) repo w) as Hcm.
    destruct (ConfigManager.UpdateRepository (config_ a) repo w) as [[e cm] w1].
    cbn [fst snd] in *. subst cm. cbn. rewrite replaceFirst_ids. exact Hnd.
  - unfold DeleteRepository.
    pose proof (DeleteRepository_manager (config_ a) id w) as Hcm.
    destruct (ConfigManager.DeleteRepository (config_ a) id w) as [[e cm] w1].
    cbn [fst snd] in *. subst cm. cbn. apply NoDup_filter_map. exact Hnd.
  - unfold AddRepository. destruct (NewUUID w) as [u w1]. cbn [fst].
    intros Hfresh.
    pose proof (AddRepository_manager (config_ a) (withID repo u) w1) as Hcm.
    destruct (ConfigManager.AddRepository (config_ a) (withID repo u) w1)
      as [[e cm] w2].
    cbn [fst snd] in *. subst cm. cbn.
    rewrite map_app. cbn [map].
    apply find_none_not_in in Hfresh.
    clear - Hnd Hfresh.
    induction (config.Repositories (config.Config (config_ a))) as [|r rs IH].
    + cbn. constructor; [intros [] | constructor].
    + cbn [map app] in *. inversion Hnd as [|x l Hnin Hnd' Heq]; subst.
      constructor.
      * intros Hin. apply in_app_or in Hin. destruct Hin as [Hin|[Heq|[]]].
        { exact (Hnin Hin). }
        { apply Hfresh. left. symmetry. exact Heq. }
      * apply IH; [exact Hnd'|]. intros Hin. apply Hfresh. right. exact Hin.
Qed.

(** X19.  [NewConfigManager] keeps its file at config.json in the
    directory restic-gui of the user's configuration directory, or of the
    temporary directory when there is none.  When the file cannot be read
    or its content cannot be decoded, the manager starts with no
    repository and no last-used repository, and the empty configuration is
    written over the file; when it can, the manager holds what was decoded
    and nothing is written. *)
Theorem NewConfigManager_outcome (w : W) :
  let appData := match UserConfigDir w with inl d => d | inr _ => TempDir w end in
  let path := Join (Join appData "restic-gui") "config.json" in
  let w1 := snd (MkdirAll (Join appData "restic-gui") 493 w) in
  let cm := fst (ConfigManager.NewConfigManager w) in
  let w' := snd (ConfigManager.NewConfigManager w) in
  let blank := {| config.path := path; config.Config := ConfigManager.emptyConfig |} in
  config.path cm = path
  /\ (forall err w2,
        ReadFile path w1 = (inr err, w2) ->
        cm = blank /\ w' = snd (ConfigManager.Save blank w2))
  /\ (forall data w2 cfg err,
        ReadFile path w1 = (inl data, w2) ->
        UnmarshalConfig data ConfigManager.emptyConfig = (cfg, Some err) ->
        cm = blank /\ w' = snd (ConfigManager.Save blank w2))
  /\ (forall data w2 cfg,
        ReadFile path w1 = (inl data, w2) ->
        UnmarshalConfig data ConfigManager.emptyConfig = (cfg, None) ->
        config.Config cm = cfg /\ w' = w2).
Proof.
  intros appData path w1 cm w' blank. subst cm w' w1.
  unfold ConfigManager.NewConfigManager. fold appData.
  destruct (MkdirAll (Join appData "restic-gui") 493 w) as [e0 w1].
  cbn [snd]. fold path. unfold ConfigManager.Load. cbn [config.path config.Config].
  fold ConfigManager.emptyConfig. fold blank.
  destruct (ReadFile path w1) as [[data|err] w2].
  - destruct (UnmarshalConfig data ConfigManager.emptyConfig) as [cfg [err|]]
      eqn:HU.
    + change (ConfigManager.withConfig (ConfigManager.withConfig blank cfg)
                ConfigManager.emptyConfig) with blank.
      destruct (ConfigManager.Save blank w2) as [e3 w3] eqn:HS. cbn [fst snd].
      split; [reflexivity|]. split; [intros; discriminate|]. split.
      * intros d w0 c e Hd _. injection Hd as _ <-. rewrite HS. auto.
      * intros d w0 c Hd Hu. injection Hd as <- <-. congruence.
    + cbn [fst snd]. split; [reflexivity|]. split; [intros; discriminate|].
      split.
      * intros d w0 c e Hd Hu. injection Hd as <- <-. congruence.
      * intros d w0 c Hd Hu. injection Hd as <- <-.
        replace c with cfg by congruence. auto.
  - change (ConfigManager.withConfig blank ConfigManager.emptyConfig) with blank.
    destruct (ConfigManager.Save blank w2) as [e3 w3] eqn:HS. cbn [fst snd].
    split; [reflexivity|]. split; [|split; intros; discriminate].
    intros e w0 Hd. injection Hd as _ <-. rewrite HS. auto.
Qed.

(** X20.  What [Save] wrote is what [Load] reads into a new manager of the
    same path, on a file system that reads back what was written and with
    a codec that decodes what it encoded. *)
Theorem saved_configuration_is_loaded (cm : config.ConfigManager) (w w1 : W) :
  (forall p d perm w0 w0', WriteFile p d perm w0 = (None, w0') ->
                           ReadFile p w0' = (inl d, w0')) ->
  (forall c d cur, MarshalIndent c = inl d -> UnmarshalConfig d cur = (c, None)) ->
  ConfigManager.Save cm w = (None, w1) ->
  ConfigManager.Load
    {| config.path := config.path cm; config.Config := ConfigManager.emptyConfig |}
    w1 = (None, cm, w1).
Proof.
  intros Hfs Hcodec. unfold ConfigManager.Save, ConfigManager.Load.
  destruct (MarshalIndent (config.Config cm)) as [data|err] eqn:HM;
    [|discriminate].
  intros HW. cbn [config.path config.Config].
  rewrite (Hfs _ _ _ _ _ HW), (Hcodec _ _ _ HM).
  destruct cm as [p c]. reflexivity.
Qed.

End ConfigFacts.

(* ================================================================== *)
(** * The methods that run the engine *)
(* ================================================================== *)

Section MethodFacts.
Context `{GoLib} `{Codec} {W : Type} `{Host W} `{Platform Data W}.

(** X21.  Without a runner no method reaches the host: each one that runs
    the engine returns the error that restic was not found, launches
    nothing, starts no goroutine and leaves the host as it was, whatever its
    arguments are (an unknown repository or an empty selection is not
    looked at); the version is reported as not found, the status says so,
    and cancelling does nothing. *)
Theorem engine_missing (a : App) (w : W) :
  runner a = None ->
  let missing := ErrMessage "restic not found" in
  (forall id, TestRepository a id w = Some ((EmptyString, Some missing), w, []))
  /\ (forall repo, InitRepository a repo w = Some (Some missing, w, []))
  /\ (forall id, GetSnapshots a id w = Some (([], Some missing), w, []))
  /\ (forall id snap, DeleteSnapshot a id snap w = Some (Some missing, w, []))
  /\ (forall id snap,
        ListSnapshotContents a id snap w = Some (([], Some missing), w, []))
  /\ (forall job, StartBackup a job = (Some missing, None))
  /\ (forall id snap target, StartRestore a id snap target = (Some missing, None))
  /\ (forall fuel id snap paths target toOriginal,
        RestoreSelected fuel a id snap paths target toOriginal
          = (Some missing, None))
  /\ GetResticVersion a w = Some ("restic not found", w, [])
  /\ GetResticStatus a = [("found", "false"); ("message", msg_status_missing)]
  /\ (forall h, CancelBackup a h = h /\ CancelRestore a h = h).
Proof.
  intros Hr missing.
  unfold TestRepository, InitRepository, GetSnapshots, DeleteSnapshot,
    ListSnapshotContents, StartBackup, StartRestore, RestoreSelected,
    GetResticVersion, GetResticStatus, CancelBackup, CancelRestore.
  rewrite Hr. repeat split.
Qed.

(** X22.  With a runner, a repository ID that is not in the configuration
    stops every method that takes one before it reaches the host: the
    error is that the repository was not found, nothing is launched and no
    goroutine is started, also when no path is selected.  [InitRepository]
    takes the repository itself and looks nothing up. *)
Theorem unknown_repository (a : App) (id : string) (r : restic.Runner) (w : W) :
  runner a = Some r ->
  config.GetRepository (config_ a) id = None ->
  let unknown := ErrMessage "repository not found" in
  TestRepository a id w = Some ((EmptyString, Some unknown), w, [])
  /\ GetSnapshots a id w = Some (([], Some unknown), w, [])
  /\ (forall snap, DeleteSnapshot a id snap w = Some (Some unknown, w, []))
  /\ (forall snap,
        ListSnapshotContents a id snap w = Some (([], Some unknown), w, []))
  /\ (forall job, BackupJob.RepoID job = id ->
                  StartBackup a job = (Some unknown, None))
  /\ (forall snap target, StartRestore a id snap target = (Some unknown, None))
  /\ (forall fuel snap paths target toOriginal,
        RestoreSelected fuel a id snap paths target toOriginal
          = (Some unknown, None)).
Proof.
  intros Hr Hrepo unknown.
  unfold TestRepository, GetSnapshots, DeleteSnapshot,
    ListSnapshotContents, StartBackup, StartRestore, RestoreSelected.
  rewrite Hr, Hrepo. repeat split.
  intros job ->. rewrite Hrepo. reflexivity.
Qed.

(** X23.  With a runner and a known repository, [TestRepository],
    [DeleteSnapshot] and [GetSnapshots] each launch the engine exactly
    once, with their fixed arguments and the credentials of the stored
    repository; [InitRepository] does so with the credentials of the
    repository it is given, stored or not.  Each reports failure exactly
    when the engine's exit status says so, with the translated output as
    message.  A successful test discards the output; a successful listing
    of snapshots whose output does not decode returns the fixed parse
    error and no snapshot. *)
Theorem engine_methods_launch_once (a : App) (id snap : string)
    (r : restic.Runner) (repo given : config.Repository) (w : W) :
  runner a = Some r ->
  config.GetRepository (config_ a) id = Some repo ->
  let env (p : config.Repository) :=
    if String.eqb (config.URI p) EmptyString then Environ w
    else restic.repoEnv (Environ w) (config.URI p) (config.Password p) in
  let cmd p args := restic.Command r args (env p) in
  let out p args := fst (fst (CombinedOutput (cmd p args) w)) in
  let ok p args := negb (exit_failed (snd (fst (CombinedOutput (cmd p args) w)))) in
  let failure p args :=
    ErrCommandFailed (restic.friendlyError (TrimSpace (out p args))) in
  let after p args := snd (CombinedOutput (cmd p args) w) in
  TestRepository a id w =
    Some (if ok repo ["cat"; "config"] then ("Connection successful!", None)
          else (EmptyString, Some (failure repo ["cat"; "config"])),
          after repo ["cat"; "config"], [Sys (CStart (cmd repo ["cat"; "config"]))])
  /\ InitRepository a given w =
       Some (if ok given ["init"] then None else Some (failure given ["init"]),
             after given ["init"], [Sys (CStart (cmd given ["init"]))])
  /\ DeleteSnapshot a id snap w =
       Some (if ok repo ["forget"; snap; "--prune"] then None
             else Some (failure repo ["forget"; snap; "--prune"]),
             after repo ["forget"; snap; "--prune"],
             [Sys (CStart (cmd repo ["forget"; snap; "--prune"]))])
  /\ GetSnapshots a id w =
       Some (if ok repo ["snapshots"; "--json"]
             then match UnmarshalSnapshots (out repo ["snapshots"; "--json"]) with
                  | Some snapshots => (snapshots, None)
                  | None => ([], Some (ErrMessage "failed to parse snapshot data"))
                  end
             else ([], Some (failure repo ["snapshots"; "--json"])),
             after repo ["snapshots"; "--json"],
             [Sys (CStart (cmd repo ["snapshots"; "--json"]))]).
Proof.
  intros Hr Hrepo env cmd out ok failure after.
  unfold TestRepository, InitRepository, DeleteSnapshot, GetSnapshots.
  rewrite Hr, Hrepo. unfold bind. rewrite !Run_eq.
  subst ok failure after out cmd env. cbv beta.
  repeat split.
  - destruct (exit_failed _); reflexivity.
  - destruct (exit_failed _); reflexivity.
  - destruct (exit_failed _); reflexivity.
  - destruct (exit_failed _); [reflexivity|]. cbn [negb].
    destruct (UnmarshalSnapshots _); reflexivity.
Qed.

(** X24.  [GetResticVersion] launches the engine once with the argument
    version and with the environment of the application as it is: no
    repository and no password is added to it.  It returns the output of
    the engine untrimmed when the engine exits with status zero, and a
    question mark otherwise, whatever the engine printed. *)
Theorem GetResticVersion_outcome (a : App) (r : restic.Runner) (w : W) :
  runner a = Some r ->
  let cmd := restic.Command r ["version"] (Environ w) in
  Env cmd = Environ w
  /\ exists text,
       GetResticVersion a w
         = Some (text, snd (CombinedOutput cmd w), [Sys (CStart cmd)])
       /\ (snd (fst (CombinedOutput cmd w)) = Exited 0 ->
           text = fst (fst (CombinedOutput cmd w)))
       /\ (exit_failed (snd (fst (CombinedOutput cmd w))) = true -> text = "?").
Proof.
  intros Hr cmd. split; [reflexivity|].
  unfold GetResticVersion. rewrite Hr. unfold bind. rewrite Run_eq.
  cbn [String.eqb]. fold cmd.
  destruct (snd (fst (CombinedOutput cmd w))) as [code|e] eqn:Hx.
  - cbn [exit_failed]. destruct (Z.eqb_spec code 0) as [->|Hne]; cbn [negb].
    + eexists. split; [reflexivity|]. split; [reflexivity | discriminate].
    + eexists. split; [reflexivity|]. split; [|reflexivity].
      intros Heq. injection Heq as ->. contradiction.
  - cbn [exit_failed]. eexists. split; [reflexivity|].
    split; [discriminate | reflexivity].
Qed.

(** X25.  [NewRunner] prefers the engine beside the application: when the
    path of the executable is known and restic.exe exists in its
    directory, that file is the engine, whatever the search path holds.
    Otherwise the engine is what the search path gives for restic, and
    only when that fails too is there no runner.  [startup] then keeps the
    runner it got, or none together with one logged warning, and has a
    configuration manager either way. *)
Theorem NewRunner_search (w : W) :
  let candidate e := Join (Dir e) "restic.exe" in
  let beside w1 :=
    exists e info, Executable w = inl e /\ Stat (candidate e) w = (inl info, w1) in
  let not_beside w1 :=
    (exists err, Executable w = inr err /\ w1 = w)
    \/ (exists e err, Executable w = inl e
                      /\ Stat (candidate e) w = (inr err, w1)) in
  (forall e info w1,
     Executable w = inl e -> Stat (candidate e) w = (inl info, w1) ->
     NewRunner w = (inl {| restic.resticPath := candidate e |}, w1))
  /\ (forall w1 path,
        not_beside w1 -> LookPath "restic" w1 = inl path ->
        NewRunner w = (inl {| restic.resticPath := path |}, w1))
  /\ (forall w1 err,
        not_beside w1 -> LookPath "restic" w1 = inr err ->
        NewRunner w = (inr (ErrMessage msg_engine_missing), w1))
  /\ (forall res w1, NewRunner w = (res, w1) -> beside w1 \/ not_beside w1).
Proof.
  intros candidate beside not_beside. subst beside not_beside.
  unfold NewRunner. fold candidate.
  split; [|split; [|split]].
  - intros e info w1 He HS. rewrite He. fold (candidate e). rewrite HS. reflexivity.
  - intros w1 path [(err & He & ->) | (e & err & He & HS)] HL; rewrite He.
    + rewrite HL. reflexivity.
    + fold (candidate e). rewrite HS, HL. reflexivity.
  - intros w1 err [(err0 & He & ->) | (e & err0 & He & HS)] HL; rewrite He.
    + rewrite HL. reflexivity.
    + fold (candidate e). rewrite HS, HL. reflexivity.
  - intros res w1. destruct (Executable w) as [e|err].
    + fold (candidate e). destruct (Stat (candidate e) w) as [[info|err] w2] eqn:HS.
      * intros Heq. injection Heq as _ <-. left. eauto.
      * destruct (LookPath "restic" w2); intros Heq; injection Heq as _ <-;
          right; right; eauto.
    + destruct (LookPath "restic" w); intros Heq; injection Heq as _ <-;
        right; left; eauto.
Qed.

(** X26.  [startup] on a host where the engine is neither beside the
    application nor on the search path: the application still gets its
    configuration manager, it has no runner, exactly one warning is
    logged, and from then on the methods that need the engine report that
    restic was not found without reaching the host. *)
Theorem startup_without_engine (w w2 : W) (err : error) :
  let w1 := snd (ConfigManager.NewConfigManager w) in
  let candidate e := Join (Dir e) "restic.exe" in
  (exists e0, Executable w1 = inr e0 /\ w2 = w1)
  \/ (exists e e0, Executable w1 = inl e /\ Stat (candidate e) w1 = (inr e0, w2)) ->
  LookPath "restic" w2 = inr err ->
  exists a,
    startup w
      = (a, [LogWarning ("restic not found: " ++ msg_engine_missing)], w2)
    /\ config_ a = fst (ConfigManager.NewConfigManager w)
    /\ runner a = None
    /\ (forall id w3,
          TestRepository a id w3
            = Some ((EmptyString, Some (ErrMessage "restic not found")), w3, []))
    /\ (forall job, StartBackup a job
                      = (Some (ErrMessage "restic not found"), None))
    /\ (forall w3, GetResticVersion a w3 = Some ("restic not found", w3, [])).
Proof.
  intros w1 candidate Hno HL. subst w1. unfold startup.
  destruct (ConfigManager.NewConfigManager w) as [cm w1]. cbn [fst snd] in *.
  assert (HN : NewRunner w1 = (inr (ErrMessage msg_engine_missing), w2)).
  { unfold NewRunner.
    destruct Hno as [(e0 & He & ->) | (e & e0 & He & HS)]; rewrite He.
    - rewrite HL. reflexivity.
    - fold (candidate e). rewrite HS, HL. reflexivity. }
  rewrite HN. eexists. split; [reflexivity|]. repeat split.
Qed.

End MethodFacts.

(* ================================================================== *)
(** * The tree of the selective-restore page *)
(* ================================================================== *)

Section TreeFacts.
Import RestoreTree.

Fixpoint no_backslash (s : string) : bool :=
  match s with
  | EmptyString => true
  | String c t => negb (Ascii.eqb c "\") && no_backslash t
  end.

Lemma ReplaceAll_clean (s : string) :
  no_backslash (strings.ReplaceAll s "\"%char "/") = true.
Proof.
  induction s as [|c s IH]; [reflexivity|].
  cbn [strings.ReplaceAll]. destruct (Ascii.eqb c "\") eqn:Hc.
  - cbn. exact IH.
  - cbn [no_backslash]. rewrite Hc. exact IH.
Qed.

Lemma ReplaceAll_fixed (s : string) :
  no_backslash s = true -> strings.ReplaceAll s "\"%char "/" = s.
Proof.
  induction s as [|c s IH]; [reflexivity|].
  cbn [no_backslash strings.ReplaceAll]. intros Hs.
  apply andb_true_iff in Hs. destruct Hs as [Hc Hs].
  apply negb_true_iff in Hc. rewrite Hc, (IH Hs). reflexivity.
Qed.

Lemma norm_clean (p : string) : no_backslash (norm p) = true.
Proof.
  unfold norm. destruct (strings.HasPrefix _ "/").
  - apply ReplaceAll_clean.
  - cbn. apply ReplaceAll_clean.
Qed.

Lemma norm_rooted (p : string) : strings.HasPrefix (norm p) "/" = true.
Proof.
  unfold norm.
  destruct (strings.HasPrefix (strings.ReplaceAll p "\" "/") "/") eqn:Hp;
    [exact Hp|].
  unfold strings.HasPrefix. cbn.
  destruct (strings.ReplaceAll p "\" "/"); reflexivity.
Qed.

Lemma norm_fixed (s : string) :
  no_backslash s = true -> strings.HasPrefix s "/" = true -> norm s = s.
Proof.
  intros Hc Hr. unfold norm. rewrite (ReplaceAll_fixed s Hc), Hr. reflexivity.
Qed.

(** X27.  [norm] gives every path one spelling: the result holds no
    backslash and starts with a slash, normalising it again changes
    nothing, and a path written with backslashes and the same path written
    with slashes have the same result. *)
Theorem norm_canonical (p : string) :
  no_backslash (norm p) = true
  /\ strings.HasPrefix (norm p) "/" = true
  /\ norm (norm p) = norm p
  /\ norm (strings.ReplaceAll p "\"%char "/") = norm p.
Proof.
  split; [apply norm_clean|]. split; [apply norm_rooted|]. split.
  - apply norm_fixed; [apply norm_clean | apply norm_rooted].
  - unfold norm at 1. rewrite (ReplaceAll_fixed _ (ReplaceAll_clean p)).
    reflexivity.
Qed.

Lemma has_add (s : list string) (x y : string) :
  has (add s x) y = has s y || String.eqb y x.
Proof.
  unfold add. destruct (has s x) eqn:Hx.
  - destruct (String.eqb_spec y x) as [->|]; [|rewrite orb_false_r; reflexivity].
    rewrite Hx. reflexivity.
  - unfold has. rewrite existsb_app. cbn. rewrite orb_false_r. reflexivity.
Qed.

Lemma has_delete (s : list string) (x y : string) :
  has (delete s x) y = has s y && negb (String.eqb y x).
Proof.
  unfold has, delete. induction s as [|z s IH]; [reflexivity|].
  cbn [filter existsb]. destruct (String.eqb_spec z x) as [->|Hzx]; cbn [negb].
  - rewrite IH. destruct (String.eqb_spec y x); cbn; [|reflexivity].
    rewrite andb_false_r. reflexivity.
  - cbn [existsb]. rewrite IH.
    destruct (String.eqb_spec y z) as [->|]; [|reflexivity].
    destruct (String.eqb_spec z x); [contradiction | reflexivity].
Qed.

(** Membership after the loop that adds the nodes below [node]. *)
Lemma has_add_below (node : FileNode.t) (nodes : list FileNode.t)
    (next : list string) (y : string) :
  has (fold_left (fun next n => if below node n then add next (FileNode.Path n)
                                else next) nodes next) y
  = has next y
    || existsb (fun n => below node n && String.eqb y (FileNode.Path n)) nodes.
Proof.
  revert next. induction nodes as [|n nodes IH]; intros next.
  - cbn. rewrite orb_false_r. reflexivity.
  - cbn [fold_left existsb]. rewrite IH. destruct (below node n); cbn [andb orb].
    + rewrite has_add, orb_assoc. reflexivity.
    + reflexivity.
Qed.

(** Membership after the loop that deletes the nodes below [node]. *)
Lemma has_delete_below (node : FileNode.t) (nodes : list FileNode.t)
    (next : list string) (y : string) :
  has (fold_left (fun next n => if below node n then delete next (FileNode.Path n)
                                else next) nodes next) y
  = has next y
    && negb (existsb (fun n => below node n && String.eqb y (FileNode.Path n))
                     nodes).
Proof.
  revert next. induction nodes as [|n nodes IH]; intros next.
  - cbn. rewrite andb_true_r. reflexivity.
  - cbn [fold_left existsb]. rewrite IH. destruct (below node n); cbn [andb orb].
    + rewrite has_delete, negb_orb, andb_assoc. reflexivity.
    + reflexivity.
Qed.

(** Membership in the set [toggleCheck] returns. *)
Lemma has_toggleCheck (nodes : list FileNode.t) (checked : list string)
    (node : FileNode.t) (y : string) :
  has (toggleCheck nodes checked node) y =
    let touched :=
      String.eqb y (FileNode.Path node)
      || is_dir node
         && existsb (fun n => below node n && String.eqb y (FileNode.Path n))
                    nodes in
    if has checked (FileNode.Path node)
    then has checked y && negb touched
    else has checked y || touched.
Proof.
  unfold toggleCheck. cbv zeta.
  destruct (has checked (FileNode.Path node)); destruct (is_dir node);
    cbn [andb orb].
  - rewrite has_delete_below, has_delete, negb_orb, andb_assoc. reflexivity.
  - rewrite has_delete, orb_false_r. reflexivity.
  - rewrite has_add_below, has_add, orb_assoc. reflexivity.
  - rewrite has_add, orb_false_r. reflexivity.
Qed.

Lemma filter_all {A} (f : A -> bool) (l : list A) :
  (forall x, In x l -> f x = true) -> filter f l = l.
Proof.
  induction l as [|x l IH]; [reflexivity|].
  intros Hall. cbn [filter]. rewrite (Hall x (or_introl eq_refl)).
  rewrite IH; [reflexivity|]. intros y Hy. apply Hall. right. exact Hy.
Qed.

Lemma filter_none {A} (f : A -> bool) (l : list A) :
  (forall x, In x l -> f x = false) -> filter f l = [].
Proof.
  induction l as [|x l IH]; [reflexivity|].
  intros Hall. cbn [filter]. rewrite (Hall x (or_introl eq_refl)).
  apply IH. intros y Hy. apply Hall. right. exact Hy.
Qed.

Lemma below_listed (node n : FileNode.t) (nodes : list FileNode.t) :
  In n nodes -> below node n = true ->
  existsb (fun m => below node m
                    && String.eqb (FileNode.Path n) (FileNode.Path m)) nodes
  = true.
Proof.
  intros Hin Hb. apply existsb_exists. exists n.
  rewrite Hb, String.eqb_refl. auto.
Qed.

Lemma toggleCheck_self (nodes : list FileNode.t) (checked : list string)
    (node : FileNode.t) :
  has (toggleCheck nodes checked node) (FileNode.Path node)
  = negb (has checked (FileNode.Path node)).
Proof.
  rewrite has_toggleCheck. cbv zeta. rewrite String.eqb_refl. cbn [orb].
  destruct (has checked (FileNode.Path node)) eqn:Hw; cbn [negb];
    [rewrite andb_false_r | rewrite orb_true_r]; reflexivity.
Qed.

Lemma toggleCheck_below (nodes : list FileNode.t) (checked : list string)
    (node n : FileNode.t) :
  In n nodes -> is_dir node = true -> below node n = true ->
  has (toggleCheck nodes checked node) (FileNode.Path n)
  = negb (has checked (FileNode.Path node)).
Proof.
  intros Hin Hd Hb. rewrite has_toggleCheck. cbv zeta.
  rewrite Hd, (below_listed node n nodes Hin Hb). cbn [andb].
  rewrite orb_true_r.
  destruct (has checked (FileNode.Path node)); cbn [negb];
    [rewrite andb_false_r | rewrite orb_true_r]; reflexivity.
Qed.

(** X28.  Clicking the box of an entry that is not checked leaves it
    checked, and clicking the box of an entry that is checked leaves it
    unchecked, for a file and for a directory alike; for a directory every
    listed entry below it is taken along, into the selection or out of
    it.  Nothing else enters the selection, and what leaves it is the
    entry and, for a directory, the entries below it. *)
Theorem toggleCheck_state (nodes : list FileNode.t) (checked : list string)
    (node : FileNode.t) :
  let next := toggleCheck nodes checked node in
  let was := has checked (FileNode.Path node) in
  getCheckState nodes next node = (if was then unchecked else checked_)
  /\ has next (FileNode.Path node) = negb was
  /\ (forall n, In n nodes -> is_dir node = true -> below node n = true ->
                has next (FileNode.Path n) = negb was)
  /\ (forall y,
        y <> FileNode.Path node ->
        (forall n, In n nodes -> below node n = true -> y <> FileNode.Path n) ->
        has next y = has checked y).
Proof.
  intros next was.
  assert (Hself : has next (FileNode.Path node) = negb was)
    by apply toggleCheck_self.
  assert (Hbelow : forall n, In n nodes -> is_dir node = true ->
                             below node n = true ->
                             has next (FileNode.Path n) = negb was)
    by (intros; apply toggleCheck_below; assumption).
  split; [|split; [exact Hself | split; [exact Hbelow|]]].
  - unfold getCheckState. cbv zeta. fold next. rewrite Hself.
    destruct (is_dir node) eqn:Hd; cbn [negb].
    2:{ destruct was; reflexivity. }
    destruct (Nat.eqb (List.length (filter (below node) nodes)) 0) eqn:Hlen.
    { destruct was; reflexivity. }
    assert (Hch : forall c, In c (filter (below node) nodes) ->
                            has next (FileNode.Path c) = negb was).
    { intros c Hc. apply filter_In in Hc. destruct Hc as [Hin Hb].
      exact (Hbelow c Hin eq_refl Hb). }
    destruct was; cbn [negb] in *.
    + rewrite (filter_none _ _ Hch). reflexivity.
    + rewrite (filter_all _ _ Hch). rewrite andb_false_r, Nat.eqb_refl.
      reflexivity.
  - intros y Hy Hothers. subst next was. rewrite has_toggleCheck. cbv zeta.
    assert (Hex : existsb (fun n => below node n
                                    && String.eqb y (FileNode.Path n)) nodes
                  = false).
    { apply not_true_is_false. intros Hex. apply existsb_exists in Hex.
      destruct Hex as (n & Hin & Hn). apply andb_true_iff in Hn.
      destruct Hn as [Hb Heq]. apply String.eqb_eq in Heq.
      exact (Hothers n Hin Hb Heq). }
    rewrite Hex, andb_false_r, orb_false_r.
    destruct (String.eqb_spec y (FileNode.Path node)); [contradiction|].
    destruct (has checked (FileNode.Path node)); cbn [negb];
      [rewrite andb_true_r | rewrite orb_false_r]; reflexivity.
Qed.

Lemma prefix_length (p s : string) :
  String.prefix p s = true -> String.length p <= String.length s.
Proof.
  revert s. induction p as [|c p IH]; intros s; [cbn; lia|].
  destruct s as [|d s]; [discriminate|]. cbn [String.prefix String.length].
  destruct (ascii_dec c d); [|discriminate].
  intros Hp. apply IH in Hp. lia.
Qed.

Lemma append_length (a b : string) :
  String.length (a ++ b) = String.length a + String.length b.
Proof. induction a as [|c a IH]; cbn; [reflexivity | rewrite IH; reflexivity]. Qed.

Lemma below_longer (node n : FileNode.t) :
  below node n = true ->
  String.length (norm (FileNode.Path node))
  < String.length (norm (FileNode.Path n)).
Proof.
  unfold below, strings.HasPrefix. intros Hb. apply prefix_length in Hb.
  rewrite append_length in Hb. cbn in Hb. lia.
Qed.

Lemma filter_shorter {A} (f : A -> bool) (l : list A) (x : A) :
  In x l -> f x = false -> List.length (filter f l) < List.length l.
Proof.
  induction l as [|y l IH]; [intros []|].
  intros [->|Hin] Hx; cbn [filter].
  - rewrite Hx. cbn. pose proof (filter_length_le f l). lia.
  - specialize (IH Hin Hx). destruct (f y); cbn; lia.
Qed.

(** X29.  Checking a directory and then unchecking one listed entry below
    it leaves the directory itself in the selection: the entry is out, the
    directory shows as partly selected, and its path is still among the
    paths a restore to the original location is started with. *)
Theorem unchecked_child_keeps_directory (nodes : list FileNode.t)
    (checked : list string) (dir child : FileNode.t)
    (repo snap target : string) :
  is_dir dir = true ->
  has checked (FileNode.Path dir) = false ->
  In child nodes ->
  below dir child = true ->
  let after := toggleCheck nodes (toggleCheck nodes checked dir) child in
  has after (FileNode.Path child) = false
  /\ has after (FileNode.Path dir) = true
  /\ getCheckState nodes after dir = indeterminate
  /\ SelectiveRestore.startRestore
       {| SelectiveRestore.selectedRepo := repo;
          SelectiveRestore.selectedSnap := snap;
          SelectiveRestore.checked := after;
          SelectiveRestore.targetPath := target;
          SelectiveRestore.restoreMode := SelectiveRestore.original |}
     = SelectiveRestore.CallRestoreSelected repo snap after target true
  /\ In (FileNode.Path dir) after.
Proof.
  intros Hd Hun Hin Hb after.
  set (mid := toggleCheck nodes checked dir) in *.
  assert (Hmid_dir : has mid (FileNode.Path dir) = true).
  { subst mid. rewrite toggleCheck_self, Hun. reflexivity. }
  assert (Hmid_child : has mid (FileNode.Path child) = true).
  { subst mid. rewrite (toggleCheck_below _ _ _ _ Hin Hd Hb), Hun. reflexivity. }
  assert (Hchild : has after (FileNode.Path child) = false).
  { subst after. rewrite toggleCheck_self, Hmid_child. reflexivity. }
  pose proof (below_longer _ _ Hb) as Hlen.
  assert (Hdir : has after (FileNode.Path dir) = true).
  { subst after. rewrite has_toggleCheck. cbv zeta. rewrite Hmid_child, Hmid_dir.
    cbn [andb].
    destruct (String.eqb_spec (FileNode.Path dir) (FileNode.Path child)) as [Heq|_].
    { rewrite Heq in Hlen. lia. }
    cbn [orb].
    replace (existsb _ nodes) with false;
      [rewrite andb_false_r; reflexivity|].
    symmetry. apply not_true_is_false. intros Hex.
    apply existsb_exists in Hex. destruct Hex as (n & _ & Hn).
    apply andb_true_iff in Hn. destruct Hn as [Hbn Heq].
    apply String.eqb_eq in Heq. apply below_longer in Hbn.
    rewrite Heq in Hlen. lia. }
  split; [exact Hchild|]. split; [exact Hdir|]. split; [|split].
  - unfold getCheckState. cbv zeta. rewrite Hd, Hdir. cbn [negb].
    rewrite andb_false_r.
    assert (Hkid : In child (filter (below dir) nodes)).
    { apply filter_In. auto. }
    destruct (filter (below dir) nodes) as [|c0 cs] eqn:Hch; [destruct Hkid|].
    cbn [List.length Nat.eqb]. rewrite <- Hch in *.
    pose proof (filter_shorter (fun c => has after (FileNode.Path c))
                  _ child Hkid Hchild) as Hlt.
    rewrite Hch in Hlt at 2. cbn [List.length] in Hlt.
    destruct (Nat.eqb_spec
                (List.length (filter (fun c => has after (FileNode.Path c))
                                     (filter (below dir) nodes)))
                (S (List.length cs))); [lia | reflexivity].
  - unfold SelectiveRestore.startRestore.
    cbn [SelectiveRestore.checked SelectiveRestore.restoreMode
         SelectiveRestore.is_custom SelectiveRestore.is_original andb
         SelectiveRestore.selectedRepo SelectiveRestore.selectedSnap
         SelectiveRestore.targetPath].
    destruct after as [|x rest]; [discriminate Hdir | reflexivity].
  - unfold has in Hdir. apply existsb_exists in Hdir.
    destruct Hdir as (x & Hx & Heq). apply String.eqb_eq in Heq. subst x.
    exact Hx.
Qed.

End TreeFacts.

Section VisibleFacts.
Import RestoreTree.

Fixpoint occurs (c : ascii) (s : string) : bool :=
  match s with
  | EmptyString => false
  | String x t => Ascii.eqb x c || occurs c t
  end.

Lemma lastIndexOf_none (s : string) (c : ascii) :
  lastIndexOf s c = None -> occurs c s = false.
Proof.
  induction s as [|x t IH]; [reflexivity|].
  cbn [lastIndexOf occurs]. destruct (lastIndexOf t c); [discriminate|].
  destruct (Ascii.eqb x c); [discriminate|]. intros _. exact (IH eq_refl).
Qed.

(** The string up to its last [c], that unit and the rest. *)
Lemma lastIndexOf_some (s : string) (c : ascii) (i : nat) :
  lastIndexOf s c = Some i ->
  exists a b,
    s = (a ++ String c b)%string /\ String.length a = i
    /\ occurs c b = false /\ String.substring 0 i s = a.
Proof.
  revert i. induction s as [|x t IH]; intros i; [discriminate|].
  cbn [lastIndexOf]. destruct (lastIndexOf t c) as [j|] eqn:Hl.
  - intros Heq. injection Heq as <-.
    destruct (IH j eq_refl) as (a & b & -> & Hlen & Hb & Hsub).
    exists (String x a), b. cbn [append String.length String.substring].
    rewrite Hlen, Hsub. auto.
  - destruct (Ascii.eqb_spec x c) as [->|]; [|discriminate].
    intros Heq. injection Heq as <-.
    exists EmptyString, t. cbn. split; [reflexivity|]. split; [reflexivity|].
    split; [exact (lastIndexOf_none _ _ Hl)|]. destruct t; reflexivity.
Qed.

Lemma occurs_append (c : ascii) (a b : string) :
  occurs c (a ++ b) = occurs c a || occurs c b.
Proof.
  induction a as [|x a IH]; [reflexivity|].
  cbn [append occurs]. rewrite IH, orb_assoc. reflexivity.
Qed.

Lemma occurs_lastIndexOf (s : string) (c : ascii) :
  occurs c s = true -> exists i, lastIndexOf s c = Some i.
Proof.
  induction s as [|x t IH]; [discriminate|].
  cbn [occurs lastIndexOf]. intros Ho.
  destruct (lastIndexOf t c) as [j|] eqn:Hl; [eauto|].
  apply lastIndexOf_none in Hl. rewrite Hl, orb_false_r in Ho.
  rewrite Ho. eauto.
Qed.

(** Where the last [c] is, against any other [c]. *)
Lemma last_after (c : ascii) (x y : string) :
  forall a b,
    (a ++ String c b)%string = (x ++ String c y)%string ->
    occurs c b = false ->
    a = x \/ exists z, a = (x ++ String c z)%string.
Proof.
  induction x as [|d x IH]; intros a b Heq Hb.
  - destruct a as [|e a]; [left; reflexivity|].
    cbn [append] in Heq. injection Heq as -> _. right. exists a. reflexivity.
  - destruct a as [|e a]; cbn [append] in Heq.
    + injection Heq as <- ->. rewrite occurs_append in Hb. cbn in Hb.
      rewrite Ascii.eqb_refl, orb_true_r in Hb. discriminate.
    + injection Heq as -> Heq. destruct (IH _ _ Heq Hb) as [->|[z ->]].
      * left. reflexivity.
      * right. exists z. reflexivity.
Qed.

Lemma no_backslash_append (a b : string) :
  no_backslash (a ++ b) = no_backslash a && no_backslash b.
Proof.
  induction a as [|x a IH]; [reflexivity|].
  cbn [append no_backslash]. rewrite IH, andb_assoc. reflexivity.
Qed.

Lemma rooted_cons (s : string) :
  strings.HasPrefix s "/" = true -> exists t, s = String "/" t.
Proof.
  unfold strings.HasPrefix. destruct s as [|c t]; [discriminate|].
  cbn [String.prefix]. destruct (ascii_dec "/" c) as [<-|]; [eauto | discriminate].
Qed.

Lemma rooted_slash (t : string) : strings.HasPrefix (String "/" t) "/" = true.
Proof. unfold strings.HasPrefix. cbn. destruct t; reflexivity. Qed.

(** One round of the loop on a path in normal form: the parent is empty,
    or it is the path up to its last slash, shorter and again in normal
    form. *)
Lemma parentOf_normal (p : string) :
  no_backslash p = true -> strings.HasPrefix p "/" = true ->
  parentOf p = EmptyString
  \/ exists b,
       p = (parentOf p ++ String "/" b)%string
       /\ occurs "/" b = false
       /\ no_backslash (parentOf p) = true
       /\ strings.HasPrefix (parentOf p) "/" = true.
Proof.
  intros Hc Hr. unfold parentOf. rewrite (norm_fixed p Hc Hr).
  destruct (lastIndexOf p "/") as [[|i]|] eqn:Hl; [left; reflexivity| |left; reflexivity].
  right. destruct (lastIndexOf_some _ _ _ Hl) as (a & b & Hp & Hlen & Hb & Hsub).
  rewrite Hsub. exists b. split; [exact Hp|]. split; [exact Hb|].
  rewrite Hp in Hc. rewrite no_backslash_append in Hc.
  apply andb_true_iff in Hc. split; [tauto|].
  destruct (rooted_cons _ Hr) as [t Ht]. rewrite Hp in Ht.
  destruct a as [|x a]; [discriminate Hlen|].
  cbn [append] in Ht. injection Ht as -> _. apply rooted_slash.
Qed.

Lemma ancestorsExpanded_returns (expanded : list string) (fuel : nat) :
  forall p,
    String.length p < fuel ->
    p = EmptyString
    \/ (no_backslash p = true /\ strings.HasPrefix p "/" = true) ->
    exists b, ancestorsExpanded fuel p expanded = Some b.
Proof.
  induction fuel as [|fuel IH]; intros p Hlen Hp; [lia|].
  cbn [ancestorsExpanded].
  destruct (String.eqb_spec p EmptyString) as [|Hne]; [eauto|].
  destruct (negb (has expanded p)); [eauto|].
  destruct Hp as [|[Hc Hr]]; [contradiction|].
  destruct (parentOf_normal p Hc Hr) as [He | (b & Hsplit & _ & Hc' & Hr')].
  - rewrite He. apply IH; [|left; reflexivity].
    destruct p; [contradiction | cbn in *; lia].
  - apply IH; [|right; auto].
    pose proof (f_equal String.length Hsplit) as HL.
    rewrite append_length in HL. cbn [String.length] in HL. lia.
Qed.

(** The parent of a path below [D]: [D] itself or again a path below
    [D], shorter and in normal form. *)
Lemma parentOf_below (p D z : string) :
  no_backslash p = true -> strings.HasPrefix p "/" = true ->
  strings.HasPrefix D "/" = true ->
  p = (D ++ String "/" z)%string ->
  (parentOf p = D \/ exists z', parentOf p = (D ++ String "/" z')%string)
  /\ String.length (parentOf p) < String.length p
  /\ no_backslash (parentOf p) = true
  /\ strings.HasPrefix (parentOf p) "/" = true.
Proof.
  intros Hc Hr HDr Hz.
  destruct (parentOf_normal p Hc Hr) as [He | (b & Hsplit & Hb & Hc' & Hr')].
  - exfalso. unfold parentOf in He. rewrite (norm_fixed p Hc Hr) in He.
    assert (Ho : occurs "/" p = true).
    { rewrite Hz, occurs_append. cbn. rewrite orb_true_r. reflexivity. }
    destruct (occurs_lastIndexOf _ _ Ho) as [i Hi]. rewrite Hi in He.
    destruct (lastIndexOf_some _ _ _ Hi) as (a & b & Hp & Hlen0 & Hb & Hsub).
    destruct i as [|i].
    + destruct a; [|discriminate Hlen0]. cbn [append] in Hp.
      rewrite Hz in Hp. destruct (rooted_cons _ HDr) as [t ->].
      cbn [append] in Hp. injection Hp as <-.
      rewrite occurs_append in Hb. cbn in Hb. rewrite orb_true_r in Hb.
      discriminate.
    + rewrite Hsub in He. rewrite He in Hlen0. discriminate Hlen0.
  - split; [|split; [|split; assumption]].
    + rewrite Hz in Hsplit at 1. symmetry in Hsplit.
      exact (last_after "/" D z _ _ Hsplit Hb).
    + pose proof (f_equal String.length Hsplit) as HL.
      rewrite append_length in HL. cbn [String.length] in HL. lia.
Qed.

(** The loop below a directory that is not expanded. *)
Lemma ancestorsExpanded_collapsed (expanded : list string) (D : string)
    (fuel : nat) :
  has expanded D = false ->
  strings.HasPrefix D "/" = true ->
  forall p,
    String.length p < fuel ->
    no_backslash p = true -> strings.HasPrefix p "/" = true ->
    p = D \/ (exists z, p = (D ++ String "/" z)%string) ->
    ancestorsExpanded fuel p expanded = Some false.
Proof.
  intros HD HDr. induction fuel as [|fuel IH]; intros p Hlen Hc Hr Hp; [lia|].
  cbn [ancestorsExpanded].
  destruct (String.eqb_spec p EmptyString) as [->|Hne]; [discriminate Hr|].
  destruct (has expanded p) eqn:Hhas; [|reflexivity]. cbn [negb].
  destruct Hp as [->|[z Hz]]; [congruence|].
  destruct (parentOf_below p D z Hc Hr HDr Hz) as (Hp' & Hlt & Hc' & Hr').
  apply IH; [lia | assumption | assumption | exact Hp'].
Qed.

Lemma prefix_split (a s : string) :
  String.prefix a s = true -> exists r, s = (a ++ r)%string.
Proof.
  revert s. induction a as [|c a IH]; intros s;
    [intros _; exists s; reflexivity|].
  destruct s as [|d s]; [intros Hp; cbn in Hp; discriminate Hp|].
  cbn [String.prefix].
  destruct (ascii_dec c d) as [<-|]; [|intros Hp; discriminate Hp].
  intros Hp. destruct (IH _ Hp) as [r ->]. exists r. reflexivity.
Qed.

(** X30.  [isVisible] always returns: its loop ends within as many rounds
    as the normal form of the path has units.  An entry more than one
    level deep that lies below a directory which is not expanded is not
    visible, whatever else is expanded; so collapsing a directory hides
    every such entry below it. *)
Theorem collapsed_directory_hides (expanded : list string)
    (dir n : FileNode.t) (fuel : nat) :
  String.length (norm (FileNode.Path n)) <= fuel ->
  (exists b, isVisible fuel (FileNode.Path n) expanded = Some b)
  /\ (below dir n = true ->
      depthOf (FileNode.Path n) <> 1 ->
      (has expanded (norm (FileNode.Path dir)) = false ->
       isVisible fuel (FileNode.Path n) expanded = Some false)
      /\ (has expanded (norm (FileNode.Path dir)) = true ->
          isVisible fuel (FileNode.Path n) (toggleExpand expanded dir)
          = Some false)).
Proof.
  intros Hfuel.
  pose proof (norm_clean (FileNode.Path n)) as Hc.
  pose proof (norm_rooted (FileNode.Path n)) as Hr.
  split.
  - unfold isVisible. destruct (Nat.eqb _ 1); [eauto|].
    destruct (parentOf_normal _ Hc Hr) as [He | (b & Hsplit & _ & Hc' & Hr')].
    + rewrite He. apply ancestorsExpanded_returns; [|left; reflexivity].
      destruct (rooted_cons _ Hr) as [t Ht]. rewrite Ht in Hfuel.
      cbn in *. lia.
    + apply ancestorsExpanded_returns; [|right; auto].
      pose proof (f_equal String.length Hsplit) as HL.
      rewrite append_length in HL. cbn [String.length] in HL. lia.
  - intros Hb Hdepth.
    assert (Hhidden : forall ex,
               has ex (norm (FileNode.Path dir)) = false ->
               isVisible fuel (FileNode.Path n) ex = Some false).
    { intros ex Hex. unfold isVisible.
      destruct (Nat.eqb_spec (depthOf (FileNode.Path n)) 1); [contradiction|].
      unfold below, strings.HasPrefix in Hb.
      destruct (prefix_split _ _ Hb) as [z Hz]. rewrite append_assoc in Hz.
      cbn [append] in Hz.
      destruct (parentOf_below _ _ z Hc Hr (norm_rooted (FileNode.Path dir)) Hz)
        as (Hp' & Hlt & Hc' & Hr').
      apply (ancestorsExpanded_collapsed ex (norm (FileNode.Path dir)));
        try assumption; [apply norm_rooted | lia]. }
    split; [apply Hhidden|].
    intros Hex. apply Hhidden. unfold toggleExpand. rewrite Hex.
    rewrite has_delete, String.eqb_refl. cbn. apply andb_false_r.
Qed.

End VisibleFacts.

(* ================================================================== *)
(** * The further properties on the executable hosts *)
(* ================================================================== *)

Section MoreScenarios.
Import Sim.

(** X2 on three lines, one of them empty. *)
Lemma splitLines_unlines_witness :
  splitLines (unlines ["total 3"; EmptyString; "done in 0:02"])
  = ["total 3"; EmptyString; "done in 0:02"].
Proof. apply splitLines_unlines. repeat constructor. Defined.

(** X3 on the spellings of a path of volume G, and on a native path. *)
Lemma extractDriveLetter_forms_witness :
  (extractDriveLetter "g" = "G"
   /\ extractDriveLetter "g\docs\report.pdf" = "G"
   /\ extractDriveLetter "/g" = "G"
   /\ extractDriveLetter "/g\docs\report.pdf" = "G")
  /\ (extractDriveLetter EmptyString = EmptyString
      /\ extractDriveLetter "g:docs\report.pdf" = EmptyString
      /\ extractDriveLetter "/g:docs\report.pdf" = EmptyString
      /\ extractDriveLetter "/" = EmptyString
      /\ extractDriveLetter "/\docs\report.pdf" = EmptyString).
Proof.
  exact (extractDriveLetter_forms "g" ":" "\" "/" "docs\report.pdf"
           eq_refl eq_refl eq_refl eq_refl).
Defined.

(** X5 on the text of a wrong password. *)
Lemma friendlyError_idempotent_witness :
  restic.friendlyError
    (restic.friendlyError "Fatal: wrong password or no key found")
  = restic.friendlyError "Fatal: wrong password or no key found".
Proof.
  apply friendlyError_idempotent. intros m _. reflexivity.
Defined.

(** X6 on the executable host. *)
Lemma backup_reports_once_witness :
  exists task w' t,
    StartBackup app0 Desk.job0 = (None, Some task)
    /\ task world0 = Some (tt, w', t)
    /\ Reported "backup" backupRecord t.
Proof.
  set (task := match snd (StartBackup app0 Desk.job0) with
               | Some body => body
               | None => ret tt
               end).
  assert (HS : StartBackup app0 Desk.job0 = (None, Some task)) by reflexivity.
  assert (Hrun : exists w' t, task world0 = Some (tt, w', t)).
  { vm_compute. eexists _, _. reflexivity. }
  destruct Hrun as (w' & t & Hrun).
  exists task, w', t. split; [exact HS|]. split; [exact Hrun|].
  exact (backup_reports_once app0 Desk.job0 task world0 w' t HS Hrun).
Defined.

(** X7 on the executable host. *)
Lemma restore_reports_once_witness :
  exists task w' t,
    StartRestore app0 "r1" "snap1" "G:\out" = (None, Some task)
    /\ task world0 = Some (tt, w', t)
    /\ Reported "restore" restoreRecord t.
Proof.
  set (task := match snd (StartRestore app0 "r1" "snap1" "G:\out") with
               | Some body => body
               | None => ret tt
               end).
  assert (HS : StartRestore app0 "r1" "snap1" "G:\out" = (None, Some task))
    by reflexivity.
  assert (Hrun : exists w' t, task world0 = Some (tt, w', t)).
  { vm_compute. eexists _, _. reflexivity. }
  destruct Hrun as (w' & t & Hrun).
  exists task, w', t. split; [exact HS|]. split; [exact Hrun|].
  exact (restore_reports_once 0 app0 "r1" "snap1" "G:\out" [] task world0
           w' t (or_introl HS) Hrun).
Defined.

(** X8 on the executable host: the restore of the scenario. *)
Lemma restore_to_original_reports_once_witness :
  exists w' t,
    restoreToOriginal 3 runner0 repo0 "snap1" "/G/docs/report.pdf"
      ["/G/docs/report.pdf"; "/G/todo.txt"] world0 = Some (tt, w', t)
    /\ Reported "restore" restoreRecord t.
Proof.
  assert (Hrun : exists w' t,
             restoreToOriginal 3 runner0 repo0 "snap1" "/G/docs/report.pdf"
               ["/G/docs/report.pdf"; "/G/todo.txt"] world0 = Some (tt, w', t)).
  { vm_compute. eexists _, _. reflexivity. }
  destruct Hrun as (w' & t & Hrun). exists w', t. split; [exact Hrun|].
  exact (restore_to_original_reports_once _ _ _ _ _ _ _ _ _ Hrun).
Defined.


(** X9 on the executable host: a directory with one file is copied. *)
Lemma copyPath_confined_witness :
  exists w' t,
    copyPath 3 "G:\docs" "G:\copy" world0 = Some (None, w', t)
    /\ Forall (copies "G:\docs" "G:\copy") t
    /\ (forall p, ~ In (Sys (CRemoveAll p)) t)
    /\ (forall p q, ~ In (Sys (CRename p q)) t).
Proof.
  assert (Hrun : exists w' t,
             copyPath 3 "G:\docs" "G:\copy" world0 = Some (None, w', t)).
  { vm_compute. eexists _, _. reflexivity. }
  destruct Hrun as (w' & t & Hrun). exists w', t. split; [exact Hrun|].
  exact (copyPath_confined _ _ _ _ _ _ _ Hrun).
Defined.

(** X10 on the executable host: the directory [docs] exists on the
    volume, so the staged one is copied and then removed. *)
Lemma move_removes_only_copied_witness :
  exists res w' t,
    moveContents 3 "G:\stage" "G:\" Desk.staged_directory = Some (res, w', t)
    /\ In (Sys (CRemoveAll "G:\stage\docs")) t
    /\ exists name w2 w3 tc t1 t2,
         In name (fst (fst (ReadDir "G:\stage" Desk.staged_directory)))
         /\ "G:\stage\docs" = Join "G:\stage" name
         /\ copyPath 3 (Join "G:\stage" name) (Join "G:\" name) w2
            = Some (None, w3, tc)
         /\ t = t1 ++ Sys (CRename (Join "G:\stage" name) (Join "G:\" name))
                   :: tc ++ Sys (CRemoveAll "G:\stage\docs") :: t2.
Proof.
  assert (Hrun : exists res w' t,
             moveContents 3 "G:\stage" "G:\" Desk.staged_directory
               = Some (res, w', t)
             /\ In (Sys (CRemoveAll "G:\stage\docs")) t).
  { vm_compute. eexists _, _, _. split; [reflexivity|].
    repeat (first [left; reflexivity | right]). }
  destruct Hrun as (res & w' & t & Hrun & Hin). exists res, w', t.
  split; [exact Hrun|]. split; [exact Hin|].
  exact (move_removes_only_copied _ _ _ _ _ _ _ _ Hrun Hin).
Defined.

(** X11 on the executable host: the first entry is moved, the second can
    be neither renamed nor copied, the third is not reached. *)
Lemma move_stops_at_first_failure_witness :
  exists err w' t,
    moveContents 3 "G:\stage" "G:\" Desk.staged_clash = Some (Some err, w', t)
    /\ lookup "G:\a.txt" (fs w') = Some (File "a")
    /\ lookup "G:\stage\docs" (fs w') = Some (File "not a directory")
    /\ lookup "G:\stage\z.txt" (fs w') = Some (File "z")
    /\ ((exists names,
           ReadDir "G:\stage" Desk.staged_clash = (names, Some err, w')
           /\ IsNotExist err = false /\ t = [Sys (CReadDir "G:\stage")])
        \/ (exists done name rest w1 w2 t1 t2,
              ReadDir "G:\stage" Desk.staged_clash
                = (done ++ name :: rest, None, w1)
              /\ Moved 3 "G:\stage" "G:\" done w1 w2 t1
              /\ moveEntry 3 "G:\stage" "G:\" name w2 = Some (Some err, w', t2)
              /\ (forall p, ~ In (Sys (CRemoveAll p)) t2)
              /\ t = Sys (CReadDir "G:\stage") :: t1 ++ t2)).
Proof.
  assert (Hrun : exists err w' t,
             moveContents 3 "G:\stage" "G:\" Desk.staged_clash
               = Some (Some err, w', t)
             /\ lookup "G:\a.txt" (fs w') = Some (File "a")
             /\ lookup "G:\stage\docs" (fs w') = Some (File "not a directory")
             /\ lookup "G:\stage\z.txt" (fs w') = Some (File "z")).
  { vm_compute. eexists _, _, _. split; [reflexivity|]. vm_compute. auto. }
  destruct Hrun as (err & w' & t & Hrun & Ha & Hd & Hz). exists err, w', t.
  split; [exact Hrun|]. split; [exact Ha|]. split; [exact Hd|].
  split; [exact Hz|].
  exact (move_stops_at_first_failure _ _ _ _ _ _ _ Hrun).
Defined.

(** X12 on the executable host: the engine refuses the password. *)
Lemma restore_failure_moves_nothing_witness :
  let w := with_engine world0 (engine_ends 0 1 ["Fatal: wrong password"]) in
  option_map (fun x => skipn 3 (snd x))
    (restoreToOriginal 3 runner0 repo0 "snap1" "/G/todo.txt" ["/G/todo.txt"] w)
  = Some (flat_map restoreRecord (out_lines engine0)
            ++ [ EventsEmit "restore:error" (PString restic.msg_wrong_password);
                 Sys (CRemoveAll "G:\restic-gui-temp-ab12cd34") ]).
Proof.
  intros w.
  pose proof (restore_failure_moves_nothing 3 runner0 repo0 "snap1"
                "/G/todo.txt" ["/G/todo.txt"] "G" (uuid w) w w) as Hthm.
  cbv zeta in Hthm.
  specialize (Hthm ltac:(vm_compute; reflexivity) ltac:(discriminate)
                ltac:(vm_compute; reflexivity)).
  destruct Hthm as [_ Hfail].
  assert (Hrun : exists w3 tr,
             restic.RunWithProgress runner0 (config.URI repo0)
               (config.Password repo0)
               (restoreArgs "snap1" (stagingDir "G" (uuid w)) ["/G/todo.txt"])
               restoreLine
               (snd (mkdir_all "G:\restic-gui-temp-ab12cd34" 493 w))
             = Some (Some (ErrCommandFailed restic.msg_wrong_password), w3, tr)
             /\ tr = Sys (CStart
                            (restic.Command runner0
                               (restoreArgs "snap1" "G:\restic-gui-temp-ab12cd34"
                                            ["/G/todo.txt"])
                               (restic.repoEnv (env w) (config.URI repo0)
                                               (config.Password repo0))))
                     :: flat_map restoreRecord (out_lines engine0)).
  { vm_compute. eexists _, _. split; reflexivity. }
  destruct Hrun as (w3 & tr & Hrun & Htr).
  rewrite (Hfail _ w3 _ tr ltac:(vm_compute; reflexivity) Hrun).
  rewrite Htr. vm_compute. reflexivity.
Defined.

(** X13 on the executable host. *)
Lemma StartBackup_command_witness :
  exists task,
    StartBackup app0 Desk.job0 = (None, Some task)
    /\ option_map (fun x => map Args (launches (snd x))) (task world0)
       = Some [[ "C:\restic.exe"; "backup"; "--json";
                 "--exclude"; "node_modules"; "--exclude"; ".git";
                 "--tag"; "nightly";
                 "C:\Users\ada\Documents"; "C:\Users\ada\Pictures" ]].
Proof.
  destruct (StartBackup_command app0 Desk.job0 runner0 repo0 world0
              ltac:(vm_compute; reflexivity) ltac:(vm_compute; reflexivity))
    as (task & HS & Hl).
  exists task. split; [exact HS|].
  assert (Hrun : exists w' t, task world0 = Some (tt, w', t)).
  { injection HS as <-. vm_compute. eexists _, _. reflexivity. }
  destruct Hrun as (w' & t & Hrun).
  rewrite Hrun. cbn [option_map snd fst]. rewrite (Hl w' t Hrun).
  vm_compute. reflexivity.
Defined.

End MoreScenarios.

Section DeskScenarios.
Import Sim.
Import Desk.

(** X18 on the executable host: two repositories with distinct IDs. *)
Lemma repository_ids_stay_distinct_witness :
  NoDup (map config.ID
           (GetRepositories (snd (fst (UpdateRepository app1 repo1 desk0)))))
  /\ map config.ID
       (GetRepositories (snd (fst (DeleteRepository app1 "r1" desk0)))) = ["r2"]
  /\ map config.ID
       (GetRepositories (snd (fst (AddRepository app1 repo1 desk0))))
     = ["r1"; "r2"; "ab12cd34-5678-4abc-9def-0123456789ab"].
Proof.
  pose proof (repository_ids_stay_distinct app1 repo1 "r1" desk0) as Hthm.
  assert (Hnd : NoDup (map config.ID (GetRepositories app1))).
  { vm_compute. repeat constructor; cbn; intuition discriminate. }
  destruct (Hthm Hnd) as (Hup & _ & _).
  split; [exact Hup|]. split; vm_compute; reflexivity.
Defined.

Lemma desk_reads_back (p : string) (d : FileData) (perm : Z)
    (w0 w0' : Desk.World) :
  WriteFile p d perm w0 = (None, w0') -> ReadFile p w0' = (inl d, w0').
Proof.
  cbn [WriteFile ReadFile platform]. unfold write_file, read_file.
  destruct (Sim.lookup (dir_of p) (fs (base w0))) as [[|data]|];
    try discriminate.
  intros Heq. injection Heq as <-. cbn [files with_files find fst snd].
  rewrite String.eqb_refl. reflexivity.
Qed.

Lemma desk_decodes (c : config.AppConfig) (d : FileData)
    (cur : config.AppConfig) :
  MarshalIndent c = inl d -> UnmarshalConfig d cur = (c, None).
Proof.
  cbn [MarshalIndent UnmarshalConfig codec]. intros Heq.
  injection Heq as <-. reflexivity.
Qed.

(** X20 on the executable host: the configuration of the application is
    saved into the directory of the user and loaded again. *)
Lemma saved_configuration_is_loaded_witness :
  let w := snd (MkdirAll "C:\Users\ada\restic-gui" 493 desk0) in
  let saved := snd (ConfigManager.Save (config_ app1) w) in
  fst (ConfigManager.Save (config_ app1) w) = None
  /\ ConfigManager.Load
       {| config.path := "C:\Users\ada\restic-gui\config.json";
          config.Config := ConfigManager.emptyConfig |} saved
     = (None, config_ app1, saved).
Proof.
  intros w saved.
  assert (HS : ConfigManager.Save (config_ app1) w = (None, saved)).
  { vm_compute. reflexivity. }
  split; [rewrite HS; reflexivity|].
  exact (saved_configuration_is_loaded (config_ app1) w saved
           desk_reads_back desk_decodes HS).
Defined.

(** X21 on the executable host. *)
Lemma engine_missing_witness :
  TestRepository (W := Sim.World) app_without_engine "r1" world0
    = Some ((EmptyString, Some (ErrMessage "restic not found")), world0, [])
  /\ GetSnapshots (W := Sim.World) app_without_engine "r1" world0
     = Some (([], Some (ErrMessage "restic not found")), world0, [])
  /\ StartBackup (W := Sim.World) app_without_engine job0
     = (Some (ErrMessage "restic not found"), None)
  /\ RestoreSelected (W := Sim.World) 3 app_without_engine "nowhere" "snap1" []
       EmptyString true
     = (Some (ErrMessage "restic not found"), None)
  /\ GetResticVersion (W := Sim.World) app_without_engine world0
     = Some ("restic not found", world0, []).
Proof.
  destruct (engine_missing (W := Sim.World) app_without_engine world0 eq_refl)
    as (Htest & _ & Hsnap & _ & _ & Hbackup & _ & Hsel & Hver & _).
  split; [apply Htest|]. split; [apply Hsnap|]. split; [apply Hbackup|].
  split; [apply Hsel | exact Hver].
Defined.

(** X22 on the executable host. *)
Lemma unknown_repository_witness :
  TestRepository (W := Sim.World) app1 "r9" world0
    = Some ((EmptyString, Some (ErrMessage "repository not found")), world0, [])
  /\ RestoreSelected (W := Sim.World) 3 app1 "r9" "snap1" [] EmptyString true
     = (Some (ErrMessage "repository not found"), None).
Proof.
  destruct (unknown_repository (W := Sim.World) app1 "r9" runner0 world0
              eq_refl ltac:(vm_compute; reflexivity))
    as (Htest & _ & _ & _ & _ & _ & Hsel).
  split; [exact Htest | apply Hsel].
Defined.

(** X23 on the executable host: the engine prints a list of one snapshot
    and exits with status zero. *)
Lemma engine_methods_launch_once_witness :
  let w := with_combined world0 snapshots_out in
  TestRepository app1 "r1" w
    = Some (("Connection successful!", None), w,
            [Sys (CStart (restic.Command runner0 ["cat"; "config"]
                            (restic.repoEnv (env w) "sftp:nas:/srv/restic"
                                            "hunter2")))])
  /\ option_map (fun x => fst (fst x)) (GetSnapshots app1 "r1" w)
     = Some ([ Snapshot.mk "4f3c9a" "4f3c" "2024-05-01T10:00:00Z" "pc"
                           EmptyString ["G:\docs"] [] ], None).
Proof.
  intros w.
  destruct (engine_methods_launch_once app1 "r1" "snap1" runner0 repo0 repo1 w
              eq_refl ltac:(vm_compute; reflexivity))
    as (Htest & _ & _ & Hsnap).
  split.
  - rewrite Htest. vm_compute. reflexivity.
  - rewrite Hsnap. vm_compute. reflexivity.
Defined.

(** X24 on the executable host. *)
Lemma GetResticVersion_outcome_witness :
  let w := with_combined world0 "restic 0.16.4 compiled with go1.21.6 on windows/amd64" in
  GetResticVersion app1 w
  = Some ("restic 0.16.4 compiled with go1.21.6 on windows/amd64", w,
          [Sys (CStart (restic.Command runner0 ["version"] ["PATH=C:\Windows"]))]).
Proof.
  intros w.
  destruct (GetResticVersion_outcome app1 runner0 w eq_refl)
    as (_ & text & Hrun & Hok & _).
  rewrite Hrun. rewrite (Hok ltac:(vm_compute; reflexivity)).
  vm_compute. reflexivity.
Defined.

(** X26 on the executable host: no engine beside the application and none
    on the search path. *)
Lemma startup_without_engine_witness :
  exists a w',
    startup desk0
      = (a, [LogWarning ("restic not found: " ++ msg_engine_missing)], w')
    /\ runner a = None
    /\ GetRepositories a = []
    /\ files w' = [("C:\Users\ada\restic-gui\config.json",
                    Some ConfigManager.emptyConfig)].
Proof.
  set (w1 := snd (ConfigManager.NewConfigManager desk0)).
  destruct (startup_without_engine desk0 w1
              (ErrMessage "executable file not found in %PATH%: restic"))
    as (a & Hstart & Hcfg & Hrun & _).
  - right. exists "C:\Apps\ResticBackupManager.exe",
             (not_found "C:\Apps\restic.exe").
    split; vm_compute; reflexivity.
  - vm_compute. reflexivity.
  - exists a, w1. split; [exact Hstart|]. split; [exact Hrun|].
    split; [unfold GetRepositories; rewrite Hcfg|]; vm_compute; reflexivity.
Defined.

(** X29 on a small listing: the directory is checked, then the report
    below it is unchecked. *)
Lemma unchecked_child_keeps_directory_witness :
  let after :=
    RestoreTree.toggleCheck tree0 (RestoreTree.toggleCheck tree0 [] docs_node)
                            report_node in
  after = ["/G/docs"]
  /\ RestoreTree.getCheckState tree0 after docs_node = RestoreTree.indeterminate
  /\ SelectiveRestore.startRestore
       {| SelectiveRestore.selectedRepo := "r1";
          SelectiveRestore.selectedSnap := "snap1";
          SelectiveRestore.checked := after;
          SelectiveRestore.targetPath := EmptyString;
          SelectiveRestore.restoreMode := SelectiveRestore.original |}
     = SelectiveRestore.CallRestoreSelected "r1" "snap1" ["/G/docs"]
                                            EmptyString true.
Proof.
  intros after.
  destruct (unchecked_child_keeps_directory tree0 [] docs_node report_node
              "r1" "snap1" EmptyString eq_refl eq_refl
              ltac:(right; left; reflexivity) eq_refl)
    as (_ & _ & Hstate & Hstart & _).
  split; [vm_compute; reflexivity|]. split; [exact Hstate | exact Hstart].
Defined.

(** X30 on the same listing: the directory is collapsed. *)
Lemma collapsed_directory_hides_witness :
  RestoreTree.isVisible 20 "/G/docs/report.pdf"
    (RestoreTree.toggleExpand ["/G"; "/G/docs"] docs_node) = Some false
  /\ RestoreTree.isVisible 20 "/G/docs/report.pdf" ["/G"; "/G/docs"] = Some true.
Proof.
  destruct (collapsed_directory_hides ["/G"; "/G/docs"] docs_node report_node 20
              ltac:(vm_compute; lia)) as (_ & Hhide).
  destruct (Hhide eq_refl ltac:(vm_compute; discriminate)) as (_ & Hcollapse).
  split; [exact (Hcollapse eq_refl) | vm_compute; reflexivity].
Defined.

End DeskScenarios.
